(** * The object writer of the repository (package [object], object_writer.go)

    A shallow embedding of [objectWriter]: its [Write], [flushBuffer],
    [maybeCompressedContentBytes], [Result] and [Close] methods, written as
    state-passing functions over the shared [Manager], followed by the
    properties of the writer that the specification states.  After the
    writer come the content tracker of the same file, the metadata cache and
    the blob storage of package [b2], the credential check of the server
    command and the logging of the main program, with their properties. *)

From Stdlib Require Import List ZArith Lia Bool Permutation Sorted.
From Stdlib.Strings Require Import String Ascii Byte.
From Stdlib.Numbers Require Import DecimalString.
Import ListNotations.
Local Open Scope string_scope.
Local Open Scope list_scope.
Local Open Scope Z_scope.

(** ** Go scalars *)

(** [int64] arithmetic wraps around in two's complement. *)
Definition wrap64 (z : Z) : Z := (z + 2 ^ 63) mod 2 ^ 64 - 2 ^ 63.

(** Go's [len], as an [int]. *)
Definition len {A : Type} (l : list A) : Z := Z.of_nat (List.length l).

(** ** Errors (github.com/pkg/errors) *)

Inductive error : Type :=
| New (msg : string)
| Wrap (cause : error) (msg : string).

(** [errors.Cause]: the innermost error of a chain of wrappers. *)
Fixpoint Cause (e : error) : error :=
  match e with
  | New _ => e
  | Wrap c _ => Cause c
  end.

(** The [%d] verb of [errors.Wrapf]. *)
Definition decimal (n : nat) : string := NilZero.string_of_uint (Nat.to_uint n).

(** ** Identifiers *)

(** [content.ID] and [object.ID] are Go string types; the zero value of
    both is the empty string. *)
Definition contentID := string.
Definition ID := string.

(** Modelled from the spec: the object identifier codec (objectid.go is not
    among the sources).  The normative textual scheme: a direct identifier is
    the content identifier itself, the compressed variant is [Z<Direct>], the
    indirect variant is [I<ObjectID>]. *)
Definition DirectObjectID (c : contentID) : ID := c.
Definition Compressed (o : ID) : ID := ("Z" ++ o)%string.
Definition IndirectObjectID (o : ID) : ID := ("I" ++ o)%string.

(** An identifier is of the indirect variant when it is [IndirectObjectID] of
    some identifier. *)
Definition isIndirect (o : ID) : Prop := exists inner, o = IndirectObjectID inner.

Definition isIndirectb (o : ID) : bool :=
  match o with
  | String c _ => Ascii.eqb c "I"%char
  | EmptyString => false
  end.

(** ** The indirect index *)

(** The two struct types are declared outside object_writer.go; the field
    names are the ones the writer uses. *)
Record indirectObjectEntry : Type := {
  Start : Z;
  Length : Z;
  Object : ID
}.

Record indirectObject : Type := {
  StreamID : string;
  Entries : list indirectObjectEntry
}.

(** [indirectObjectEntry{}] *)
Definition zeroEntry : indirectObjectEntry :=
  {| Start := 0; Length := 0; Object := "" |}.

(** Assignment to a field of [l[i]]; Go panics when [i] is out of range,
    which is [None] here. *)
Fixpoint setEntry (i : nat) (f : indirectObjectEntry -> indirectObjectEntry)
    (l : list indirectObjectEntry) : option (list indirectObjectEntry) :=
  match l, i with
  | [], _ => None
  | e :: l', O => Some (f e :: l')
  | e :: l', S i' => option_map (cons e) (setEntry i' f l')
  end.

Definition setStart (v : Z) (e : indirectObjectEntry) :=
  {| Start := v; Length := Length e; Object := Object e |}.
Definition setLength (v : Z) (e : indirectObjectEntry) :=
  {| Start := Start e; Length := v; Object := Object e |}.
Definition setObject (v : ID) (e : indirectObjectEntry) :=
  {| Start := Start e; Length := Length e; Object := v |}.

(** ** Collaborators *)

(** [splitter.Splitter]: a stateful interface owned by one writer. *)
Class Splitter (S : Type) : Type := {
  ShouldSplit : S -> byte -> bool * S;
  MaxSegmentSize : S -> Z;
  SplitterClose : S -> S
}.

(** [content.Manager], as far as the writer uses it: [WriteContent] stores a
    payload under a prefix and returns a content identifier or an error. *)
Class ContentManager (CM : Type) : Type := {
  WriteContent : CM -> list byte -> contentID -> CM * (error + contentID)
}.

(** [compression.Compressor]: [Compress(output, input)] appends the compressed
    form of [input] to [output], or fails. *)
Definition Compressor : Type := list byte -> error + list byte.

(** The calls the writer makes on its collaborators, in program order. *)
Inductive call : Type :=
| CallAllocate (n : Z)
| CallRelease (n : Z)
| CallNewSplitter
| CallSplitterClose
| CallCompress (input : list byte)
| CallWriteContent (payload : list byte) (prefix : contentID)
| CallJSONEncode (ind : indirectObject).

(** Modelled from the spec: the buffer pool (package internal/buf is not
    among the sources).  [allocate(min_size)] hands out a buffer of at least
    that size; [release] gives it back and is idempotent.  A handle is either
    live with the size it was requested at, or nil (the zero value, and the
    state after [release]). *)
Record Buf : Type := { Data : option Z }.

Definition zeroBuf : Buf := {| Data := None |}.

(** ** Outcomes of a call *)

Inductive outcome (A : Type) : Type :=
| Returns (a : A)
| Panics
| NoFuel.

Arguments Returns {A} a.
Arguments Panics {A}.
Arguments NoFuel {A}.

Section Writer.

Context {S CM : Type} {splitterOps : Splitter S} {contentOps : ContentManager CM}.

(** [encoding/json]: the bytes [Encoder.Encode] hands to its writer for an
    index document (the marshalled value and a newline), or the marshalling
    error.  The struct tags are declared outside object_writer.go. *)
Variable jsonEncode : indirectObject -> error + list byte.

(** The object [Manager] shared by the writers ([w.om]): the content manager,
    the splitter factory (every [newSplitter()] hands out a splitter in the
    same initial state), and the history of the calls made so far on the
    buffer pool, the splitters, the compressor, the encoder and the content
    manager. *)
Record Manager : Type := {
  contentMgr : CM;
  newSplitter : S;
  calls : list call
}.

(** The fields of [objectWriter], but for [ctx], which the writer only hands
    on to [WriteContent], and [om], the shared [Manager], which every method
    below receives and returns as the state of [M].  [splitter] is an
    interface value and may be nil. *)
Record objectWriter : Type := {
  compressor : option Compressor;
  prefix : contentID;
  buf : Buf;
  buffer : list byte;
  totalLength : Z;
  currentPosition : Z;
  indirectIndex : list indirectObjectEntry;
  description : string;
  splitter : option S
}.

(** *** A small state monad over the [Manager] *)

Definition M (A : Type) : Type := Manager -> outcome (A * Manager).

Definition ret {A : Type} (a : A) : M A := fun om => Returns (a, om).

Definition bind {A B : Type} (c : M A) (k : A -> M B) : M B :=
  fun om =>
    match c om with
    | Returns (a, om') => k a om'
    | Panics => Panics
    | NoFuel => NoFuel
    end.

Definition panic {A : Type} : M A := fun _ => Panics.
Definition noFuel {A : Type} : M A := fun _ => NoFuel.

Definition record (c : call) : M unit :=
  fun om =>
    Returns (tt, {| contentMgr := contentMgr om;
                    newSplitter := newSplitter om;
                    calls := calls om ++ [c] |}).

Notation "x <- c ;; k" := (bind c (fun x => k))
  (at level 61, c at next level, right associativity).
Notation "' p <- c ;; k" := (bind c (fun x => let 'p := x in k))
  (at level 61, p pattern, c at next level, right associativity).

(** *** Collaborator calls *)

Definition Allocate (n : Z) : M Buf :=
  _ <- record (CallAllocate n) ;;
  ret {| Data := Some n |}.

Definition Release (b : Buf) : M Buf :=
  match Data b with
  | Some n => _ <- record (CallRelease n) ;; ret zeroBuf
  | None => ret b
  end.

Definition callNewSplitter : M S :=
  fun om =>
    Returns (newSplitter om,
             {| contentMgr := contentMgr om;
                newSplitter := newSplitter om;
                calls := calls om ++ [CallNewSplitter] |}).

Definition callSplitterClose (s : S) : M S :=
  _ <- record CallSplitterClose ;;
  ret (SplitterClose s).

Definition callWriteContent (payload : list byte) (pfx : contentID)
    : M (error + contentID) :=
  fun om =>
    let (cm', r) := WriteContent (contentMgr om) payload pfx in
    Returns (r, {| contentMgr := cm';
                   newSplitter := newSplitter om;
                   calls := calls om ++ [CallWriteContent payload pfx] |}).

(** [bytes.Buffer.WriteByte]: appends the byte; the returned error is always
    nil. *)
Definition WriteByte (b : list byte) (d : byte) : list byte * option error :=
  (b ++ [d], None).

(** *** Field updates *)

Definition withBuf (w : objectWriter) (v : Buf) : objectWriter :=
  {| compressor := compressor w; prefix := prefix w; buf := v;
     buffer := buffer w; totalLength := totalLength w;
     currentPosition := currentPosition w; indirectIndex := indirectIndex w;
     description := description w; splitter := splitter w |}.

Definition withBuffer (w : objectWriter) (v : list byte) : objectWriter :=
  {| compressor := compressor w; prefix := prefix w; buf := buf w;
     buffer := v; totalLength := totalLength w;
     currentPosition := currentPosition w; indirectIndex := indirectIndex w;
     description := description w; splitter := splitter w |}.

Definition withTotalLength (w : objectWriter) (v : Z) : objectWriter :=
  {| compressor := compressor w; prefix := prefix w; buf := buf w;
     buffer := buffer w; totalLength := v;
     currentPosition := currentPosition w; indirectIndex := indirectIndex w;
     description := description w; splitter := splitter w |}.

Definition withCurrentPosition (w : objectWriter) (v : Z) : objectWriter :=
  {| compressor := compressor w; prefix := prefix w; buf := buf w;
     buffer := buffer w; totalLength := totalLength w;
     currentPosition := v; indirectIndex := indirectIndex w;
     description := description w; splitter := splitter w |}.

Definition withIndirectIndex (w : objectWriter)
    (v : list indirectObjectEntry) : objectWriter :=
  {| compressor := compressor w; prefix := prefix w; buf := buf w;
     buffer := buffer w; totalLength := totalLength w;
     currentPosition := currentPosition w; indirectIndex := v;
     description := description w; splitter := splitter w |}.

Definition withSplitter (w : objectWriter) (v : option S) : objectWriter :=
  {| compressor := compressor w; prefix := prefix w; buf := buf w;
     buffer := buffer w; totalLength := totalLength w;
     currentPosition := currentPosition w; indirectIndex := indirectIndex w;
     description := description w; splitter := v |}.

(** [w.indirectIndex[i].field = v] *)
Definition assignEntry (w : objectWriter) (i : nat)
    (f : indirectObjectEntry -> indirectObjectEntry) : M objectWriter :=
  match setEntry i f (indirectIndex w) with
  | Some l => ret (withIndirectIndex w l)
  | None => panic
  end.

(** *** The methods of [objectWriter] *)

(** A call of a method of a nil splitter panics. *)
Definition initBuffer (w : objectWriter) : M objectWriter :=
  match splitter w with
  | None => panic
  | Some s =>
      b <- Allocate (MaxSegmentSize s) ;;
      ret (withBuffer (withBuf w b) [])
  end.

Definition Close (w : objectWriter) : M (option error * objectWriter) :=
  b <- Release (buf w) ;;
  let w := withBuf w b in
  match splitter w with
  | Some s =>
      s' <- callSplitterClose s ;;
      ret (None, withSplitter w (Some s'))
  | None => ret (None, w)
  end.

Definition maybeCompressedContentBytes (comp : option Compressor)
    (output input : list byte) : M (list byte * bool * option error) :=
  match comp with
  | Some c =>
      _ <- record (CallCompress input) ;;
      match c input with
      | inl err => ret ([], false, Some (Wrap err "compression error"))
      | inr written =>
          let output := output ++ written in
          if len output <? len input
          then ret (output, true, None)
          else ret (input, false, None)
      end
  | None => ret (input, false, None)
  end.

Definition flushBuffer (w : objectWriter) : M (option error * objectWriter) :=
  let length := len (buffer w) in
  let chunkID := List.length (indirectIndex w) in
  let w := withIndirectIndex w (indirectIndex w ++ [zeroEntry]) in
  w <- assignEntry w chunkID (setStart (currentPosition w)) ;;
  w <- assignEntry w chunkID (setLength length) ;;
  let w := withCurrentPosition w (wrap64 (currentPosition w + length)) in
  b <- Allocate length ;;
  (* defer b.Release() *)
  '(err, w) <-
    ('(contentBytes, isCompressed, err) <-
        maybeCompressedContentBytes (compressor w) [] (buffer w) ;;
     match err with
     | Some e => ret (Some (Wrap e "unable to prepare content bytes"), w)
     | None =>
         r <- callWriteContent contentBytes (prefix w) ;;
         let w := withBuffer w [] in
         match r with
         | inl e =>
             ret (Some (Wrap e ("error when flushing chunk " ++ decimal chunkID
                                  ++ " of " ++ description w)%string), w)
         | inr cid =>
             let oid := DirectObjectID cid in
             let oid := if isCompressed then Compressed oid else oid in
             w <- assignEntry w chunkID (setObject oid) ;;
             ret (None, w)
         end
     end) ;;
  _ <- Release b ;;
  ret (err, w).

(** The loop of [Write] over the bytes of the slice. *)
Fixpoint writeLoop (w : objectWriter) (data : list byte)
    : M (option error * objectWriter) :=
  match data with
  | [] => ret (None, w)
  | d :: rest =>
      let (b, err) := WriteByte (buffer w) d in
      let w := withBuffer w b in
      match err with
      | Some e => ret (Some e, w)
      | None =>
          match splitter w with
          | None => panic
          | Some s =>
              let (split, s') := ShouldSplit s d in
              let w := withSplitter w (Some s') in
              if split
              then
                '(err, w) <- flushBuffer w ;;
                match err with
                | Some e => ret (Some e, w)
                | None => writeLoop w rest
                end
              else writeLoop w rest
          end
      end
  end.

Definition Write (w : objectWriter) (data : list byte)
    : M (Z * option error * objectWriter) :=
  let dataLen := len data in
  let w := withTotalLength w (wrap64 (totalLength w + dataLen)) in
  '(err, w) <- writeLoop w data ;;
  match err with
  | Some e => ret (0, Some e, w)
  | None => ret (dataLen, None, w)
  end.

(** [json.NewEncoder(iw).Encode(ind)]: one [Write] of the encoded document;
    the encoder returns the error of the marshalling or of that [Write]. *)
Definition Encode (iw : objectWriter) (ind : indirectObject)
    : M (option error * objectWriter) :=
  _ <- record (CallJSONEncode ind) ;;
  match jsonEncode ind with
  | inl e => ret (Some e, iw)
  | inr b =>
      '(_, err, iw) <- Write iw b ;;
      ret (err, iw)
  end.

(** The first statement of [Result]: one more flush when bytes are pending
    or nothing was flushed yet ([finalFlush] names that statement). *)
Definition needsFlush (w : objectWriter) : bool :=
  (0 <? len (buffer w)) || (len (indirectIndex w) =? 0).

Definition finalFlush (w : objectWriter) : M (option error * objectWriter) :=
  if needsFlush w then flushBuffer w else ret (None, w).

(** The struct literal of the nested writer of [Result]; the fields it does
    not name have their zero values. *)
Definition indexWriter (w : objectWriter) (s : S) : objectWriter :=
  {| compressor := None;
     prefix := prefix w;
     buf := zeroBuf;
     buffer := [];
     totalLength := 0;
     currentPosition := 0;
     indirectIndex := [];
     description := ("LIST(" ++ description w ++ ")")%string;
     splitter := Some s |}.

(** [Result] calls itself on the nested writer; [fuel] bounds the depth of
    that recursion. *)
Fixpoint Result (fuel : nat) (w : objectWriter)
    : M (ID * option error * objectWriter) :=
  match fuel with
  | O => noFuel
  | Datatypes.S fuel' =>
      '(err, w) <- finalFlush w ;;
      match err with
      | Some e => ret ("", Some e, w)
      | None =>
          if len (indirectIndex w) =? 1
          then
            match nth_error (indirectIndex w) 0 with
            | Some e => ret (Object e, None, w)
            | None => panic
            end
          else
            s <- callNewSplitter ;;
            iw <- initBuffer (indexWriter w s) ;;
            (* defer iw.Close() *)
            '(r, iw) <-
              (let ind := {| StreamID := "kopia:indirect";
                             Entries := indirectIndex w |} in
               '(err, iw) <- Encode iw ind ;;
               match err with
               | Some e =>
                   ret (("", Some (Wrap e "unable to write indirect object index")), iw)
               | None =>
                   '(oid, err, iw) <- Result fuel' iw ;;
                   match err with
                   | Some e => ret (("", Some e), iw)
                   | None => ret ((IndirectObjectID oid, None), iw)
                   end
               end) ;;
            _ <- Close iw ;;
            ret (r, w)
      end
  end.

(** The construction of a writer, as [Result] does it for the nested one:
    the struct literal, then [initBuffer]. *)
Definition newWriter (comp : option Compressor) (desc : string)
    (pfx : contentID) : M objectWriter :=
  s <- callNewSplitter ;;
  initBuffer
    {| compressor := comp; prefix := pfx; buf := zeroBuf; buffer := [];
       totalLength := 0; currentPosition := 0; indirectIndex := [];
       description := desc; splitter := Some s |}.

(** A sequence of [Write] calls, stopping at the first one that fails. *)
Fixpoint writeAll (w : objectWriter) (slices : list (list byte))
    : M (option error * objectWriter) :=
  match slices with
  | [] => ret (None, w)
  | data :: rest =>
      '(_, err, w) <- Write w data ;;
      match err with
      | Some e => ret (Some e, w)
      | None => writeAll w rest
      end
  end.

End Writer.

Arguments Manager S CM : clear implicits.
Arguments objectWriter S : clear implicits.

(** ** Concrete collaborators

    Small implementations of the interfaces, on which the writer can be run. *)

(** A splitter that cuts after every [limit] bytes. *)
Record fixedSplitter : Type := {
  limit : nat;
  seen : nat;
  closed : bool
}.

#[export] Instance fixedSplitter_Splitter : Splitter fixedSplitter := {
  ShouldSplit s _ :=
    if (limit s <=? Datatypes.S (seen s))%nat
    then (true, {| limit := limit s; seen := 0; closed := closed s |})
    else (false, {| limit := limit s; seen := Datatypes.S (seen s); closed := closed s |});
  MaxSegmentSize s := Z.of_nat (limit s);
  SplitterClose s := {| limit := limit s; seen := seen s; closed := true |}
}.

(** A splitter that is handed back to a pool by every [Close], and counts how
    often that happened. *)
Record pooledSplitter : Type := {
  inner : fixedSplitter;
  returned : nat
}.

#[export] Instance pooledSplitter_Splitter : Splitter pooledSplitter := {
  ShouldSplit s d :=
    let (b, i) := ShouldSplit (inner s) d in
    (b, {| inner := i; returned := returned s |});
  MaxSegmentSize s := MaxSegmentSize (inner s);
  SplitterClose s := {| inner := inner s; returned := Datatypes.S (returned s) |}
}.

(** A content manager that follows a script: each call consumes one step,
    [Some msg] makes the call fail with that message, [None] (and the end of
    the script) makes it succeed.  The identifier of a payload depends on the
    payload and the prefix only. *)
Definition scriptedCM : Type := list (option string).

Definition checksum (payload : list byte) : N :=
  fold_left (fun h b => ((h * 31 + Byte.to_N b) mod 65521)%N) payload 7%N.

Definition scriptedID (payload : list byte) (pfx : contentID) : contentID :=
  (pfx ++ NilZero.string_of_uint (N.to_uint (checksum payload)))%string.

#[export] Instance scriptedCM_ContentManager : ContentManager scriptedCM := {
  WriteContent m payload pfx :=
    match m with
    | Some msg :: m' => (m', inl (New msg))
    | None :: m' => (m', inr (scriptedID payload pfx))
    | [] => ([], inr (scriptedID payload pfx))
    end
}.

(** Compressors: one that always writes a fixed output, and the identity. *)
Definition constCompressor (out : list byte) : Compressor := fun _ => inr out.
Definition idCompressor : Compressor := fun input => inr input.
(** Modelled from the spec: the index file format (the struct tags are not
    among the sources): an object with the fields [stream] and [entries],
    each entry an object with the fields [s], [l] and [o], followed by the
    newline of [Encoder.Encode]. *)
Definition jsonInt (z : Z) : string := NilZero.string_of_int (Z.to_int z).

Definition quote : string := String (ascii_of_nat 34) "".

Definition jsonField (name : string) : string := (quote ++ name ++ quote ++ ":")%string.

Definition jsonEntry (e : indirectObjectEntry) : string :=
  ("{" ++ jsonField "s" ++ jsonInt (Start e) ++ ","
       ++ jsonField "l" ++ jsonInt (Length e) ++ ","
       ++ jsonField "o" ++ quote ++ Object e ++ quote ++ "}")%string.

Definition jsonIndex (ind : indirectObject) : error + list byte :=
  inr (list_byte_of_string
         ("{" ++ jsonField "stream" ++ quote ++ StreamID ind ++ quote ++ ","
              ++ jsonField "entries" ++ "["
              ++ String.concat "," (map jsonEntry (Entries ind)) ++ "]}"
              ++ String (ascii_of_nat 10) "")%string).

Definition bytes (s : string) : list byte := list_byte_of_string s.

Definition manager0 (cm : scriptedCM) (n : nat) : Manager fixedSplitter scriptedCM :=
  {| contentMgr := cm;
     newSplitter := {| limit := n; seen := 0; closed := false |};
     calls := [] |}.

(** ** Concrete writers and managers

    The inputs of the scenarios at the end of the file. *)

Definition splitAt (n : nat) : fixedSplitter :=
  {| limit := n; seen := 0; closed := false |}.

(** A writer as [newWriter] leaves it over a splitter that cuts every [n]
    bytes, and the manager after that construction. *)
Definition fresh (n : nat) (comp : option Compressor) (pfx : contentID)
    : objectWriter fixedSplitter :=
  {| compressor := comp; prefix := pfx;
     buf := {| Data := Some (Z.of_nat n) |};
     buffer := []; totalLength := 0; currentPosition := 0;
     indirectIndex := []; description := "doc";
     splitter := Some (splitAt n) |}.

Definition constructed (cm : scriptedCM) (n : nat) : Manager fixedSplitter scriptedCM :=
  {| contentMgr := cm; newSplitter := splitAt n;
     calls := [CallNewSplitter; CallAllocate (Z.of_nat n)] |}.

(** Three bytes pending in the buffer of a writer whose splitter allows
    segments of eight. *)
Definition pending : objectWriter fixedSplitter :=
  {| compressor := None; prefix := "";
     buf := {| Data := Some 8 |};
     buffer := bytes "abc"; totalLength := 3; currentPosition := 0;
     indirectIndex := []; description := "doc";
     splitter := Some {| limit := 8; seen := 3; closed := false |} |}.

(** A writer over a pooled splitter. *)
Definition pooled : objectWriter pooledSplitter :=
  {| compressor := None; prefix := "";
     buf := {| Data := Some 8 |};
     buffer := []; totalLength := 0; currentPosition := 0;
     indirectIndex := []; description := "doc";
     splitter := Some {| inner := splitAt 8; returned := 0 |} |}.

Definition pooledManager : Manager pooledSplitter scriptedCM :=
  {| contentMgr := []; newSplitter := {| inner := splitAt 8; returned := 0 |};
     calls := [] |}.

(** Four bytes pending, with a compressor configured. *)
Definition pendingWith (c : Compressor) : objectWriter fixedSplitter :=
  {| compressor := Some c; prefix := "";
     buf := {| Data := Some 8 |};
     buffer := bytes "aaaa"; totalLength := 4; currentPosition := 0;
     indirectIndex := []; description := "doc";
     splitter := Some {| limit := 8; seen := 4; closed := false |} |}.

(** A writer that has flushed two chunks under the prefix [k], over a
    splitter that cuts every 128 bytes. *)
Definition twoChunks : objectWriter fixedSplitter :=
  {| compressor := None; prefix := "k";
     buf := {| Data := Some 128 |};
     buffer := []; totalLength := 256; currentPosition := 256;
     indirectIndex := [ {| Start := 0; Length := 128; Object := "k101" |};
                        {| Start := 128; Length := 128; Object := "k102" |} ];
     description := "doc";
     splitter := Some (splitAt 128) |}.

(** A manager with a different history: two more steps in the script of the
    content manager, and calls already made. *)
Definition used : Manager fixedSplitter scriptedCM :=
  {| contentMgr := [None; None]; newSplitter := splitAt 3;
     calls := [CallNewSplitter; CallSplitterClose] |}.

(** * Other parts of the repository

    The content tracker of object_writer.go, the metadata cache and the blob
    storage of package [b2], the credential check of the server command and
    the log sweeping of the main program. *)

(** ** Go maps with string keys

    A map as the list of its key/value pairs, one pair per key.  Go leaves
    the iteration order of a map unspecified: the order of the pairs is one
    order among others, and [range] below is given the order separately. *)
Module GoMap.

Definition t (V : Type) : Type := list (string * V).

(** [m[k]], with [None] for a missing key. *)
Definition lookup {V : Type} (k : string) (m : t V) : option V :=
  option_map snd (find (fun p => String.eqb (fst p) k) m).

(** [delete(m, k)] *)
Definition delete {V : Type} (k : string) (m : t V) : t V :=
  filter (fun p => negb (String.eqb (fst p) k)) m.

(** [m[k] = v] *)
Definition store {V : Type} (k : string) (v : V) (m : t V) : t V :=
  (k, v) :: delete k m.

Definition keys {V : Type} (m : t V) : list string := map fst m.

(** [len(m)] *)
Definition size {V : Type} (m : t V) : Z := len m.

End GoMap.

(** ** The content tracker (object_writer.go) *)
Module Tracker.

(** [contents] is nil until the first [addContentID]. *)
Record contentIDTracker : Type := {
  contents : option (GoMap.t bool)
}.

(** The zero value of the struct. *)
Definition zero : contentIDTracker := {| contents := None |}.

Definition addContentID (id : contentID) (t : contentIDTracker) : contentIDTracker :=
  let m := match contents t with
           | None => []
           | Some m => m
           end in
  {| contents := Some (GoMap.store id true m) |}.

(** [contentIDs] ranges over the map; [range] is the order in which the
    runtime visits the pairs.  Ranging over a nil map visits nothing. *)
Definition contentIDs (range : GoMap.t bool -> GoMap.t bool) (t : contentIDTracker)
    : list contentID :=
  match contents t with
  | None => []
  | Some m => map fst (range m)
  end.

(** What is known of the order of a [range]: every pair is visited once. *)
Definition iteration (range : GoMap.t bool -> GoMap.t bool) : Prop :=
  forall m, Permutation (range m) m.

(** The tracker after the identifiers were added, in order. *)
Definition addAll (ids : list contentID) (t : contentIDTracker) : contentIDTracker :=
  fold_left (fun t id => addContentID id t) ids t.

End Tracker.

(** ** The metadata cache of the B2 storage (b2_cache.go) *)
Module B2Cache.

(** [*b2.Object]: nil, or the address of an object. *)
Definition objectPtr : Type := option nat.

(** [time.Time] and [time.Duration] in nanoseconds. *)
Definition Time : Type := Z.
Definition Minute : Z := 60 * 1000000000.

Record b2CacheEntry : Type := {
  o : objectPtr;
  ts : Time
}.

(** [container/ring]: the ring as the list of its values from the current
    element on; a nil ring is the empty list.  A value is nil or a blob
    identifier. *)
Definition Ring : Type := list (option string).

(** [ring.New(n)]: nil for [n <= 0], else [n] elements with nil values. *)
Definition ringNew (n : Z) : Ring := repeat None (Z.to_nat n).

(** [r.Value = v; r = r.Next()] on a ring that is not nil. *)
Definition setAndNext (v : option string) (rest : Ring) : Ring := rest ++ [v].

Record b2Cache : Type := {
  entries : GoMap.t b2CacheEntry;
  ring : Ring
}.

Definition newB2Cache (size : Z) : b2Cache :=
  {| entries := []; ring := ringNew size |}.

(** [Add]; [now] is the reading of [time.Now()].  [c.ring.Value] on a nil
    ring is a nil pointer dereference. *)
Definition Add (id : string) (obj : objectPtr) (now : Time) (c : b2Cache)
    : outcome b2Cache :=
  match ring c with
  | [] => Panics
  | v :: rest =>
      let entries1 := match v with
                      | Some old => GoMap.delete old (entries c)
                      | None => entries c
                      end in
      Returns {| entries := GoMap.store id {| o := obj; ts := now |} entries1;
                 ring := setAndNext (Some id) rest |}
  end.

(** [Get]: the object, or nil, and the cache afterwards. *)
Definition Get (id : string) (now : Time) (c : b2Cache) : objectPtr * b2Cache :=
  match GoMap.lookup id (entries c) with
  | None => (None, c)
  | Some entry =>
      if ts entry <? now - Minute
      then (None, {| entries := GoMap.delete id (entries c); ring := ring c |})
      else (o entry, c)
  end.

(** Calls on a cache. *)
Inductive op : Type :=
| OpAdd (id : string) (obj : objectPtr) (now : Time)
| OpGet (id : string) (now : Time).

Definition step (c : b2Cache) (x : op) : outcome b2Cache :=
  match x with
  | OpAdd id obj now => Add id obj now c
  | OpGet id now => Returns (snd (Get id now c))
  end.

Fixpoint run (xs : list op) (c : b2Cache) : outcome b2Cache :=
  match xs with
  | [] => Returns c
  | x :: xs' =>
      match step c x with
      | Returns c' => run xs' c'
      | Panics => Panics
      | NoFuel => NoFuel
      end
  end.

(** One [Add] per triple, in order. *)
Definition adds (l : list (string * objectPtr * Time)) : list op :=
  map (fun '(id, obj, now) => OpAdd id obj now) l.

(** The last [n] elements of a list. *)
Definition lastn {A : Type} (n : nat) (l : list A) : list A :=
  skipn (List.length l - n) l.

(** The identifier of an [Add]. *)
Definition idOf (a : string * objectPtr * Time) : string := fst (fst a).

Definition entryOf (a : string * objectPtr * Time) : b2CacheEntry :=
  {| o := snd (fst a); ts := snd a |}.

(** The keys of the map are named by the ring: an entry can only be in the
    map while one of the slots of the ring holds its identifier. *)
Definition coherent (c : b2Cache) : Prop :=
  NoDup (GoMap.keys (entries c)) /\
  forall k, In k (GoMap.keys (entries c)) -> In (Some k) (ring c).

(** The cache holds the calls of [window], oldest first: the ring names them
    after its free slots, and the map has their entries and no other. *)
Definition holds (n : nat) (c : b2Cache) (window : list (string * objectPtr * Time))
    : Prop :=
  (List.length window <= n)%nat /\
  ring c = repeat None (n - List.length window) ++ map (fun a => Some (idOf a)) window /\
  (forall a, In a window -> GoMap.lookup (idOf a) (entries c) = Some (entryOf a)) /\
  (forall k, ~ In k (map idOf window) -> GoMap.lookup k (entries c) = None).

(** A window of at most [n] calls, after one more call. *)
Definition push {A : Type} (n : nat) (a : A) (window : list A) : list A :=
  if (List.length window <? n)%nat then window ++ [a] else tl window ++ [a].

Definition pushAll {A : Type} (n : nat) (l window : list A) : list A :=
  fold_left (fun w a => push n a w) l window.

End B2Cache.

(** ** The B2 blob storage (b2_storage.go) *)
Module B2Storage.

(** The fields of [Options] that the methods below read. *)
Record Options : Type := {
  BucketName : string;
  Prefix : string
}.

Definition getObjectNameString (s : Options) (id : string) : string :=
  (Prefix s ++ id)%string.

(** Go's [s[n:]], which panics when [n] exceeds the length. *)
Definition sliceFrom (n : nat) (s : string) : outcome string :=
  if (n <=? String.length s)%nat
  then Returns (substring n (String.length s - n) s)
  else Panics.

(** An object of the bucket: its name and what [Attrs] answers (the size
    and the time of the last modification). *)
Record b2Object : Type := {
  Name : string;
  Attrs : error + (Z * Z)
}.

(** [blob.Metadata] *)
Record Metadata : Type := {
  BlobID : string;
  Length : Z;
  Timestamp : Z
}.

(** The service lists the objects whose names begin with the prefix asked
    for ([b2.ListPrefix]). *)
Definition ListPrefix (p : string) (bucket : list b2Object) : list b2Object :=
  filter (fun obj => String.prefix p (Name obj)) bucket.

Section Listing.

(** [%q] of a string ([strconv.Quote]). *)
Variable Quote : string -> string.

(** The loop of [ListBlobs] over the objects the iterator yields; [final] is
    [oi.Err()].  The result is the metadata handed to the callback, in order,
    and the error returned. *)
Fixpoint listLoop (s : Options) (callback : Metadata -> option error)
    (objs : list b2Object) (final : option error)
    : outcome (list Metadata * option error) :=
  match objs with
  | [] => Returns ([], final)
  | obj :: rest =>
      match Attrs obj with
      | inl err =>
          Returns ([], Some (Wrap err ("cannot get attributes of object "
                                         ++ Quote (Name obj))%string))
      | inr (size, modified) =>
          match sliceFrom (String.length (Prefix s)) (Name obj) with
          | Returns id =>
              let bm := {| BlobID := id; Length := size; Timestamp := modified |} in
              match callback bm with
              | Some err => Returns ([bm], Some err)
              | None =>
                  match listLoop s callback rest final with
                  | Returns (bms, e) => Returns (bm :: bms, e)
                  | Panics => Panics
                  | NoFuel => NoFuel
                  end
              end
          | Panics => Panics
          | NoFuel => NoFuel
          end
      end
  end.

Definition ListBlobs (s : Options) (bucket : list b2Object) (final : option error)
    (prefix : string) (callback : Metadata -> option error)
    : outcome (list Metadata * option error) :=
  listLoop s callback (ListPrefix (getObjectNameString s prefix) bucket) final.

End Listing.

Section Reading.

(** [b2.IsNotExist] and [blob.ErrBlobNotFound]. *)
Variable IsNotExist : error -> bool.
Variable ErrBlobNotFound : error.

Definition translateError (err : error) : error :=
  if IsNotExist err then ErrBlobNotFound else err.

(** What [ioutil.ReadAll] gets from the reader of an object: of the whole
    object ([None]), or of the range with an offset and a length. *)
Variable download : string -> option (Z * Z) -> error + list byte.

(** The error of [downloadThrottler.AddReader], if any. *)
Variable addReader : option error.

(** The [%v] verb on an integer. *)
Definition decimalZ (z : Z) : string := NilZero.string_of_int (Z.to_int z).

(** [GetBlob], on a platform whose [int] has 64 bits. *)
Definition GetBlob (s : Options) (id : string) (offset length : Z)
    : error + list byte :=
  let range := if 0 <? length then Some (offset, length) else None in
  match addReader with
  | Some err => inl err
  | None =>
      match download (getObjectNameString s id) range with
      | inl err => inl (translateError err)
      | inr b =>
          if negb (len b =? length) && (0 <? length)
          then inl (New ("invalid length, got "
                           ++ decimalZ (Z.of_nat (String.length id))
                           ++ " bytes, but expected " ++ decimalZ length)%string)
          else if length =? 0 then inr [] else inr b
      end
  end.

End Reading.

End B2Storage.

(** ** The credential check of the server command (package [cli]) *)
Module Server.

Definition newline : string := String (ascii_of_nat 10) "".

(** [strings.TrimPrefix] *)
Definition TrimPrefix (s p : string) : string :=
  if String.prefix p s
  then substring (String.length p) (String.length s - String.length p) s
  else s.

Definition stripProtocol (addr : string) : string :=
  TrimPrefix (TrimPrefix addr "https://") "http://".

Definition isKnownUIRoute (path : string) : bool :=
  String.prefix "/snapshots/" path
  || String.prefix "/policies" path
  || String.prefix "/repo" path.

(** A request, as far as the handlers read it: the path of its URL and what
    [BasicAuth] finds in its headers. *)
Record Request : Type := {
  Path : string;
  BasicAuth : option (string * string)
}.

(** What a handler does with the response writer: the [WWW-Authenticate]
    header and the [http.Error] of a refusal, or whatever the wrapped handler
    does with the request it is given. *)
Inductive Response (R : Type) : Type :=
| Refused (authenticate : string) (message : string) (code : Z)
| Served (r : R).

Arguments Refused {R} authenticate message code.
Arguments Served {R} r.

Definition StatusUnauthorized : Z := 401.

Definition challenge : string := ("Basic realm=" ++ quote ++ "Kopia" ++ quote)%string.

(** [subtle.ConstantTimeCompare]: 1 when the two slices are equal, else 0. *)
Definition ConstantTimeCompare (x y : string) : Z :=
  if String.eqb x y then 1 else 0.

(** The handlers of the command: the handler they wrap, [requireAuth] and
    the handler that [serveIndexFileForKnownUIRoutes] returns. *)
Inductive Handler : Type :=
| inner_handler
| requireAuth (inner : Handler) (expectedUsername expectedPassword : string)
| serveIndexFileForKnownUIRoutes (h : Handler).

Section Serving.

Context {R : Type}.

(** The wrapped handler. *)
Variable base : Request -> R.

Fixpoint ServeHTTP (a : Handler) (r : Request) : Response R :=
  match a with
  | inner_handler => Served (base r)
  | requireAuth inner expectedUsername expectedPassword =>
      match BasicAuth r with
      | None =>
          Refused challenge ("Missing credentials." ++ newline) StatusUnauthorized
      | Some (user, pass) =>
          let valid := ConstantTimeCompare user expectedUsername
                       * ConstantTimeCompare pass expectedPassword in
          if negb (valid =? 1)
          then Refused challenge ("Access denied." ++ newline) StatusUnauthorized
          else ServeHTTP inner r
      end
  | serveIndexFileForKnownUIRoutes h =>
      if isKnownUIRoute (Path r)
      then ServeHTTP h {| Path := "/"; BasicAuth := BasicAuth r |}
      else ServeHTTP h r
  end.

End Serving.

(** [hex.EncodeToString] *)
Definition hexDigit (n : N) : ascii :=
  match n with
  | 0%N => "0" | 1%N => "1" | 2%N => "2" | 3%N => "3" | 4%N => "4"
  | 5%N => "5" | 6%N => "6" | 7%N => "7" | 8%N => "8" | 9%N => "9"
  | 10%N => "a" | 11%N => "b" | 12%N => "c" | 13%N => "d" | 14%N => "e"
  | _ => "f"
  end%char.

Fixpoint EncodeToString (b : list byte) : string :=
  match b with
  | [] => ""
  | x :: rest =>
      String (hexDigit (N.shiftr (Byte.to_N x) 4))
        (String (hexDigit (N.land (Byte.to_N x) 15)) (EncodeToString rest))
  end.

(** The flags [requireCredentials] reads. *)
Record Flags : Type := {
  serverUsername : string;
  serverPassword : string;
  serverStartRandomPassword : bool
}.

(** [http.ServeMux], as far as the command builds one: the handlers
    registered with [Handle], by pattern, in the order of registration.  How
    a mux dispatches a request among its patterns, and what it answers by
    itself (a redirect for a path that is not clean), is the business of
    net/http and is not modelled. *)
Definition ServeMux : Type := list (string * Handler).

Definition NewServeMux : ServeMux := [].

Definition Handle (mux : ServeMux) (pattern : string) (handler : Handler) : ServeMux :=
  mux ++ [(pattern, handler)].

(** [requireCredentials]: the new mux it returns, and the lines it prints to
    the standard error.  [b] is the 32 bytes after [io.ReadFull] from
    [rand.Reader], whose error is ignored. *)
Definition requireCredentials (f : Flags) (b : list byte) (handler : Handler)
    : ServeMux * list string :=
  let handler :=
    if negb (String.eqb (serverPassword f) "")
    then requireAuth handler (serverUsername f) (serverPassword f)
    else handler in
  let '(handler, printed) :=
    if serverStartRandomPassword f
    then
      let randomPassword := EncodeToString b in
      (requireAuth handler (serverUsername f) randomPassword,
       [("SERVER PASSWORD: " ++ randomPassword)%string])
    else (handler, []) in
  let mux := NewServeMux in
  (Handle mux "/" handler, printed).

(** The credentials that [requireCredentials] asks of a request. *)
Definition authorized (f : Flags) (b : list byte) (r : Request) : Prop :=
  (serverPassword f = "" \/
   BasicAuth r = Some (serverUsername f, serverPassword f)) /\
  (serverStartRandomPassword f = false \/
   BasicAuth r = Some (serverUsername f, EncodeToString b)).

End Server.

(** ** Logging of the main program (main.go) *)
Module Logging.

Definition logFileNamePrefix : string := "kopia-".
Definition logFileNameSuffix : string := ".log".

(** [strings.HasSuffix] *)
Definition HasSuffix (s suffix : string) : bool :=
  (String.length suffix <=? String.length s)%nat
  && String.eqb (substring (String.length s - String.length suffix)
                           (String.length suffix) s) suffix.

(** [os.FileInfo], as far as the sweep reads it; times are in nanoseconds
    since the zero [time.Time]. *)
Record FileInfo : Type := {
  Name : string;
  ModTime : Z
}.

Definition MaxInt32 : Z := 2147483647.

(** The loop of [sweepLogDir] over the sorted entries: the entries whose
    files it removes, in order. *)
Fixpoint sweepLoop (maxCount timeCutoff cnt : Z) (entries : list FileInfo)
    : list FileInfo :=
  match entries with
  | [] => []
  | e :: rest =>
      if negb (String.prefix logFileNamePrefix (Name e))
      then sweepLoop maxCount timeCutoff cnt rest
      else if negb (HasSuffix (Name e) logFileNameSuffix)
      then sweepLoop maxCount timeCutoff cnt rest
      else
        let cnt := cnt + 1 in
        if (maxCount <? cnt) || (ModTime e <? timeCutoff)
        then e :: sweepLoop maxCount timeCutoff cnt rest
        else sweepLoop maxCount timeCutoff cnt rest
  end.

(** [sweepLogDir]: [now] is the reading of [time.Now()], [readDir] the
    result of [ioutil.ReadDir] and [sortSlice] what [sort.Slice] makes of the
    entries. *)
Definition sweepLogDir (sortSlice : list FileInfo -> list FileInfo) (now : Z)
    (readDir : error + list FileInfo) (maxCount maxAge : Z) : list FileInfo :=
  let timeCutoff := if 0 <? maxAge then now - maxAge else 0 in
  let maxCount := if maxCount =? 0 then MaxInt32 else maxCount in
  match readDir with
  | inl _ => []
  | inr entries => sweepLoop maxCount timeCutoff 0 (sortSlice entries)
  end.

(** What [sort.Slice] guarantees with the comparison of the sweep: the
    entries are permuted, and none is followed by a newer one. *)
Definition newestFirst (l : list FileInfo) : Prop :=
  StronglySorted (fun a b => ModTime b <= ModTime a) l.

Definition sorts (sortSlice : list FileInfo -> list FileInfo) : Prop :=
  forall l, Permutation (sortSlice l) l /\ newestFirst (sortSlice l).

(** The entries the sweep looks at. *)
Definition isLogFile (e : FileInfo) : bool :=
  String.prefix logFileNamePrefix (Name e) && HasSuffix (Name e) logFileNameSuffix.

(** The log files the sweep leaves in place: the newest
    [maxCount] of them, as far as they are no older than the cut-off. *)
Definition survivors (maxCount timeCutoff : Z) (logs : list FileInfo) : nat :=
  Z.to_nat (Z.min maxCount (len (filter (fun e => negb (ModTime e <? timeCutoff)) logs))).

(** A sorting function for the scenarios: insertion by modification time. *)
Fixpoint insertNewest (e : FileInfo) (l : list FileInfo) : list FileInfo :=
  match l with
  | [] => [e]
  | x :: l' => if ModTime x <? ModTime e then e :: l else x :: insertNewest e l'
  end.

Definition insertionSort (l : list FileInfo) : list FileInfo :=
  fold_right insertNewest [] l.

(** [onDemandBackend]: the backend is nil until the log file was created;
    [once] records that the [sync.Once] has run. *)
Record onDemandBackend : Type := {
  logDir : string;
  logFileBaseName : string;
  symlinkName : string;
  backend : option string;
  once : bool
}.

(** What [Log] does to the file system and to the backend. *)
Inductive effect : Type :=
| Create (path : string)
| Remove (path : string)
| Symlink (target link : string)
| BackendLog (file : string) (depth : Z) (rec : string).

(** [filepath.Join] of a directory and a base name that need no cleaning. *)
Definition Join (dir name : string) : string := (dir ++ "/" ++ name)%string.

(** [Log]; [createFails] tells whether [os.Create] fails at the time of this
    call, and [backendLog] is the result of the backend for the record. *)
Definition Log (w : onDemandBackend) (createFails : bool) (backendLog : option error)
    (depth : Z) (rec : string) : option error * onDemandBackend * list effect :=
  let '(w, effects) :=
    if once w then (w, [])
    else
      let lf := Join (logDir w) (logFileBaseName w) in
      if createFails
      then ({| logDir := logDir w; logFileBaseName := logFileBaseName w;
               symlinkName := symlinkName w; backend := backend w; once := true |},
            [Create lf])
      else
        ({| logDir := logDir w; logFileBaseName := logFileBaseName w;
            symlinkName := symlinkName w; backend := Some lf; once := true |},
         Create lf ::
         (if String.eqb (symlinkName w) "" then []
          else [Remove (Join (logDir w) (symlinkName w));
                Symlink (logFileBaseName w) (Join (logDir w) (symlinkName w))])) in
  match backend w with
  | None => (Some (New "no backend"), w, effects)
  | Some file => (backendLog, w, effects ++ [BackendLog file (depth + 1) rec])
  end.

(** A sequence of [Log] calls, each with the state of the file system and of
    the backend at its time. *)
Fixpoint logAll (w : onDemandBackend) (records : list (bool * option error * Z * string))
    : list (option error) * onDemandBackend * list effect :=
  match records with
  | [] => ([], w, [])
  | (createFails, backendLog, depth, rec) :: rest =>
      let '(r, w1, effects1) := Log w createFails backendLog depth rec in
      let '(rs, w2, effects2) := logAll w1 rest in
      (r :: rs, w2, effects1 ++ effects2)
  end.

(** The number of [os.Create] calls among the effects. *)
Definition creations (effects : list effect) : nat :=
  List.length (filter (fun x => match x with Create _ => true | _ => false end) effects).

End Logging.

(** * Properties of the writer *)

Section Properties.

Context {S CM : Type} {splitterOps : Splitter S} {contentOps : ContentManager CM}.
Variable jsonEncode : indirectObject -> error + list byte.

Local Abbreviation Manager := (Manager S CM).
Local Abbreviation objectWriter := (objectWriter S).

(** ** Vocabulary of the properties *)

(** The manager after more calls were made. *)
Definition logged (om : Manager) (cs : list call) : Manager :=
  {| contentMgr := contentMgr om; newSplitter := newSplitter om;
     calls := calls om ++ cs |}.

(** The entry a flush appends before it stores anything. *)
Definition placeholder (w : objectWriter) : indirectObjectEntry :=
  {| Start := currentPosition w; Length := len (buffer w); Object := "" |}.

(** The writer once the placeholder is appended and the cursor advanced. *)
Definition opened (w : objectWriter) : objectWriter :=
  withCurrentPosition
    (withIndirectIndex w (indirectIndex w ++ [placeholder w]))
    (wrap64 (currentPosition w + len (buffer w))).

(** The payload choice of [maybeCompressedContentBytes] on an empty output
    buffer, without the bookkeeping. *)
Definition prepared (comp : option Compressor) (input : list byte)
    : (list byte * bool) + error :=
  match comp with
  | Some c =>
      match c input with
      | inl e => inr (Wrap e "compression error")
      | inr out =>
          if len out <? len input then inl (out, true) else inl (input, false)
      end
  | None => inl (input, false)
  end.

(** The compressor runs only when one is configured. *)
Definition compressCalls (comp : option Compressor) (input : list byte)
    : list call :=
  match comp with
  | Some _ => [CallCompress input]
  | None => []
  end.

(** The identifier a successful flush assigns to its entry. *)
Definition chunkObject (isCompressed : bool) (cid : contentID) : ID :=
  if isCompressed then Compressed (DirectObjectID cid) else DirectObjectID cid.

(** The [errors.Wrapf] of a refused chunk. *)
Definition flushError (w : objectWriter) (e : error) : error :=
  Wrap e ("error when flushing chunk " ++ decimal (List.length (indirectIndex w))
            ++ " of " ++ description w)%string.

(** The fields that neither a flush nor the loop of [Write] assigns. *)
Definition sameConfig (w w' : objectWriter) : Prop :=
  compressor w' = compressor w /\ prefix w' = prefix w /\ buf w' = buf w /\
  description w' = description w /\ totalLength w' = totalLength w.

(** One step of the loop of [Write]. *)
Definition appended (w : objectWriter) (d : byte) (s' : S) : objectWriter :=
  withSplitter (withBuffer w (buffer w ++ [d])) (Some s').

(** The flush protocol as the specification words it: the compression-output
    buffer comes from the pool at the splitter's [MaxSegmentSize]. *)
Definition allocatesMaxSegment : Prop :=
  forall (w : objectWriter) (om : Manager) (s : S) err w' om',
    splitter w = Some s ->
    flushBuffer w om = Returns (err, w', om') ->
    exists cs, calls om' = calls om ++ cs /\
               In (CallAllocate (MaxSegmentSize s)) cs.

(** The part of [Result] that runs under [defer iw.Close()]: the index
    document is encoded into the nested writer, whose own result is then
    taken by [rec]. *)
Definition nestedBody (rec : objectWriter -> M (ID * option error * objectWriter))
    (w iw : objectWriter) : M (ID * option error * objectWriter) :=
  bind (Encode jsonEncode iw
          {| StreamID := "kopia:indirect"; Entries := indirectIndex w |})
    (fun '(err, iw) =>
       match err with
       | Some e => ret ("", Some (Wrap e "unable to write indirect object index"), iw)
       | None =>
           bind (rec iw) (fun '(oid, err, iw) =>
             match err with
             | Some e => ret ("", Some e, iw)
             | None => ret (IndirectObjectID oid, None, iw)
             end)
       end).

(** The statements of [Result] after the single-entry return. *)
Definition resultIndirect (rec : objectWriter -> M (ID * option error * objectWriter))
    (w : objectWriter) : M (ID * option error * objectWriter) :=
  bind callNewSplitter (fun s =>
  bind (initBuffer (indexWriter w s)) (fun iw =>
  bind (nestedBody rec w iw) (fun '(r, iw) =>
  bind (Close iw) (fun _ => ret (r, w))))).

(** The entries tile the object from [pos] on. *)
Fixpoint chained (pos : Z) (l : list indirectObjectEntry) : Prop :=
  match l with
  | [] => True
  | e :: l' => Start e = pos /\ chained (pos + Length e) l'
  end.

(** The bytes the entries cover. *)
Fixpoint sumLengths (l : list indirectObjectEntry) : Z :=
  match l with
  | [] => 0
  | e :: l' => Length e + sumLengths l'
  end.

(** The invariant of a writer that accepted [n] bytes: the entries tile
    [0, currentPosition), and the rest of the bytes is in the buffer. *)
Definition positioned (n : Z) (w : objectWriter) : Prop :=
  chained 0 (indirectIndex w) /\
  currentPosition w = sumLengths (indirectIndex w) /\
  sumLengths (indirectIndex w) + len (buffer w) = n.

(** Idempotence of [Close] as the specification states it: a second call
    leaves the writer, its buffer handle and its splitter as the first call
    left them. *)
Definition closeIdempotent : Prop :=
  forall (w : objectWriter) (om : Manager) e1 w1 om1 e2 w2 om2,
    Close w om = Returns (e1, w1, om1) ->
    Close w1 om1 = Returns (e2, w2, om2) ->
    w2 = w1.

(** The calls of one [Close]: the release reaches the pool only for a live
    buffer, the splitter is closed whenever there is one. *)
Definition releaseCalls (b : Buf) : list call :=
  match Data b with
  | Some n => [CallRelease n]
  | None => []
  end.

Definition splitterCloseCalls (s : option S) : list call :=
  match s with
  | Some _ => [CallSplitterClose]
  | None => []
  end.

(** Poisoning as the specification states it: once a [Write] has failed,
    every later [Write] and [Result] on the writer fails with the same kind
    of error. *)
Definition poisonedAfterError : Prop :=
  forall (w : objectWriter) (om : Manager) data n e w1 om1,
    Write w data om = Returns (n, Some e, w1, om1) ->
    (forall data' n' err' w2 om2,
       Write w1 data' om1 = Returns (n', err', w2, om2) ->
       exists e', err' = Some e' /\ Cause e' = Cause e) /\
    (forall fuel oid err' w2 om2,
       Result jsonEncode fuel w1 om1 = Returns (oid, err', w2, om2) ->
       exists e', err' = Some e' /\ Cause e' = Cause e).

(** A content manager all of whose states in [P] accept every payload. *)
Definition accepting (P : CM -> Prop) : Prop :=
  forall m payload pfx,
    P m ->
    P (fst (WriteContent m payload pfx)) /\
    exists cid, snd (WriteContent m payload pfx) = inr cid.

(** Content identifiers issued under the prefix [pfx] never begin with the
    sigil of the indirect variant. *)
Definition plainContentIDs (pfx : contentID) : Prop :=
  forall m payload cid,
    snd (WriteContent m payload pfx) = inr cid -> isIndirectb cid = false.

(** No entry of the index carries an identifier of the indirect variant. *)
Definition directEntries (w : objectWriter) : Prop :=
  Forall (fun e => isIndirectb (Object e) = false) (indirectIndex w).

(** The nested writer of [Result] once the index document has been encoded
    into it. *)
Definition encodedIndexWriter (w : objectWriter) : M (option error * objectWriter) :=
  bind callNewSplitter (fun s =>
  bind (initBuffer (indexWriter w s)) (fun iw =>
  Encode jsonEncode iw
    {| StreamID := "kopia:indirect"; Entries := indirectIndex w |})).

(** The manager after the deferred [Close] of a nested writer. *)
Definition closedManager (iw : objectWriter) (om : Manager) : Manager :=
  logged om (releaseCalls (buf iw) ++ splitterCloseCalls (splitter iw)).

(** What a writer without compressor and with the prefix [pfx] may call:
    no compressor, the content manager under [pfx] only, and the encoder on
    documents that carry the stream sentinel. *)
Definition nestedCall (pfx : contentID) (c : call) : Prop :=
  match c with
  | CallCompress _ => False
  | CallWriteContent _ p => p = pfx
  | CallJSONEncode ind => StreamID ind = "kopia:indirect"
  | _ => True
  end.

(** [om'] is [om] after more calls, all of them of that kind. *)
Definition extends (pfx : contentID) (om om' : Manager) : Prop :=
  exists cs, calls om' = calls om ++ cs /\ Forall (nestedCall pfx) cs.

(** [totalLength] is only ever written: no method reads it to decide
    anything, so a run does not depend on it. *)
Definition relabel {A : Type} (t : Z) (o : outcome (A * objectWriter * Manager))
    : outcome (A * objectWriter * Manager) :=
  match o with
  | Returns (a, w, om) => Returns (a, withTotalLength w t, om)
  | Panics => Panics
  | NoFuel => NoFuel
  end.

(** A writer with its length counter forgotten. *)
Definition normalize (w : objectWriter) : objectWriter := withTotalLength w 0.

(** [written stream w om]: the writer [w] and the manager [om] are what some
    sequence of [Write] calls, failed ones included, left of a new writer;
    [stream] is the bytes those calls were given, in order.  The manager is
    shared, and may have recorded other calls in between. *)
Inductive written : list byte -> objectWriter -> Manager -> Prop :=
| written_new : forall comp desc pfx om0 w om,
    newWriter comp desc pfx om0 = Returns (w, om) ->
    written [] w om
| written_Write : forall stream w om data n err w' om',
    written stream w om ->
    Write w data om = Returns (n, err, w', om') ->
    written (stream ++ data) w' om'
| written_calls : forall stream w om cs,
    written stream w om ->
    written stream w (logged om cs).

(** A compressor, when one is configured, that never fails. *)
Definition reliable (comp : option Compressor) : Prop :=
  forall c input, comp = Some c -> exists out, c input = inr out.

(** The content manager deduplicates: whatever its state, a payload stored
    under a prefix gets the same identifier. *)
Definition deduplicating : Prop :=
  forall (m1 m2 : CM) payload pfx c1 c2,
    snd (WriteContent m1 payload pfx) = inr c1 ->
    snd (WriteContent m2 payload pfx) = inr c2 ->
    c1 = c2.

(** The payloads a run of calls handed to the content manager, in order. *)
Fixpoint storedPayloads (cs : list call) : list (list byte) :=
  match cs with
  | [] => []
  | CallWriteContent payload _ :: cs' => payload :: storedPayloads cs'
  | _ :: cs' => storedPayloads cs'
  end.

(** The inputs a run of calls handed to the compressor, in order. *)
Fixpoint compressedInputs (cs : list call) : list (list byte) :=
  match cs with
  | [] => []
  | CallCompress input :: cs' => input :: compressedInputs cs'
  | _ :: cs' => compressedInputs cs'
  end.

(** The chunks a writer cut, as its collaborators saw them: the compressor
    gets every chunk when one is configured, the content manager otherwise. *)
Definition chunkInputs (comp : option Compressor) (cs : list call)
    : list (list byte) :=
  match comp with
  | Some _ => compressedInputs cs
  | None => storedPayloads cs
  end.

(** Buffers of size [n] taken from the pool by a run of calls, less the
    buffers of that size given back. *)
Fixpoint held (n : Z) (cs : list call) : Z :=
  match cs with
  | [] => 0
  | CallAllocate m :: cs' => (if m =? n then 1 else 0) + held n cs'
  | CallRelease m :: cs' => held n cs' - (if m =? n then 1 else 0)
  | _ :: cs' => held n cs'
  end.

(** The splitter after it was asked about each of the bytes, in order. *)
Definition consulted (s : S) (data : list byte) : S :=
  fold_left (fun s d => snd (ShouldSplit s d)) data s.

(** The calls between two managers give back every buffer they take. *)
Definition balanced (om om' : Manager) : Prop :=
  exists cs, calls om' = calls om ++ cs /\ forall n, held n cs = 0.

(** The splitter, asked about the bytes of [doc] in order, does not cut
    before the last of them: the bytes make a single chunk. *)
Fixpoint uncut (s : S) (doc : list byte) : bool :=
  match doc with
  | [] => true
  | d :: rest =>
      match rest with
      | [] => true
      | _ :: _ => negb (fst (ShouldSplit s d)) && uncut (snd (ShouldSplit s d)) rest
      end
  end.

(** The writer once the bytes of [doc] went into its buffer, the splitter
    [s] having been asked about each of them. *)
Definition filled (w : objectWriter) (s : S) (doc : list byte) : objectWriter :=
  withSplitter (withBuffer w (buffer w ++ doc)) (Some (consulted s doc)).

(** The index document that [Result] hands to the encoder. *)
Definition indexDocument (w : objectWriter) : indirectObject :=
  {| StreamID := "kopia:indirect"; Entries := indirectIndex w |}.


(** ** What one flush does, in closed form *)

Lemma setEntry_last (l : list indirectObjectEntry) (e : indirectObjectEntry) f :
  setEntry (List.length l) f (l ++ [e]) = Some (l ++ [f e]).
Proof.
  induction l as [|x l IH]; simpl; [reflexivity|].
  rewrite IH. reflexivity.
Qed.

Lemma flushBuffer_eq (w : objectWriter) (om : Manager) :
  flushBuffer w om =
  let n := len (buffer w) in
  match prepared (compressor w) (buffer w) with
  | inr e =>
      Returns (Some (Wrap e "unable to prepare content bytes"), opened w,
               logged om ([CallAllocate n] ++ compressCalls (compressor w) (buffer w)
                            ++ [CallRelease n]))
  | inl (data, isCompressed) =>
      let om' :=
        {| contentMgr := fst (WriteContent (contentMgr om) data (prefix w));
           newSplitter := newSplitter om;
           calls := calls om ++ [CallAllocate n]
                      ++ compressCalls (compressor w) (buffer w)
                      ++ [CallWriteContent data (prefix w); CallRelease n] |} in
      match snd (WriteContent (contentMgr om) data (prefix w)) with
      | inl e => Returns (Some (flushError w e), withBuffer (opened w) [], om')
      | inr cid =>
          Returns (None,
                   withIndirectIndex (withBuffer (opened w) [])
                     (indirectIndex w
                        ++ [setObject (chunkObject isCompressed cid) (placeholder w)]),
                   om')
      end
  end.
Proof.
  unfold flushBuffer, assignEntry, bind; simpl.
  rewrite setEntry_last; simpl.
  rewrite setEntry_last; simpl.
  unfold prepared, maybeCompressedContentBytes, compressCalls, logged.
  destruct (compressor w) as [c|]; simpl.
  - unfold bind; simpl.
    destruct (c (buffer w)) as [e|out]; simpl.
    + unfold opened, placeholder, setLength, setStart; simpl.
      rewrite <- !app_assoc. reflexivity.
    + destruct (len out <? len (buffer w)); simpl;
        unfold callWriteContent; simpl;
        destruct (WriteContent _ _ _) as [cm' [e|cid]]; simpl;
        rewrite ?setEntry_last; simpl;
        unfold opened, placeholder, setLength, setStart, setObject, flushError; simpl;
        rewrite <- !app_assoc; reflexivity.
  - unfold callWriteContent; simpl.
    destruct (WriteContent _ _ _) as [cm' [e|cid]]; simpl;
      rewrite ?setEntry_last; simpl;
      unfold opened, placeholder, setLength, setStart, setObject, flushError; simpl;
      rewrite <- !app_assoc; reflexivity.
Qed.

Lemma sameConfig_trans w1 w2 w3 :
  sameConfig w1 w2 -> sameConfig w2 w3 -> sameConfig w1 w3.
Proof.
  unfold sameConfig. intros (a & b & c & d & e) (a' & b' & c' & d' & e').
  repeat split; congruence.
Qed.

Ltac flush_cases w om :=
  rewrite (flushBuffer_eq w om); cbv zeta;
  let data := fresh "data" in
  let isC := fresh "isC" in
  let e := fresh "e" in
  let cid := fresh "cid" in
  let cm' := fresh "cm'" in
  let Ep := fresh "Eprep" in
  let Ew := fresh "Ewc" in
  destruct (prepared (compressor w) (buffer w)) as [[data isC]|e] eqn:Ep;
  [ destruct (WriteContent (contentMgr om) data (prefix w)) as [cm' [e|cid]] eqn:Ew;
    cbn [fst snd]
  | ].

(** [flushBuffer] always returns, touches neither the configuration of the
    writer nor the splitter factory, and appends one entry. *)
Lemma flushBuffer_total (w : objectWriter) (om : Manager) :
  exists err w' om' o,
    flushBuffer w om = Returns (err, w', om') /\
    sameConfig w w' /\ splitter w' = splitter w /\
    newSplitter om' = newSplitter om /\
    currentPosition w' = wrap64 (currentPosition w + len (buffer w)) /\
    indirectIndex w' = indirectIndex w ++ [setObject o (placeholder w)] /\
    (err = None -> buffer w' = []).
Proof.
  flush_cases w om.
  - eexists _, _, _, ""; split; [reflexivity|].
    repeat split; try discriminate.
  - eexists _, _, _, _; split; [reflexivity|].
    repeat split.
  - eexists _, _, _, ""; split; [reflexivity|].
    repeat split; try discriminate.
Qed.

Lemma writeLoop_cons (w : objectWriter) (d : byte) (rest : list byte) (om : Manager) :
  writeLoop w (d :: rest) om =
  match splitter w with
  | None => Panics
  | Some s =>
      let w1 := appended w d (snd (ShouldSplit s d)) in
      if fst (ShouldSplit s d)
      then
        match flushBuffer w1 om with
        | Returns (Some e, w2, om2) => Returns (Some e, w2, om2)
        | Returns (None, w2, om2) => writeLoop w2 rest om2
        | Panics => Panics
        | NoFuel => NoFuel
        end
      else writeLoop w1 rest om
  end.
Proof.
  simpl. destruct (splitter w) as [s|]; [|reflexivity].
  destruct (ShouldSplit s d) as [[|] s']; simpl; [|reflexivity].
  unfold bind. destruct (flushBuffer _ om) as [[[[e|] w2] om2]| |]; reflexivity.
Qed.

Lemma writeLoop_total (data : list byte) :
  forall (w : objectWriter) (om : Manager),
    splitter w <> None ->
    exists err w' om',
      writeLoop w data om = Returns (err, w', om') /\
      sameConfig w w' /\ splitter w' <> None /\
      newSplitter om' = newSplitter om.
Proof.
  induction data as [|d rest IH]; intros w om Hs.
  - exists None, w, om. repeat split; auto.
  - rewrite writeLoop_cons.
    destruct (splitter w) as [s|] eqn:Es; [|congruence].
    cbv zeta. set (w1 := appended w d (snd (ShouldSplit s d))).
    assert (C1 : sameConfig w w1) by (repeat split).
    assert (S1 : splitter w1 <> None) by (simpl; discriminate).
    destruct (fst (ShouldSplit s d)).
    + destruct (flushBuffer_total w1 om)
        as (err & w2 & om2 & o & E & C2 & S2 & N2 & _).
      rewrite E. destruct err as [e|].
      * exists (Some e), w2, om2. split; [reflexivity|].
        split; [exact (sameConfig_trans _ _ _ C1 C2)|]. split; [congruence|exact N2].
      * destruct (IH w2 om2) as (err & w3 & om3 & E3 & C3 & S3 & N3); [congruence|].
        exists err, w3, om3. split; [exact E3|].
        split; [exact (sameConfig_trans _ _ _ C1 (sameConfig_trans _ _ _ C2 C3))|].
        split; [exact S3|congruence].
    + destruct (IH w1 om S1) as (err & w3 & om3 & E3 & C3 & S3 & N3).
      exists err, w3, om3. split; [exact E3|].
      split; [exact (sameConfig_trans _ _ _ C1 C3)|]. split; assumption.
Qed.

(** ** The compression-output buffer of a flush *)

Lemma flushBuffer_allocation (w : objectWriter) (om : Manager) :
  exists err w' om' cs,
    flushBuffer w om = Returns (err, w', om') /\
    calls om' = calls om ++ CallAllocate (len (buffer w)) :: cs /\
    (forall n, ~ In (CallAllocate n) cs) /\
    In (CallRelease (len (buffer w))) cs.
Proof.
  flush_cases w om.
  - eexists _, _, _, _. split; [reflexivity|]. cbn [calls].
    split; [reflexivity|]. unfold compressCalls.
    destruct (compressor w); cbn; split;
      try (intros n [X|[X|[X|[]]]]; discriminate);
      try (intros n [X|[X|[]]]; discriminate); tauto.
  - eexists _, _, _, _. split; [reflexivity|]. cbn [calls].
    split; [reflexivity|]. unfold compressCalls.
    destruct (compressor w); cbn; split;
      try (intros n [X|[X|[X|[]]]]; discriminate);
      try (intros n [X|[X|[]]]; discriminate); tauto.
  - eexists _, _, _, _. split; [reflexivity|]. cbn [calls logged].
    split; [reflexivity|]. unfold compressCalls.
    destruct (compressor w); cbn; split;
      try (intros n [X|[X|[]]]; discriminate);
      try (intros n [X|[]]; discriminate); tauto.
Qed.

(** C5 (as the code has it): every flush allocates exactly one buffer from
    the pool, of the size of the accumulation buffer at that moment
    ([length := w.buffer.Len()], [Allocate(length)]), and releases it before it
    returns.  The flush allocates at the [MaxSegmentSize] of the splitter only
    when the chunk has exactly that length. *)
Theorem flushBuffer_allocates_buffer_length (w : objectWriter) (om : Manager) :
  exists err w' om' cs,
    flushBuffer w om = Returns (err, w', om') /\
    calls om' = calls om ++ CallAllocate (len (buffer w)) :: cs /\
    (forall n, ~ In (CallAllocate n) cs) /\
    In (CallRelease (len (buffer w))) cs /\
    (forall s, splitter w = Some s ->
       (In (CallAllocate (MaxSegmentSize s)) (CallAllocate (len (buffer w)) :: cs)
        <-> len (buffer w) = MaxSegmentSize s)).
Proof.
  destruct (flushBuffer_allocation w om) as (err & w' & om' & cs & E & Hc & Hno & Hrel).
  exists err, w', om', cs. split; [exact E|]. split; [exact Hc|].
  split; [exact Hno|]. split; [exact Hrel|].
  intros s _. split.
  - intros [[= X]|X]; [exact X|]. destruct (Hno _ X).
  - intros ->. left. reflexivity.
Qed.

(** ** Shrink-or-skip *)

Lemma Compressed_neq (o : ID) : Compressed o <> o.
Proof.
  unfold Compressed. intro E.
  apply (f_equal String.length) in E. simpl in E. lia.
Qed.

(** C4: with a compressor configured, a flush stores the compressor's output
    and wraps the identifier as [Compressed (DirectObjectID cid)] exactly when
    that output is strictly shorter than the chunk; when it is as long or
    longer, equality included, the chunk itself is stored and the identifier
    is [DirectObjectID cid]. *)
Theorem flushBuffer_shrink_or_skip (w : objectWriter) (om : Manager)
    (c : Compressor) (out : list byte) (cm' : CM) (cid : contentID) :
  compressor w = Some c ->
  c (buffer w) = inr out ->
  let input := buffer w in
  let stored := if len out <? len input then out else input in
  WriteContent (contentMgr om) stored (prefix w) = (cm', inr cid) ->
  maybeCompressedContentBytes (Some c) [] input om
    = Returns (stored, len out <? len input, None, logged om [CallCompress input]) /\
  exists w' om' oid,
    flushBuffer w om = Returns (None, w', om') /\
    calls om' = calls om ++ [CallAllocate (len input); CallCompress input;
                             CallWriteContent stored (prefix w);
                             CallRelease (len input)] /\
    contentMgr om' = cm' /\
    indirectIndex w' = indirectIndex w
                         ++ [{| Start := currentPosition w; Length := len input;
                                Object := oid |}] /\
    (len out < len input -> stored = out /\ oid = Compressed (DirectObjectID cid)) /\
    (len input <= len out -> stored = input /\ oid = DirectObjectID cid) /\
    (oid = Compressed (DirectObjectID cid) <-> len out < len input).
Proof.
  intros Hc Hout input stored Hwc. subst stored input. split.
  - unfold maybeCompressedContentBytes, bind, record; simpl.
    rewrite Hout. simpl.
    destruct (len out <? len (buffer w)); reflexivity.
  - rewrite flushBuffer_eq. cbv zeta. unfold prepared, compressCalls.
    rewrite Hc, Hout.
    destruct (len out <? len (buffer w)) eqn:Elt;
      rewrite Hwc; cbn [fst snd];
      eexists _, _, _; (split; [reflexivity|]); cbn [calls contentMgr indirectIndex];
      (split; [reflexivity|]); (split; [reflexivity|]);
      (split; [reflexivity|]); cbn [chunkObject].
    + apply Z.ltb_lt in Elt. repeat split; auto; lia.
    + apply Z.ltb_ge in Elt. repeat split; auto; try lia.
      intro E. symmetry in E. now apply Compressed_neq in E.
Qed.

(** ** A flush that the content manager refuses *)

Lemma needsFlush_false (w : objectWriter) :
  buffer w = [] -> indirectIndex w <> [] -> needsFlush w = false.
Proof.
  unfold needsFlush, len. intros -> Hi.
  destruct (indirectIndex w); [congruence|reflexivity].
Qed.

(** C10: when the content manager refuses the chunk, the flush still resets
    the accumulation buffer and leaves the placeholder entry with the
    zero-value identifier; if that entry is then the only one, [Result] does
    not flush again and returns the empty identifier with no error. *)
Theorem flushBuffer_failed_then_Result (w : objectWriter) (om : Manager)
    (data : list byte) (isCompressed : bool) (cm' : CM) (e : error) :
  prepared (compressor w) (buffer w) = inl (data, isCompressed) ->
  WriteContent (contentMgr om) data (prefix w) = (cm', inl e) ->
  exists w' om',
    flushBuffer w om = Returns (Some (flushError w e), w', om') /\
    buffer w' = [] /\
    indirectIndex w' = indirectIndex w
                         ++ [{| Start := currentPosition w;
                                Length := len (buffer w); Object := "" |}] /\
    (indirectIndex w = [] ->
     needsFlush w' = false /\
     forall fuel, Result jsonEncode (Datatypes.S fuel) w' om'
                  = Returns ("", None, w', om')).
Proof.
  intros Hp Hwc. rewrite flushBuffer_eq. cbv zeta. rewrite Hp, Hwc. cbn [fst snd].
  eexists _, _. split; [reflexivity|]. split; [reflexivity|].
  split; [reflexivity|]. intro Hnil.
  split.
  - apply needsFlush_false; simpl; [reflexivity|]. rewrite Hnil. discriminate.
  - intro fuel. simpl. unfold bind, finalFlush.
    rewrite needsFlush_false; simpl; [|reflexivity|rewrite Hnil; discriminate].
    rewrite Hnil. reflexivity.
Qed.

(** ** [Write]: the byte count and the length counter *)

Lemma writeLoop_nil (w : objectWriter) (om : Manager) :
  writeLoop w [] om = Returns (None, w, om).
Proof. reflexivity. Qed.

(** A failed loop stopped at a flush, after the bytes before it went in. *)
Lemma writeLoop_failure (data : list byte) :
  forall (w : objectWriter) (om : Manager) e w' om',
    writeLoop w data om = Returns (Some e, w', om') ->
    exists pre d post wp omp s1,
      data = pre ++ d :: post /\
      writeLoop w pre om = Returns (None, wp, omp) /\
      splitter wp = Some s1 /\
      fst (ShouldSplit s1 d) = true /\
      flushBuffer (appended wp d (snd (ShouldSplit s1 d))) omp
        = Returns (Some e, w', om').
Proof.
  induction data as [|d rest IH]; intros w om e w' om' E.
  - discriminate.
  - rewrite writeLoop_cons in E.
    destruct (splitter w) as [s|] eqn:Es; [|discriminate].
    cbv zeta in E.
    destruct (fst (ShouldSplit s d)) eqn:Esp.
    + destruct (flushBuffer _ om) as [[[[e1|] w2] om2]| |] eqn:Ef; try discriminate.
      * inversion E; subst.
        exists [], d, rest, w, om, s. repeat split; auto.
      * destruct (IH _ _ _ _ _ E) as (pre & d' & post & wp & omp & s1 & -> & Ep & Hs & Hsp & Hf).
        exists (d :: pre), d', post, wp, omp, s1.
        split; [reflexivity|]. split; [|auto].
        rewrite writeLoop_cons, Es. cbv zeta. rewrite Esp, Ef. exact Ep.
    + destruct (IH _ _ _ _ _ E) as (pre & d' & post & wp & omp & s1 & -> & Ep & Hs & Hsp & Hf).
      exists (d :: pre), d', post, wp, omp, s1.
      split; [reflexivity|]. split; [|auto].
      rewrite writeLoop_cons, Es. cbv zeta. rewrite Esp. exact Ep.
Qed.

Lemma Write_eq (w : objectWriter) (data : list byte) (om : Manager) :
  Write w data om =
  match writeLoop (withTotalLength w (wrap64 (totalLength w + len data))) data om with
  | Returns (Some e, w', om') => Returns (0, Some e, w', om')
  | Returns (None, w', om') => Returns (len data, None, w', om')
  | Panics => Panics
  | NoFuel => NoFuel
  end.
Proof.
  unfold Write, bind.
  destruct (writeLoop _ data om) as [[[[e|] w'] om']| |]; reflexivity.
Qed.

(** ** The shape of [Result] *)

Lemma Result_eq (fuel : nat) (w : objectWriter) (om : Manager) :
  Result jsonEncode (Datatypes.S fuel) w om =
  match finalFlush w om with
  | Returns (Some e, wf, omf) => Returns ("", Some e, wf, omf)
  | Returns (None, wf, omf) =>
      match indirectIndex wf with
      | [e] => Returns (Object e, None, wf, omf)
      | _ => resultIndirect (Result jsonEncode fuel) wf omf
      end
  | Panics => Panics
  | NoFuel => NoFuel
  end.
Proof.
  cbn [Result]. unfold bind at 1.
  destruct (finalFlush w om) as [[[[e|] wf] omf]| |]; try reflexivity.
  unfold resultIndirect, nestedBody, len.
  destruct (indirectIndex wf) as [|e [|e' l]].
  - reflexivity.
  - reflexivity.
  - replace (Z.of_nat (List.length (e :: e' :: l)) =? 1) with false
      by (symmetry; apply Z.eqb_neq; simpl List.length; lia).
    reflexivity.
Qed.

Lemma finalFlush_total (w : objectWriter) (om : Manager) :
  exists err wf omf,
    finalFlush w om = Returns (err, wf, omf) /\
    sameConfig w wf /\ splitter wf = splitter w /\
    newSplitter omf = newSplitter om /\
    indirectIndex wf <> [].
Proof.
  unfold finalFlush. destruct (needsFlush w) eqn:En.
  - destruct (flushBuffer_total w om) as (err & wf & omf & o & E & C & Sp & N & _ & I & _).
    exists err, wf, omf. repeat split; try apply C; auto.
    rewrite I. intro X. now apply app_eq_nil in X as [_ X].
  - exists None, w, om. repeat split.
    unfold needsFlush in En. apply orb_false_iff in En as [_ En].
    intro X. rewrite X in En. discriminate.
Qed.

(** The writer that [Result] returns is the one its first statement left. *)
Lemma Result_writer (fuel : nat) (w : objectWriter) (om : Manager) r w' om' :
  Result jsonEncode fuel w om = Returns (r, w', om') ->
  exists err omf, finalFlush w om = Returns (err, w', omf).
Proof.
  destruct fuel as [|fuel]; [discriminate|].
  rewrite Result_eq.
  destruct (finalFlush w om) as [[[[e|] wf] omf]| |]; try discriminate.
  - intros [= <- <- <-]. eauto.
  - assert (X : forall r w' om', resultIndirect (Result jsonEncode fuel) wf omf
                     = Returns (r, w', om') -> w' = wf).
    { clear. intros r w' om'. unfold resultIndirect, bind.
      destruct (callNewSplitter omf) as [[s om1]| |]; try discriminate.
      destruct (initBuffer _ om1) as [[iw om2]| |]; try discriminate.
      destruct (nestedBody _ wf iw om2) as [[[r1 iw1] om3]| |]; try discriminate.
      destruct (Close iw1 om3) as [[x om4]| |]; try discriminate.
      unfold ret. now intros [= _ <- _]. }
    destruct (indirectIndex wf) as [|e [|e' l]].
    + intro E. apply X in E. subst. eauto.
    + intros [= <- <- <-]. eauto.
    + intro E. apply X in E. subst. eauto.
Qed.

(** ** Offsets and lengths of the index entries *)

Lemma wrap64_small (z : Z) : - 2 ^ 63 <= z < 2 ^ 63 -> wrap64 z = z.
Proof.
  intro Hz. unfold wrap64.
  rewrite Z.mod_small; lia.
Qed.

Lemma sumLengths_app (l1 l2 : list indirectObjectEntry) :
  sumLengths (l1 ++ l2) = sumLengths l1 + sumLengths l2.
Proof. induction l1 as [|e l1 IH]; simpl; lia. Qed.

Lemma chained_app (l1 l2 : list indirectObjectEntry) :
  forall pos,
    chained pos (l1 ++ l2) <->
    chained pos l1 /\ chained (pos + sumLengths l1) l2.
Proof.
  induction l1 as [|e l1 IH]; intro pos; simpl.
  - rewrite Z.add_0_r. tauto.
  - rewrite IH, Z.add_assoc. tauto.
Qed.

Lemma chained_first (l : list indirectObjectEntry) (pos : Z) e :
  chained pos l -> nth_error l 0 = Some e -> Start e = pos.
Proof. destruct l; simpl; [discriminate|]. now intros [X _] [= <-]. Qed.

Lemma chained_consecutive (l : list indirectObjectEntry) :
  forall pos i e1 e2,
    chained pos l ->
    nth_error l i = Some e1 -> nth_error l (Datatypes.S i) = Some e2 ->
    Start e2 = Start e1 + Length e1.
Proof.
  induction l as [|e l IH]; intros pos i e1 e2 Hc H1 H2.
  - destruct i; discriminate.
  - destruct Hc as [Hs Hc]. destruct i as [|i].
    + simpl in H1. injection H1 as <-.
      change (nth_error l 0 = Some e2) in H2.
      rewrite (chained_first _ _ _ Hc H2). now rewrite Hs.
    + exact (IH _ i e1 e2 Hc H1 H2).
Qed.

Lemma len_nonneg {A : Type} (l : list A) : 0 <= len l.
Proof. unfold len. lia. Qed.

Lemma len_app {A : Type} (l1 l2 : list A) : len (l1 ++ l2) = len l1 + len l2.
Proof. unfold len. rewrite length_app. lia. Qed.

(** Any flush of a positioned writer leaves a tiling index that covers all
    [n] bytes; a successful one leaves a positioned writer. *)
Lemma flushBuffer_positioned (n : Z) (w : objectWriter) (om : Manager) err w' om' :
  positioned n w -> 0 <= sumLengths (indirectIndex w) -> n < 2 ^ 63 ->
  flushBuffer w om = Returns (err, w', om') ->
  chained 0 (indirectIndex w') /\ sumLengths (indirectIndex w') = n /\
  (err = None -> positioned n w').
Proof.
  intros (Hc & Hp & Hn) H0 Hlt E.
  destruct (flushBuffer_total w om) as (err1 & w1 & om1 & o & E1 & _ & _ & _ & Hcur & Hi & Hb).
  rewrite E in E1. injection E1 as <- <- <-.
  pose proof (len_nonneg (buffer w)) as Hl.
  assert (Hs : sumLengths (indirectIndex w') = n).
  { rewrite Hi, sumLengths_app. simpl. lia. }
  assert (Hch : chained 0 (indirectIndex w')).
  { rewrite Hi. apply chained_app. split; [exact Hc|]. simpl. split; [lia|exact I]. }
  split; [exact Hch|]. split; [exact Hs|].
  intro Hok. split; [exact Hch|]. rewrite (Hb Hok), Hs. split.
  - rewrite Hcur, Hp, wrap64_small; lia.
  - unfold len; simpl. lia.
Qed.

Lemma flushBuffer_sum_nonneg (w : objectWriter) (om : Manager) err w' om' :
  0 <= sumLengths (indirectIndex w) ->
  flushBuffer w om = Returns (err, w', om') ->
  0 <= sumLengths (indirectIndex w').
Proof.
  intros H0 E.
  destruct (flushBuffer_total w om) as (err1 & w1 & om1 & o & E1 & _ & _ & _ & _ & Hi & _).
  rewrite E in E1. injection E1 as <- <- <-.
  rewrite Hi, sumLengths_app. simpl. pose proof (len_nonneg (buffer w)). lia.
Qed.

Lemma writeLoop_positioned (data : list byte) :
  forall (n : Z) (w : objectWriter) (om : Manager) w' om',
    positioned n w -> 0 <= sumLengths (indirectIndex w) ->
    n + len data < 2 ^ 63 ->
    writeLoop w data om = Returns (None, w', om') ->
    positioned (n + len data) w' /\ 0 <= sumLengths (indirectIndex w').
Proof.
  induction data as [|d rest IH]; intros n w om w' om' Hp H0 Hlt E.
  - injection E as <- <-. unfold len; simpl. rewrite Z.add_0_r. auto.
  - rewrite writeLoop_cons in E.
    destruct (splitter w) as [s|]; [|discriminate]. cbv zeta in E.
    set (w1 := appended w d (snd (ShouldSplit s d))) in *.
    assert (Hp1 : positioned (n + 1) w1).
    { destruct Hp as (Hc & Hcur & Hn). repeat split; auto.
      subst w1; simpl. rewrite len_app. unfold len at 2; simpl. lia. }
    assert (H01 : 0 <= sumLengths (indirectIndex w1)) by exact H0.
    replace (n + len (d :: rest)) with ((n + 1) + len rest) in *
      by (unfold len; simpl List.length; lia).
    pose proof (len_nonneg rest) as Hr.
    destruct (fst (ShouldSplit s d)).
    + destruct (flushBuffer w1 om) as [[[[e|] w2] om2]| |] eqn:Ef; try discriminate.
      destruct (flushBuffer_positioned (n + 1) w1 om _ _ _ Hp1 H01 ltac:(lia) Ef) as (_ & _ & Hp2).
      apply (IH (n + 1) w2 om2 w' om'); auto.
      eapply flushBuffer_sum_nonneg; eauto.
    + apply (IH (n + 1) w1 om w' om'); auto.
Qed.

Lemma writeAll_positioned (slices : list (list byte)) :
  forall (n : Z) (w : objectWriter) (om : Manager) w' om',
    positioned n w -> 0 <= sumLengths (indirectIndex w) ->
    n + len (List.concat slices) < 2 ^ 63 ->
    writeAll w slices om = Returns (None, w', om') ->
    positioned (n + len (List.concat slices)) w' /\ 0 <= sumLengths (indirectIndex w').
Proof.
  induction slices as [|data rest IH]; intros n w om w' om' Hp H0 Hlt E.
  - injection E as <- <-. unfold len; simpl. rewrite Z.add_0_r. auto.
  - simpl in E. unfold bind in E. rewrite Write_eq in E.
    simpl List.concat in *. rewrite len_app in *.
    pose proof (len_nonneg (List.concat rest)) as Hr.
    destruct (writeLoop _ data om) as [[[[e|] w1] om1]| |] eqn:El; try discriminate.
    destruct (writeLoop_positioned data n
                (withTotalLength w (wrap64 (totalLength w + len data)))
                om w1 om1 Hp H0 ltac:(lia) El) as (Hp1 & H01).
    rewrite Z.add_assoc. apply (IH _ w1 om1 w' om'); auto. lia.
Qed.

Lemma newWriter_eq (comp : option Compressor) (desc : string) (pfx : contentID)
    (om : Manager) :
  newWriter comp desc pfx om =
  Returns ({| compressor := comp; prefix := pfx;
              buf := {| Data := Some (MaxSegmentSize (newSplitter om)) |};
              buffer := []; totalLength := 0; currentPosition := 0;
              indirectIndex := []; description := desc;
              splitter := Some (newSplitter om) |},
           logged om [CallNewSplitter; CallAllocate (MaxSegmentSize (newSplitter om))]).
Proof.
  unfold newWriter, bind, callNewSplitter, initBuffer, Allocate, bind, record, ret, logged.
  simpl. rewrite <- app_assoc. reflexivity.
Qed.

(** C3: after any sequence of successful [Write] calls on a new writer and
    the final flush of [Result], the index entries start at 0, each entry
    starts where the one before ends, and the lengths add up to the number of
    bytes written.  (The offsets are [int64]; the total is below 2^63.) *)
Theorem index_entries_tile_the_stream
    (comp : option Compressor) (desc : string) (pfx : contentID)
    (om0 om1 om : Manager) (w0 w : objectWriter) (slices : list (list byte)) :
  newWriter comp desc pfx om0 = Returns (w0, om1) ->
  writeAll w0 slices om1 = Returns (None, w, om) ->
  len (List.concat slices) < 2 ^ 63 ->
  exists err wf omf,
    finalFlush w om = Returns (err, wf, omf) /\
    (forall fuel r w' om',
       Result jsonEncode fuel w om = Returns (r, w', om') ->
       indirectIndex w' = indirectIndex wf) /\
    let entries := indirectIndex wf in
    (exists e0, nth_error entries 0 = Some e0 /\ Start e0 = 0) /\
    (forall i e1 e2,
       nth_error entries i = Some e1 ->
       nth_error entries (Datatypes.S i) = Some e2 ->
       Start e2 = Start e1 + Length e1) /\
    sumLengths entries = len (List.concat slices).
Proof.
  intros Hnew Hw Hlt.
  rewrite newWriter_eq in Hnew. injection Hnew as <- <-.
  match type of Hw with writeAll ?w0 _ ?om1 = _ =>
    destruct (writeAll_positioned slices 0 w0 om1 w om) as (Hp & H0)
  end; auto.
  { repeat split. }
  { simpl. lia. }
  rewrite Z.add_0_l in Hp.
  destruct (finalFlush_total w om) as (err & wf & omf & E & _ & _ & _ & Hne).
  exists err, wf, omf. split; [exact E|]. split.
  { intros fuel r w' om' Hr.
    destruct (Result_writer _ _ _ _ _ _ Hr) as (err' & omf' & E').
    rewrite E in E'. now injection E' as _ <- _. }
  assert (Hidx : chained 0 (indirectIndex wf)
                 /\ sumLengths (indirectIndex wf) = len (List.concat slices)).
  { unfold finalFlush in E. destruct (needsFlush w) eqn:En.
    - destruct (flushBuffer_positioned _ w om _ _ _ Hp H0 Hlt E) as (Hc & Hs & _). auto.
    - injection E as <- <- <-. destruct Hp as (Hc & _ & Hn). split; [exact Hc|].
      unfold needsFlush in En. apply orb_false_iff in En as [En _].
      apply Z.ltb_ge in En. pose proof (len_nonneg (buffer w)). lia. }
  destruct Hidx as (Hc & Hs). cbv zeta. split; [|split].
  - destruct (indirectIndex wf) as [|e0 l]; [congruence|].
    exists e0. split; [reflexivity|]. exact (proj1 Hc).
  - intros i e1 e2. apply chained_consecutive with (pos := 0). exact Hc.
  - exact Hs.
Qed.

(** ** [Close] *)

Lemma Close_eq (w : objectWriter) (om : Manager) :
  Close w om =
  Returns (None,
           withSplitter (withBuf w (match Data (buf w) with
                                    | Some _ => zeroBuf
                                    | None => buf w
                                    end))
             (option_map SplitterClose (splitter w)),
           logged om (releaseCalls (buf w) ++ splitterCloseCalls (splitter w))).
Proof.
  unfold Close, Release, releaseCalls, splitterCloseCalls, callSplitterClose,
    bind, record, ret, logged.
  destruct w as [c p [[n|]] b t cp ix ds [s|]]; simpl;
    rewrite <- ?app_assoc, ?app_nil_r; try reflexivity.
  destruct om; reflexivity.
Qed.

(** C8 (as the code has it): [Close] always returns nil and releases the
    buffer; the release is idempotent, so a second [Close] releases nothing.
    [Close] keeps no flag of its own, though: every call calls the splitter's
    [Close] again, and a second [Close] leaves the writer as the first one
    did exactly when it has no splitter or the splitter's own [Close] is
    idempotent. *)
Theorem Close_twice (w : objectWriter) (om : Manager) :
  exists w1 om1 w2 om2,
    Close w om = Returns (None, w1, om1) /\
    Close w1 om1 = Returns (None, w2, om2) /\
    buf w1 = zeroBuf /\ buf w2 = zeroBuf /\
    calls om1 = calls om ++ releaseCalls (buf w) ++ splitterCloseCalls (splitter w) /\
    calls om2 = calls om1 ++ splitterCloseCalls (splitter w) /\
    splitter w1 = option_map SplitterClose (splitter w) /\
    splitter w2 = option_map SplitterClose (splitter w1) /\
    (w2 = w1 <->
     match splitter w with
     | Some s => SplitterClose (SplitterClose s) = SplitterClose s
     | None => True
     end).
Proof.
  eexists _, _, _, _. split; [apply Close_eq|]. split; [apply Close_eq|].
  destruct w as [c p [[n|]] b t cp ix ds [s|]]; simpl;
    (repeat (split; [try reflexivity; now rewrite ?app_nil_r|]));
    split; intro X; try reflexivity; try exact I;
    try (injection X as X; exact X); try (now rewrite X).
Qed.

(** ** Errors of the content manager *)

Lemma prepared_reliable (comp : option Compressor) (input : list byte) :
  reliable comp -> exists payload isC, prepared comp input = inl (payload, isC).
Proof.
  intro Hr. unfold prepared. destruct comp as [c|]; [|eauto].
  destruct (Hr c input eq_refl) as (out & ->).
  destruct (len out <? len input); eauto.
Qed.

Lemma flushBuffer_accepting (P : CM -> Prop) (w : objectWriter) (om : Manager) :
  accepting P -> reliable (compressor w) -> P (contentMgr om) ->
  exists w' om',
    flushBuffer w om = Returns (None, w', om') /\
    P (contentMgr om') /\ compressor w' = compressor w /\ splitter w' = splitter w.
Proof.
  intros Ha Hc Hp. rewrite flushBuffer_eq. cbv zeta.
  destruct (prepared_reliable (compressor w) (buffer w) Hc) as (payload & isC & ->).
  destruct (Ha (contentMgr om) payload (prefix w) Hp) as (Hp' & cid & E).
  rewrite E. eexists _, _. split; [reflexivity|]. simpl. auto.
Qed.

Lemma writeLoop_accepting (P : CM -> Prop) (data : list byte) :
  accepting P ->
  forall (w : objectWriter) (om : Manager),
    reliable (compressor w) -> splitter w <> None -> P (contentMgr om) ->
    exists w' om',
      writeLoop w data om = Returns (None, w', om') /\ P (contentMgr om').
Proof.
  intro Ha. induction data as [|d rest IH]; intros w om Hc Hs Hp.
  - exists w, om. split; [reflexivity|exact Hp].
  - rewrite writeLoop_cons.
    destruct (splitter w) as [s|] eqn:Es; [|congruence]. cbv zeta.
    destruct (fst (ShouldSplit s d)).
    + destruct (flushBuffer_accepting P (appended w d (snd (ShouldSplit s d))) om Ha)
        as (w2 & om2 & E & Hp2 & Hc2 & Hs2); auto.
      rewrite E. apply IH; auto.
      * rewrite Hc2. exact Hc.
      * rewrite Hs2. discriminate.
    + apply IH; auto. discriminate.
Qed.

(** ** What [Result] returns *)

Lemma isIndirectb_spec (o : ID) : isIndirect o <-> isIndirectb o = true.
Proof.
  unfold isIndirect, IndirectObjectID. split.
  - intros [inner ->]. reflexivity.
  - destruct o as [|c o]; simpl; [discriminate|].
    intro E. apply Ascii.eqb_eq in E. subst c. exists o. reflexivity.
Qed.

Lemma flushBuffer_directEntries (w : objectWriter) (om : Manager) err w' om' :
  plainContentIDs (prefix w) -> directEntries w ->
  flushBuffer w om = Returns (err, w', om') -> directEntries w'.
Proof.
  intros Hcm Hd. unfold directEntries in *. flush_cases w om.
  - intros [= <- <- <-]. simpl. apply Forall_app. split; [exact Hd|].
    constructor; [reflexivity|constructor].
  - intros [= <- <- <-]. simpl. apply Forall_app. split; [exact Hd|].
    constructor; [|constructor]. simpl.
    destruct isC; simpl; [reflexivity|].
    apply (Hcm (contentMgr om) data). rewrite Ewc. reflexivity.
  - intros [= <- <- <-]. simpl. apply Forall_app. split; [exact Hd|].
    constructor; [reflexivity|constructor].
Qed.

Lemma writeLoop_directEntries (data : list byte) :
  forall (w : objectWriter) (om : Manager) err w' om',
    plainContentIDs (prefix w) -> directEntries w ->
    writeLoop w data om = Returns (err, w', om') -> directEntries w'.
Proof.
  induction data as [|d rest IH]; intros w om err w' om' Hcm Hd E.
  - injection E as <- <- <-. exact Hd.
  - rewrite writeLoop_cons in E.
    destruct (splitter w) as [s|]; [|discriminate]. cbv zeta in E.
    destruct (fst (ShouldSplit s d)).
    + destruct (flushBuffer _ om) as [[[[e|] w2] om2]| |] eqn:Ef; try discriminate.
      * injection E as <- <- <-.
        eapply flushBuffer_directEntries; [| |exact Ef]; assumption.
      * destruct (flushBuffer_total (appended w d (snd (ShouldSplit s d))) om)
          as (? & ? & ? & ? & E1 & (_ & Hpf & _) & _).
        rewrite Ef in E1. injection E1 as <- <- <-.
        eapply IH; [| |exact E].
        -- rewrite Hpf. exact Hcm.
        -- eapply flushBuffer_directEntries; [| |exact Ef]; assumption.
    + eapply IH; [| |exact E]; assumption.
Qed.


Lemma resultIndirect_eq (rec : objectWriter -> M (ID * option error * objectWriter))
    (w : objectWriter) (om : Manager) :
  resultIndirect rec w om =
  match encodedIndexWriter w om with
  | Returns (Some e, iw, om1) =>
      Returns ("", Some (Wrap e "unable to write indirect object index"), w,
               closedManager iw om1)
  | Returns (None, iw, om1) =>
      match rec iw om1 with
      | Returns (oid, Some e, iw2, om2) =>
          Returns ("", Some e, w, closedManager iw2 om2)
      | Returns (oid, None, iw2, om2) =>
          Returns (IndirectObjectID oid, None, w, closedManager iw2 om2)
      | Panics => Panics
      | NoFuel => NoFuel
      end
  | Panics => Panics
  | NoFuel => NoFuel
  end.
Proof.
  unfold resultIndirect, encodedIndexWriter, nestedBody, bind.
  destruct (callNewSplitter om) as [[s om0]| |]; try reflexivity.
  destruct (initBuffer _ om0) as [[iw om1]| |]; try reflexivity.
  destruct (Encode jsonEncode iw _ om1) as [[[[e|] iw1] om2]| |]; try reflexivity.
  - unfold ret. rewrite Close_eq. reflexivity.
  - destruct (rec iw1 om2) as [[[[oid [e|]] iw2] om3]| |]; try reflexivity;
      unfold ret; rewrite Close_eq; reflexivity.
Qed.

Lemma needsFlush_true_iff (w : objectWriter) :
  needsFlush w = true <-> buffer w <> [] \/ indirectIndex w = [].
Proof.
  unfold needsFlush, len. rewrite orb_true_iff, Z.ltb_lt, Z.eqb_eq. split.
  - intros [X|X]; [left|right].
    + intro E. rewrite E in X. simpl in X. lia.
    + destruct (indirectIndex w); [reflexivity|simpl in X; lia].
  - intros [X|X]; [left|right].
    + destruct (buffer w); [congruence|simpl; lia].
    + rewrite X. reflexivity.
Qed.

Lemma written_invariants (stream : list byte) (w : objectWriter) (om : Manager) :
  written stream w om ->
  splitter w <> None /\
  (plainContentIDs (prefix w) -> directEntries w) /\
  (stream = [] ->
   indirectIndex w = [] /\ buffer w = [] /\ currentPosition w = 0).
Proof.
  induction 1 as [comp desc pfx om0 w om Hnew
                 |stream w om data n err w' om' Hw (Hs & Hd & Hz) HW
                 |stream w om cs Hw IH]; [| |exact IH].
  - rewrite newWriter_eq in Hnew. injection Hnew as <- <-. simpl.
    split; [discriminate|]. split; [constructor|auto].
  - rewrite Write_eq in HW.
    set (w0 := withTotalLength w (wrap64 (totalLength w + len data))) in *.
    destruct (writeLoop_total data w0 om Hs)
      as (err1 & w1 & om1 & El & (_ & Hp & _) & Hs1 & _).
    rewrite El in HW.
    assert (X : w' = w1) by (destruct err1; now injection HW as _ _ <- _).
    subst w1. split; [exact Hs1|]. split.
    + intro Hplain. rewrite Hp in Hplain.
      eapply writeLoop_directEntries; [exact Hplain|exact (Hd Hplain)|exact El].
    + intro Hnil. apply app_eq_nil in Hnil as [-> ->].
      rewrite writeLoop_nil in El. injection El as _ <- _.
      destruct (Hz eq_refl) as (Hi & Hb & Hc). auto.
Qed.

(** ** The nested writer of [Result] *)

Lemma extends_refl pfx om : extends pfx om om.
Proof. exists []. split; [now rewrite app_nil_r|constructor]. Qed.

Lemma extends_trans pfx om1 om2 om3 :
  extends pfx om1 om2 -> extends pfx om2 om3 -> extends pfx om1 om3.
Proof.
  intros (a & Ea & Ha) (b & Eb & Hb). exists (a ++ b). split.
  - now rewrite Eb, Ea, app_assoc.
  - apply Forall_app; auto.
Qed.

Lemma extends_logged pfx om cs :
  Forall (nestedCall pfx) cs -> extends pfx om (logged om cs).
Proof. intro Hf. exists cs. auto. Qed.

Lemma flushBuffer_calls (w : objectWriter) (om : Manager) err w' om' :
  compressor w = None ->
  flushBuffer w om = Returns (err, w', om') ->
  extends (prefix w) om om'.
Proof.
  intro Hc. rewrite flushBuffer_eq. cbv zeta. rewrite Hc. simpl prepared.
  cbv iota beta. simpl compressCalls.
  destruct (snd (WriteContent _ _ _)); intros [= <- <- <-];
    eexists; (split; [reflexivity|]); repeat constructor.
Qed.

Lemma writeLoop_calls (data : list byte) :
  forall (w : objectWriter) (om : Manager) err w' om',
    compressor w = None ->
    writeLoop w data om = Returns (err, w', om') ->
    extends (prefix w) om om'.
Proof.
  induction data as [|d rest IH]; intros w om err w' om' Hc E.
  - injection E as <- <- <-. apply extends_refl.
  - rewrite writeLoop_cons in E.
    destruct (splitter w) as [s|]; [|discriminate]. cbv zeta in E.
    set (w1 := appended w d (snd (ShouldSplit s d))) in *.
    destruct (fst (ShouldSplit s d)).
    + destruct (flushBuffer w1 om) as [[[err2 w2] om2]| |] eqn:Ef; try discriminate.
      assert (X : extends (prefix w) om om2).
      { exact (flushBuffer_calls w1 om _ _ _ Hc Ef). }
      destruct (flushBuffer_total w1 om) as (? & ? & ? & ? & E1 & (Hc2 & Hp2 & _) & _).
      rewrite Ef in E1. injection E1 as <- <- <-.
      destruct err2 as [e|].
      * injection E as <- <- <-. exact X.
      * eapply extends_trans; [exact X|].
        replace (prefix w) with (prefix w2) by exact Hp2.
        eapply IH; [|exact E]. rewrite Hc2. exact Hc.
    + exact (IH w1 om _ _ _ Hc E).
Qed.

Lemma Encode_eq (iw : objectWriter) (ind : indirectObject) (om : Manager) :
  Encode jsonEncode iw ind om =
  match jsonEncode ind with
  | inl e => Returns (Some e, iw, logged om [CallJSONEncode ind])
  | inr b =>
      match writeLoop (withTotalLength iw (wrap64 (totalLength iw + len b))) b
              (logged om [CallJSONEncode ind]) with
      | Returns (err, iw', om') => Returns (err, iw', om')
      | Panics => Panics
      | NoFuel => NoFuel
      end
  end.
Proof.
  unfold Encode, bind, record. fold (logged om [CallJSONEncode ind]).
  destruct (jsonEncode ind) as [e|b]; [reflexivity|].
  rewrite Write_eq.
  destruct (writeLoop _ b _) as [[[[e|] iw'] om']| |]; reflexivity.
Qed.

Lemma Result_config (fuel : nat) (w : objectWriter) (om : Manager) r w' om' :
  Result jsonEncode fuel w om = Returns (r, w', om') ->
  sameConfig w w' /\ splitter w' = splitter w.
Proof.
  intro E. destruct (Result_writer _ _ _ _ _ _ E) as (err & omf & Ef).
  destruct (finalFlush_total w om) as (? & ? & ? & Ef' & C & Hs & _).
  rewrite Ef in Ef'. injection Ef' as <- <- <-. auto.
Qed.

Lemma Result_calls (fuel : nat) :
  forall (w : objectWriter) (om : Manager) r w' om',
    compressor w = None ->
    Result jsonEncode fuel w om = Returns (r, w', om') ->
    extends (prefix w) om om'.
Proof.
  induction fuel as [|fuel IH]; intros w om r w' om' Hc E; [discriminate|].
  rewrite Result_eq in E.
  destruct (finalFlush_total w om) as (err & wf & omf & Ef & (Hcf & Hpf & _) & _).
  rewrite Ef in E.
  assert (X : extends (prefix w) om omf).
  { unfold finalFlush in Ef. destruct (needsFlush w).
    - exact (flushBuffer_calls w om _ _ _ Hc Ef).
    - injection Ef as <- <- <-. apply extends_refl. }
  destruct err as [e|]; [injection E as <- <- <-; exact X|].
  assert (Y : forall r w' om',
             resultIndirect (Result jsonEncode fuel) wf omf = Returns (r, w', om') ->
             extends (prefix w) omf om').
  { clear E. intros r0 w0' om0' E. rewrite resultIndirect_eq in E.
    unfold encodedIndexWriter, bind, callNewSplitter in E.
    fold (logged omf [CallNewSplitter]) in E. simpl initBuffer in E.
    unfold bind, Allocate, bind, record, ret in E. simpl in E.
    rewrite Encode_eq in E.
    match type of E with context [CallJSONEncode ?d] => set (doc := d) in * end.
    match type of E with context [logged ?o [CallJSONEncode doc]] =>
      set (omi := o) in * end.
    assert (X1 : extends (prefix w) omf omi).
    { exists [CallNewSplitter; CallAllocate (MaxSegmentSize (newSplitter omf))].
      split; [subst omi; simpl; now rewrite <- app_assoc|repeat constructor]. }
    assert (X2 : extends (prefix w) omi (logged omi [CallJSONEncode doc])).
    { apply extends_logged. repeat constructor. }
    assert (Hcl : forall iw om, extends (prefix w) om (closedManager iw om)).
    { intros iw om1. apply extends_logged. apply Forall_app. split.
      - unfold releaseCalls. destruct (Data (buf iw)); repeat constructor.
      - unfold splitterCloseCalls. destruct (splitter iw); repeat constructor. }
    destruct (jsonEncode doc) as [e|b].
    - injection E as <- <- <-.
      eapply extends_trans; [exact X1|]. eapply extends_trans; [exact X2|]. apply Hcl.
    - match type of E with context [writeLoop ?iw b ?o] =>
        destruct (writeLoop_total b iw o) as (err1 & iw1 & om1 & El & (Hc1 & Hp1 & _) & _);
        [simpl; discriminate|];
        pose proof (writeLoop_calls b iw o _ _ _ eq_refl El) as X3
      end.
      rewrite El in E. simpl in Hc1, Hp1, X3. rewrite Hpf in X3.
      assert (X4 : extends (prefix w) omf om1).
      { eapply extends_trans; [exact X1|]. eapply extends_trans; [exact X2|exact X3]. }
      destruct err1 as [e|].
      + injection E as <- <- <-. eapply extends_trans; [exact X4|apply Hcl].
      + destruct (Result jsonEncode fuel iw1 om1) as [[[[oid err2] iw2] om2]| |] eqn:Er;
          try discriminate.
        pose proof (IH iw1 om1 _ _ _ Hc1 Er) as X5. rewrite Hp1, Hpf in X5.
        destruct err2; injection E as <- <- <-;
          (eapply extends_trans; [exact X4|]);
          (eapply extends_trans; [exact X5|apply Hcl]). }
  destruct (indirectIndex wf) as [|e [|e' l]].
  - eapply extends_trans; [exact X|]. eapply Y. exact E.
  - injection E as <- <- <-. exact X.
  - eapply extends_trans; [exact X|]. eapply Y. exact E.
Qed.

Lemma closedManager_calls (iw : objectWriter) (om : Manager) (n : Z) :
  buf iw = {| Data := Some n |} -> splitter iw <> None ->
  calls (closedManager iw om) = calls om ++ [CallRelease n; CallSplitterClose].
Proof.
  intros Hb Hs. unfold closedManager, releaseCalls, splitterCloseCalls. simpl.
  rewrite Hb. simpl. destruct (splitter iw); [reflexivity|congruence].
Qed.

(** C6: when the index holds more than one entry, [Result] builds the nested
    writer with no compressor and the prefix of the outer writer, hands the
    encoder a document whose stream is [kopia:indirect] and whose entries are
    the index, and, whatever the nested writer and its result return, success
    or error, ends with the [Close] of the nested writer: the release of its
    buffer and the close of its splitter are the last calls made.  In between
    no compressor runs and all content is written under the outer prefix. *)
Theorem Result_index_writer (fuel : nat) (w wf : objectWriter) (om omf : Manager)
    r w' om' :
  finalFlush w om = Returns (None, wf, omf) ->
  List.length (indirectIndex wf) <> 1%nat ->
  Result jsonEncode (Datatypes.S fuel) w om = Returns (r, w', om') ->
  let mss := MaxSegmentSize (newSplitter om) in
  let doc := {| StreamID := "kopia:indirect"; Entries := indirectIndex wf |} in
  exists iw omi mid,
    bind callNewSplitter (fun s => initBuffer (indexWriter wf s)) omf
      = Returns (iw, omi) /\
    compressor iw = None /\ prefix iw = prefix w /\
    calls omi = calls omf ++ [CallNewSplitter; CallAllocate mss] /\
    calls om' = calls omi ++ [CallJSONEncode doc] ++ mid
                  ++ [CallRelease mss; CallSplitterClose] /\
    Forall (nestedCall (prefix w)) mid.
Proof.
  intros Ef Hlen E mss doc.
  destruct (finalFlush_total w om) as (? & ? & ? & Ef' & (_ & Hpf & _) & _ & Hns & _).
  rewrite Ef in Ef'. injection Ef' as <- <- <-.
  rewrite Result_eq, Ef in E.
  assert (Ei : resultIndirect (Result jsonEncode fuel) wf omf = Returns (r, w', om')).
  { destruct (indirectIndex wf) as [|e [|e' l]]; auto. simpl in Hlen. congruence. }
  clear E. rewrite resultIndirect_eq in Ei.
  unfold encodedIndexWriter, bind, callNewSplitter in Ei.
  fold (logged omf [CallNewSplitter]) in Ei. simpl initBuffer in Ei.
  unfold bind, Allocate, bind, record, ret in Ei. simpl in Ei.
  rewrite Encode_eq in Ei. fold doc in Ei. rewrite Hns in Ei. fold mss in Ei.
  match type of Ei with context [logged ?o [CallJSONEncode doc]] =>
    set (omi := o) in * end.
  match type of Ei with context [writeLoop (withTotalLength ?x _) _ _] =>
    set (iw := x) in * end.
  exists iw, omi.
  assert (Hinit : bind callNewSplitter (fun s => initBuffer (indexWriter wf s)) omf
                  = Returns (iw, omi)).
  { unfold bind, callNewSplitter. simpl.
    unfold bind, Allocate, bind, record, ret. simpl. rewrite Hns. reflexivity. }
  assert (Hcalls : calls omi = calls omf ++ [CallNewSplitter; CallAllocate mss]).
  { subst omi. simpl. now rewrite <- app_assoc. }
  assert (Hbuf : buf iw = {| Data := Some mss |}) by reflexivity.
  clearbody omi.
  destruct (jsonEncode doc) as [e|b].
  - injection Ei as <- <- <-. exists [].
    split; [exact Hinit|]. split; [reflexivity|]. split; [exact Hpf|].
    split; [exact Hcalls|]. split; [|constructor].
    rewrite (closedManager_calls iw _ mss Hbuf); [|simpl; discriminate].
    simpl. now rewrite <- !app_assoc.
  - match type of Ei with context [writeLoop ?iw0 b ?o] =>
      destruct (writeLoop_total b iw0 o)
        as (err1 & iw1 & om1 & El & (Hc1 & Hp1 & Hb1 & _) & Hs1 & _);
      [simpl; discriminate|];
      destruct (writeLoop_calls b iw0 o _ _ _ eq_refl El) as (cs3 & Ecs3 & Hcs3)
    end.
    rewrite El in Ei. simpl in Hc1, Hp1, Hb1, Ecs3, Hcs3. rewrite Hpf in Hcs3.
    destruct err1 as [e|].
    + injection Ei as <- <- <-. exists cs3.
      split; [exact Hinit|]. split; [reflexivity|]. split; [exact Hpf|].
      split; [exact Hcalls|]. split; [|exact Hcs3].
      rewrite (closedManager_calls iw1 _ mss Hb1 Hs1), Ecs3.
      now rewrite <- !app_assoc.
    + destruct (Result jsonEncode fuel iw1 om1) as [[[[oid err2] iw2] om2]| |] eqn:Er;
        try discriminate.
      destruct (Result_calls fuel iw1 om1 _ _ _ Hc1 Er) as (cs5 & Ecs5 & Hcs5).
      rewrite Hp1, Hpf in Hcs5.
      destruct (Result_config _ _ _ _ _ _ Er) as ((_ & _ & Hb2 & _) & Hs2).
      assert (Hcm : calls (closedManager iw2 om2)
                    = calls omi ++ [CallJSONEncode doc] ++ (cs3 ++ cs5)
                        ++ [CallRelease mss; CallSplitterClose]).
      { rewrite (closedManager_calls iw2 _ mss); [|congruence|congruence].
        rewrite Ecs5, Ecs3. simpl. now rewrite <- !app_assoc. }
      exists (cs3 ++ cs5).
      split; [exact Hinit|]. split; [reflexivity|]. split; [exact Hpf|].
      split; [exact Hcalls|].
      destruct err2; injection Ei as <- <- <-;
        (split; [exact Hcm|apply Forall_app; auto]).
Qed.

(** ** Determinism *)

Lemma withTotalLength_id (w : objectWriter) :
  withTotalLength w (totalLength w) = w.
Proof. destruct w; reflexivity. Qed.

Lemma flushBuffer_withTotalLength (w : objectWriter) (t : Z) (om : Manager) :
  flushBuffer (withTotalLength w t) om = relabel t (flushBuffer w om).
Proof.
  rewrite !flushBuffer_eq. cbv zeta. simpl.
  destruct (prepared (compressor w) (buffer w)) as [[data isC]|e]; [|reflexivity].
  destruct (snd (WriteContent _ _ _)); reflexivity.
Qed.

Lemma writeLoop_withTotalLength (data : list byte) :
  forall (w : objectWriter) (t : Z) (om : Manager),
    writeLoop (withTotalLength w t) data om = relabel t (writeLoop w data om).
Proof.
  induction data as [|d rest IH]; intros w t om; [reflexivity|].
  rewrite !writeLoop_cons. simpl splitter.
  destruct (splitter w) as [s|]; [|reflexivity]. cbv zeta.
  change (appended (withTotalLength w t) d (snd (ShouldSplit s d)))
    with (withTotalLength (appended w d (snd (ShouldSplit s d))) t).
  destruct (fst (ShouldSplit s d)); [|apply IH].
  rewrite flushBuffer_withTotalLength.
  destruct (flushBuffer _ om) as [[[[e|] w2] om2]| |]; try reflexivity.
  simpl. apply IH.
Qed.

Lemma writeLoop_app (a b : list byte) :
  forall (w : objectWriter) (om : Manager),
    writeLoop w (a ++ b) om =
    match writeLoop w a om with
    | Returns (None, w1, om1) => writeLoop w1 b om1
    | o => o
    end.
Proof.
  induction a as [|d a IH]; intros w om; [reflexivity|].
  rewrite <- app_comm_cons, !writeLoop_cons.
  destruct (splitter w) as [s|]; [|reflexivity]. cbv zeta.
  destruct (fst (ShouldSplit s d)); [|apply IH].
  destruct (flushBuffer _ om) as [[[[e|] w2] om2]| |]; try reflexivity.
  apply IH.
Qed.

(** A sequence of successful [Write] calls is one pass of the loop over the
    concatenated bytes, up to the length counter. *)
Lemma writeAll_as_loop (slices : list (list byte)) :
  forall (w : objectWriter) (om : Manager) w' om',
    writeAll w slices om = Returns (None, w', om') ->
    exists x,
      writeLoop w (List.concat slices) om = Returns (None, x, om') /\
      normalize x = normalize w'.
Proof.
  induction slices as [|data rest IH]; intros w om w' om' E.
  - injection E as <- <-. exists w. split; reflexivity.
  - simpl in E. unfold bind in E. rewrite Write_eq in E.
    rewrite writeLoop_withTotalLength in E.
    simpl List.concat. rewrite writeLoop_app.
    destruct (writeLoop w data om) as [[[[e|] w1] om1]| |]; try discriminate.
    simpl in E.
    destruct (IH _ _ _ _ E) as (x & Ex & Hx).
    rewrite writeLoop_withTotalLength in Ex.
    destruct (writeLoop w1 (List.concat rest) om1) as [[[[e|] y] om2]| |];
      try discriminate.
    simpl in Ex. injection Ex as <- <-.
    exists y. split; [reflexivity|]. exact Hx.
Qed.

Lemma flushBuffer_det (w : objectWriter) (omA omB : Manager) wA omA' wB omB' :
  deduplicating ->
  flushBuffer w omA = Returns (None, wA, omA') ->
  flushBuffer w omB = Returns (None, wB, omB') ->
  wA = wB.
Proof.
  intro Hd. rewrite !flushBuffer_eq. cbv zeta.
  destruct (prepared (compressor w) (buffer w)) as [[data isC]|e]; [|discriminate].
  destruct (snd (WriteContent (contentMgr omA) _ _)) as [e|cA] eqn:EA; [discriminate|].
  destruct (snd (WriteContent (contentMgr omB) _ _)) as [e|cB] eqn:EB; [discriminate|].
  rewrite (Hd _ _ _ _ _ _ EA EB).
  intros [= <- _] [= <- _]. reflexivity.
Qed.

Lemma writeLoop_det (data : list byte) :
  deduplicating ->
  forall (w : objectWriter) (omA omB : Manager) wA omA' wB omB',
    writeLoop w data omA = Returns (None, wA, omA') ->
    writeLoop w data omB = Returns (None, wB, omB') ->
    wA = wB.
Proof.
  intro Hd. induction data as [|d rest IH]; intros w omA omB wA omA' wB omB' EA EB.
  - injection EA as <- _. injection EB as <- _. reflexivity.
  - rewrite writeLoop_cons in EA, EB.
    destruct (splitter w) as [s|]; [|discriminate]. cbv zeta in EA, EB.
    destruct (fst (ShouldSplit s d)).
    + destruct (flushBuffer _ omA) as [[[[e|] a2] oa2]| |] eqn:FA; try discriminate.
      destruct (flushBuffer _ omB) as [[[[e|] b2] ob2]| |] eqn:FB; try discriminate.
      rewrite (flushBuffer_det _ _ _ _ _ _ _ Hd FA FB) in EA.
      exact (IH _ _ _ _ _ _ _ EA EB).
    + exact (IH _ _ _ _ _ _ _ EA EB).
Qed.



Lemma Result_det (fuelA : nat) :
  deduplicating ->
  forall (fuelB : nat) (w : objectWriter) (omA omB : Manager)
         oidA wA omA' oidB wB omB',
    newSplitter omA = newSplitter omB ->
    Result jsonEncode fuelA w omA = Returns (oidA, None, wA, omA') ->
    Result jsonEncode fuelB w omB = Returns (oidB, None, wB, omB') ->
    oidA = oidB /\ wA = wB.
Proof.
  intro Hd. induction fuelA as [|fuelA IH];
    intros fuelB w omA omB oidA wA omA' oidB wB omB' Hn EA EB; [discriminate|].
  destruct fuelB as [|fuelB]; [discriminate|].
  rewrite Result_eq in EA, EB.
  destruct (finalFlush_total w omA) as (errA & wfA & omfA & FA & _ & _ & NA & _).
  destruct (finalFlush_total w omB) as (errB & wfB & omfB & FB & _ & _ & NB & _).
  rewrite FA in EA. rewrite FB in EB.
  destruct errA as [e|]; [discriminate|]. destruct errB as [e|]; [discriminate|].
  assert (Hwf : wfA = wfB).
  { unfold finalFlush in FA, FB. destruct (needsFlush w).
    - exact (flushBuffer_det _ _ _ _ _ _ _ Hd FA FB).
    - injection FA as <- _. injection FB as <- _. reflexivity. }
  subst wfB. rename wfA into wf.
  assert (Y : resultIndirect (Result jsonEncode fuelA) wf omfA
                = Returns (oidA, None, wA, omA') ->
              resultIndirect (Result jsonEncode fuelB) wf omfB
                = Returns (oidB, None, wB, omB') ->
              oidA = oidB /\ wA = wB).
  { clear EA EB. rewrite !resultIndirect_eq.
    unfold encodedIndexWriter, bind, callNewSplitter.
    fold (logged omfA [CallNewSplitter]). fold (logged omfB [CallNewSplitter]).
    rewrite NA, NB, <- Hn. simpl initBuffer.
    unfold bind, Allocate, bind, record, ret. simpl.
    rewrite !Encode_eq.
    match goal with |- context [jsonEncode ?d] => destruct (jsonEncode d) as [e|b] end;
      [discriminate|].
    match goal with
    | |- context [writeLoop ?iw b (logged ?oa _)] =>
        match goal with
        | |- (_ -> match match writeLoop _ b (logged ?ob _) with _ => _ end with _ => _ end = _ -> _) =>
            destruct (writeLoop_total b iw (logged oa [CallJSONEncode
                        {| StreamID := "kopia:indirect"; Entries := indirectIndex wf |}]))
              as (e1 & iwA & oA & LA & _ & _ & NA1); [simpl; discriminate|];
            destruct (writeLoop_total b iw (logged ob [CallJSONEncode
                        {| StreamID := "kopia:indirect"; Entries := indirectIndex wf |}]))
              as (e2 & iwB & oB & LB & _ & _ & NB1); [simpl; discriminate|]
        end
    end.
    rewrite LA, LB.
    destruct e1 as [e|]; [discriminate|]. destruct e2 as [e|]; [discriminate|].
    rewrite (writeLoop_det b Hd _ _ _ _ _ _ _ LA LB).
    destruct (Result jsonEncode fuelA iwB oA) as [[[[rA [e|]] iA2] oA2]| |] eqn:RA;
      try discriminate.
    destruct (Result jsonEncode fuelB iwB oB) as [[[[rB [e|]] iB2] oB2]| |] eqn:RB;
      try discriminate.
    assert (Hn1 : newSplitter oA = newSplitter oB).
    { rewrite NA1, NB1. simpl. rewrite NA, NB. exact Hn. }
    destruct (IH _ _ _ _ _ _ _ _ _ _ Hn1 RA RB) as (Hr & _).
    intros [= <- <- _] [= <- <- _]. rewrite Hr. auto. }
  destruct (indirectIndex wf) as [|e [|e' l]].
  - exact (Y EA EB).
  - injection EA as <- <- _. injection EB as <- <- _. auto.
  - exact (Y EA EB).
Qed.

(** ** A flush that fails in the middle of a [Write] *)

Lemma writeLoop_splitter (data : list byte) (w : objectWriter) (om : Manager)
    err w' om' :
  writeLoop w data om = Returns (err, w', om') ->
  splitter w' <> None -> splitter w <> None.
Proof.
  destruct data as [|d rest]; [intros [= _ <- _]; auto|].
  rewrite writeLoop_cons. destruct (splitter w); [intros; discriminate|].
  intro X. discriminate X.
Qed.

(** The loop stops at the first flush that fails, and returns its error. *)
Lemma writeLoop_flush_fails (pre post : list byte) (d : byte)
    (w wp wf : objectWriter) (om omp omf : Manager) (s1 : S) (e : error) :
  writeLoop w pre om = Returns (None, wp, omp) ->
  splitter wp = Some s1 ->
  fst (ShouldSplit s1 d) = true ->
  flushBuffer (appended wp d (snd (ShouldSplit s1 d))) omp = Returns (Some e, wf, omf) ->
  writeLoop w (pre ++ d :: post) om = Returns (Some e, wf, omf).
Proof.
  intros Hpre Hs Hsplit Hf.
  rewrite writeLoop_app, Hpre, writeLoop_cons, Hs. cbv zeta.
  rewrite Hsplit, Hf. reflexivity.
Qed.

(** C9: [Write] advances [totalLength] by the length of the whole slice
    before the loop appends the first byte.  When the flush that the splitter
    asks for at some byte of the slice fails, [Write] returns the byte count 0
    with the error of that flush, although the bytes up to that one were
    appended and the counter stays advanced by the whole length; and [Write]
    returns an error in no other case.  ([bytes.Buffer.WriteByte] itself never
    fails.) *)
Theorem Write_counts_whole_slice (w : objectWriter) (data : list byte)
    (om : Manager) (s : S) :
  splitter w = Some s ->
  let w0 := withTotalLength w (wrap64 (totalLength w + len data)) in
  exists n err w' om',
    Write w data om = Returns (n, err, w', om') /\
    writeLoop w0 data om = Returns (err, w', om') /\
    totalLength w' = wrap64 (totalLength w + len data) /\
    (err = None -> n = len data) /\
    (forall pre d post wp omp s1 e wf omf,
       data = pre ++ d :: post ->
       writeLoop w0 pre om = Returns (None, wp, omp) ->
       splitter wp = Some s1 ->
       fst (ShouldSplit s1 d) = true ->
       flushBuffer (appended wp d (snd (ShouldSplit s1 d))) omp
         = Returns (Some e, wf, omf) ->
       n = 0 /\ err = Some e /\ w' = wf /\ om' = omf /\
       buffer (appended wp d (snd (ShouldSplit s1 d))) = buffer wp ++ [d] /\
       totalLength wp = wrap64 (totalLength w + len data)) /\
    (forall e, err = Some e ->
       n = 0 /\
       exists pre d post wp omp s1,
         data = pre ++ d :: post /\
         writeLoop w0 pre om = Returns (None, wp, omp) /\
         splitter wp = Some s1 /\
         fst (ShouldSplit s1 d) = true /\
         flushBuffer (appended wp d (snd (ShouldSplit s1 d))) omp
           = Returns (Some e, w', om')).
Proof.
  intros Hs w0.
  assert (Hs0 : splitter w0 <> None) by (subst w0; simpl; congruence).
  destruct (writeLoop_total data w0 om Hs0) as (err & w' & om' & E & C & _).
  assert (EW : Write w data om
               = Returns (match err with Some _ => 0 | None => len data end,
                          err, w', om')).
  { rewrite Write_eq. fold w0. rewrite E. destruct err; reflexivity. }
  destruct C as (_ & _ & _ & _ & Ht).
  exists (match err with Some _ => 0 | None => len data end), err, w', om'.
  split; [exact EW|]. split; [exact E|]. split; [exact Ht|].
  split; [intros ->; reflexivity|]. split.
  - intros pre d post wp omp s1 e wf omf Hd Hpre Hsp Hsplit Hf.
    pose proof (writeLoop_flush_fails pre post d _ _ _ _ _ _ _ _ Hpre Hsp Hsplit Hf) as X.
    rewrite <- Hd, E in X. injection X as -> -> ->.
    repeat split.
    destruct (writeLoop_total pre w0 om Hs0) as (? & ? & ? & Ep & (_ & _ & _ & _ & Htp) & _).
    rewrite Hpre in Ep. injection Ep as <- <- <-. exact Htp.
  - intros e ->. split; [reflexivity|].
    destruct (writeLoop_failure _ _ _ _ _ _ E)
      as (pre & d & post & wp & omp & s1 & Hd & Hp & Hsp & Hsplit & Hf).
    exists pre, d, post, wp, omp, s1. repeat split; auto.
Qed.

(** C1 (as the code has it): when the content manager refuses the chunk that
    a [Write] flushes at some byte of its slice, that [Write] returns the byte
    count 0 and the error, wrapped with the chunk number and the description;
    when it refuses the chunk of the last flush of [Result], that [Result]
    returns the empty identifier and the wrapped error.  The writer keeps no
    error state: on the writer the failed [Write] leaves behind, a later
    [Write] fails only if a flush of its own fails, and returns its full
    length with no error when the content manager accepts its chunks. *)
Theorem flush_error_returned_not_kept (w : objectWriter) (om : Manager) :
  (forall pre d post wp omp s1 payload isC e0,
     let data := pre ++ d :: post in
     let wf := appended wp d (snd (ShouldSplit s1 d)) in
     writeLoop (withTotalLength w (wrap64 (totalLength w + len data))) pre om
       = Returns (None, wp, omp) ->
     splitter wp = Some s1 ->
     fst (ShouldSplit s1 d) = true ->
     prepared (compressor w) (buffer wp ++ [d]) = inl (payload, isC) ->
     snd (WriteContent (contentMgr omp) payload (prefix w)) = inl e0 ->
     exists w1 om1,
       Write w data om = Returns (0, Some (flushError wf e0), w1, om1) /\
       flushError wf e0
         = Wrap e0 ("error when flushing chunk "
                      ++ decimal (List.length (indirectIndex wp))
                      ++ " of " ++ description w)%string /\
       (forall (P : CM -> Prop) data',
          accepting P -> P (contentMgr om1) -> reliable (compressor w) ->
          exists w2 om2, Write w1 data' om1 = Returns (len data', None, w2, om2)) /\
       (forall data' n' e' w2 om2,
          Write w1 data' om1 = Returns (n', Some e', w2, om2) ->
          exists pre' d' post' wp' omp' s1',
            data' = pre' ++ d' :: post' /\
            writeLoop (withTotalLength w1 (wrap64 (totalLength w1 + len data'))) pre' om1
              = Returns (None, wp', omp') /\
            splitter wp' = Some s1' /\
            fst (ShouldSplit s1' d') = true /\
            flushBuffer (appended wp' d' (snd (ShouldSplit s1' d'))) omp'
              = Returns (Some e', w2, om2))) /\
  (forall payload isC e0 fuel,
     needsFlush w = true ->
     prepared (compressor w) (buffer w) = inl (payload, isC) ->
     snd (WriteContent (contentMgr om) payload (prefix w)) = inl e0 ->
     exists wf omf,
       Result jsonEncode (Datatypes.S fuel) w om
         = Returns ("", Some (flushError w e0), wf, omf) /\
       Cause (flushError w e0) = Cause e0).
Proof.
  split.
  - intros pre d post wp omp s1 payload isC e0 data wf Hpre Hsp Hsplit Hprep Hwc.
    set (w0 := withTotalLength w (wrap64 (totalLength w + len data))) in *.
    assert (Hs0 : splitter w0 <> None).
    { apply (writeLoop_splitter _ _ _ _ _ _ Hpre). congruence. }
    destruct (writeLoop_total pre w0 om Hs0)
      as (? & ? & ? & Ep & (Hc & Hp & _ & Hdesc & _) & _).
    rewrite Hpre in Ep. injection Ep as <- <- <-. simpl in Hc, Hp, Hdesc.
    assert (Hf : exists w1 om1,
               flushBuffer wf omp = Returns (Some (flushError wf e0), w1, om1)).
    { rewrite flushBuffer_eq. cbv zeta. subst wf. cbn [appended compressor buffer prefix
        withSplitter withBuffer contentMgr]. rewrite Hc, Hprep, Hp, Hwc.
      eexists _, _. reflexivity. }
    destruct Hf as (w1 & om1 & Hf).
    pose proof (writeLoop_flush_fails pre post d _ _ _ _ _ _ _ _ Hpre Hsp Hsplit Hf) as El.
    fold data in El.
    exists w1, om1. split; [|split; [|split]].
    + rewrite Write_eq. fold w0. rewrite El. reflexivity.
    + unfold flushError. subst wf. cbn [appended indirectIndex description
        withSplitter withBuffer]. rewrite Hdesc. reflexivity.
    + intros P data' Ha HP Hrel. rewrite Write_eq.
      destruct (flushBuffer_total wf omp) as (? & ? & ? & ? & Ef & (Hc1 & _) & Hs1 & _).
      rewrite Hf in Ef. injection Ef as <- <- <-.
      destruct (writeLoop_accepting P data' Ha
                  (withTotalLength w1 (wrap64 (totalLength w1 + len data'))) om1)
        as (w2 & om2 & E2 & _); auto.
      * cbn [withTotalLength compressor]. rewrite Hc1. subst wf.
        cbn [appended compressor withSplitter withBuffer]. rewrite Hc. exact Hrel.
      * cbn [withTotalLength splitter]. rewrite Hs1. subst wf. simpl. discriminate.
      * rewrite E2. eauto.
    + intros data' n' e' w2 om2 E. rewrite Write_eq in E.
      destruct (writeLoop _ data' om1) as [[[[e1|] w3] om3]| |] eqn:El'; try discriminate.
      injection E as _ <- <- <-.
      destruct (writeLoop_failure _ _ _ _ _ _ El')
        as (pre' & d' & post' & wp' & omp' & s1' & Hd & Hp' & Hsp' & Hsplit' & Hf').
      exists pre', d', post', wp', omp', s1'. auto.
  - intros payload isC e0 fuel Hneed Hprep Hwc.
    assert (Hf : exists wf omf,
               flushBuffer w om = Returns (Some (flushError w e0), wf, omf)).
    { rewrite flushBuffer_eq. cbv zeta. rewrite Hprep, Hwc. eexists _, _. reflexivity. }
    destruct Hf as (wf & omf & Hf). exists wf, omf.
    rewrite Result_eq. unfold finalFlush. rewrite Hneed, Hf. split; reflexivity.
Qed.

(** ** The nested writer and the index document *)

(** The nested writer of [Result] is a new writer with no compressor, the
    description [LIST(...)] and the prefix of the outer writer; the encoder is
    called on the index document and hands its bytes to one [Write]. *)
Lemma encodedIndexWriter_eq (w : objectWriter) (om : Manager) :
  encodedIndexWriter w om =
  match newWriter None ("LIST(" ++ description w ++ ")")%string (prefix w) om with
  | Returns (iw0, om0) =>
      match jsonEncode (indexDocument w) with
      | inl e => Returns (Some e, iw0, logged om0 [CallJSONEncode (indexDocument w)])
      | inr doc =>
          match Write iw0 doc (logged om0 [CallJSONEncode (indexDocument w)]) with
          | Returns (_, err, iw1, om1) => Returns (err, iw1, om1)
          | Panics => Panics
          | NoFuel => NoFuel
          end
      end
  | Panics => Panics
  | NoFuel => NoFuel
  end.
Proof.
  unfold encodedIndexWriter, newWriter, indexWriter.
  fold (indexDocument w). unfold bind at 1 2 3.
  destruct (callNewSplitter om) as [[s om0]| |]; try reflexivity.
  destruct (initBuffer _ om0) as [[iw0 om1]| |]; try reflexivity.
  unfold Encode, bind, record.
  fold (logged om1 [CallJSONEncode (indexDocument w)]).
  destruct (jsonEncode (indexDocument w)) as [e|doc]; [reflexivity|].
  destruct (Write iw0 doc _) as [[[[n err] iw1] om2]| |]; reflexivity.
Qed.

Lemma filled_cons (w : objectWriter) (s : S) (d : byte) (rest : list byte) :
  filled (appended w d (snd (ShouldSplit s d))) (snd (ShouldSplit s d)) rest
  = filled w s (d :: rest).
Proof.
  unfold filled, appended, consulted. simpl. rewrite <- app_assoc. reflexivity.
Qed.

(** Bytes that the splitter does not cut before the last one all go into the
    buffer, and are flushed at the last byte or not at all. *)
Lemma writeLoop_uncut (doc : list byte) :
  forall (w : objectWriter) (s : S) (om : Manager),
    splitter w = Some s -> uncut s doc = true -> doc <> [] ->
    writeLoop w doc om = Returns (None, filled w s doc, om) \/
    writeLoop w doc om = flushBuffer (filled w s doc) om.
Proof.
  induction doc as [|d rest IH]; intros w s om Hs Hu Hne; [congruence|].
  rewrite writeLoop_cons, Hs. cbv zeta.
  destruct rest as [|d' rest'].
  - change (appended w d (snd (ShouldSplit s d))) with (filled w s [d]).
    destruct (fst (ShouldSplit s d)); [right|left; reflexivity].
    destruct (flushBuffer_total (filled w s [d]) om) as (err & w2 & om2 & o & E & _).
    rewrite E. destruct err; reflexivity.
  - cbn [uncut] in Hu. apply andb_true_iff in Hu as [Hd Hu].
    apply negb_true_iff in Hd. rewrite Hd.
    rewrite <- filled_cons. apply IH; [reflexivity|exact Hu|discriminate].
Qed.

(** A flush on an empty index, without compressor, of bytes that the content
    manager accepts. *)
Lemma flushBuffer_first_chunk (w : objectWriter) (om : Manager) (cid : contentID) :
  compressor w = None -> indirectIndex w = [] ->
  snd (WriteContent (contentMgr om) (buffer w) (prefix w)) = inr cid ->
  exists wF omF e,
    flushBuffer w om = Returns (None, wF, omF) /\
    indirectIndex wF = [e] /\ Object e = DirectObjectID cid /\ buffer wF = [].
Proof.
  intros Hc Hi Hwc. rewrite flushBuffer_eq. cbv zeta.
  unfold prepared. rewrite Hc, Hwc, Hi.
  eexists _, _, _. split; [reflexivity|]. repeat split.
Qed.

Lemma Result_single (fuel : nat) (w wf : objectWriter) (om omf : Manager)
    (e : indirectObjectEntry) :
  finalFlush w om = Returns (None, wf, omf) ->
  indirectIndex wf = [e] ->
  Result jsonEncode (Datatypes.S fuel) w om = Returns (Object e, None, wf, omf).
Proof. intros Ef He. rewrite Result_eq, Ef, He. reflexivity. Qed.

(** A document written in one [Write] into a new writer whose splitter does
    not cut it, and accepted by the content manager, is one chunk: the
    [Result] of that writer returns, with the direct identifier of the
    document's content. *)
Lemma Write_then_Result_single_chunk (iw : objectWriter) (s : S) (doc : list byte)
    (om : Manager) (cid : contentID) :
  splitter iw = Some s -> compressor iw = None ->
  buffer iw = [] -> indirectIndex iw = [] ->
  uncut s doc = true ->
  snd (WriteContent (contentMgr om) doc (prefix iw)) = inr cid ->
  exists iw1 om1 iw2 om2,
    Write iw doc om = Returns (len doc, None, iw1, om1) /\
    forall fuel,
      Result jsonEncode (Datatypes.S fuel) iw1 om1
        = Returns (DirectObjectID cid, None, iw2, om2).
Proof.
  intros Hs Hc Hb Hi Hu Hwc. rewrite Write_eq.
  set (iw0 := withTotalLength iw (wrap64 (totalLength iw + len doc))).
  assert (Hs0 : splitter iw0 = Some s) by exact Hs.
  assert (Hflush : forall x, compressor x = None -> indirectIndex x = [] ->
                     buffer x = doc -> prefix x = prefix iw ->
                     exists wF omF e,
                       flushBuffer x om = Returns (None, wF, omF) /\
                       indirectIndex wF = [e] /\ Object e = DirectObjectID cid /\
                       buffer wF = []).
  { intros x Hxc Hxi Hxb Hxp. apply flushBuffer_first_chunk; auto.
    rewrite Hxb, Hxp. exact Hwc. }
  assert (Hpending : forall x, compressor x = None -> indirectIndex x = [] ->
                       buffer x = doc -> prefix x = prefix iw ->
                       exists iw2 om2, forall fuel,
                         Result jsonEncode (Datatypes.S fuel) x om
                           = Returns (DirectObjectID cid, None, iw2, om2)).
  { intros x Hxc Hxi Hxb Hxp.
    destruct (Hflush x Hxc Hxi Hxb Hxp) as (wF & omF & e & Ef & He & Ho & _).
    exists wF, omF. intro fuel. rewrite <- Ho.
    apply Result_single; [|exact He].
    unfold finalFlush. replace (needsFlush x) with true; [exact Ef|].
    symmetry. apply needsFlush_true_iff. now right. }
  destruct doc as [|d rest].
  - rewrite writeLoop_nil.
    destruct (Hpending iw0) as (iw2 & om2 & Hr); auto.
    exists iw0, om, iw2, om2. split; [reflexivity|exact Hr].
  - destruct (writeLoop_uncut (d :: rest) iw0 s om Hs0 Hu) as [E|E]; [discriminate| |].
    + rewrite E.
      destruct (Hpending (filled iw0 s (d :: rest))) as (iw2 & om2 & Hr); auto.
      { cbn [filled withSplitter withBuffer buffer iw0 withTotalLength].
        rewrite Hb. reflexivity. }
      exists (filled iw0 s (d :: rest)), om, iw2, om2. split; [reflexivity|exact Hr].
    + destruct (Hflush (filled iw0 s (d :: rest))) as (wF & omF & e & Ef & He & Ho & HbF);
        auto.
      { cbn [filled withSplitter withBuffer buffer iw0 withTotalLength].
        rewrite Hb. reflexivity. }
      rewrite E, Ef. exists wF, omF, wF, omF. split; [reflexivity|].
      intro fuel. rewrite <- Ho. apply Result_single; [|exact He].
      unfold finalFlush. rewrite needsFlush_false; [reflexivity|exact HbF|].
      rewrite He. discriminate.
Qed.


(** C2: on the writer that any sequence of [Write] calls left, [Result] first
    flushes one more chunk exactly when bytes are pending or nothing was
    flushed yet (so the zero-byte stream gets one chunk of length 0); then,
    when the index holds exactly one entry, it returns that entry's identifier
    as it stands, which is not of the indirect variant (content identifiers do
    not begin with the indirect sigil); otherwise it returns
    [IndirectObjectID r], where [r] is the result of the nested writer: a new
    writer without compressor, under the same prefix, into which the bytes of
    the index document were written, so that what is said here holds of the
    nested writer in turn.  With several entries [Result] returns
    whenever that nested result does, and it does when the document makes a
    single chunk that the content manager accepts. *)
Theorem Result_finalizes (stream : list byte) (w : objectWriter) (om : Manager) :
  written stream w om ->
  exists err wf omf,
    finalFlush w om = Returns (err, wf, omf) /\
    (buffer w <> [] \/ indirectIndex w = [] ->
     flushBuffer w om = Returns (err, wf, omf) /\
     List.length (indirectIndex wf) = Datatypes.S (List.length (indirectIndex w))) /\
    (buffer w = [] /\ indirectIndex w <> [] ->
     err = None /\ wf = w /\ omf = om) /\
    (stream = [] ->
     flushBuffer w om = Returns (err, wf, omf) /\
     exists e, indirectIndex wf = [e] /\ Start e = 0 /\ Length e = 0) /\
    (forall e fuel,
       err = Some e ->
       Result jsonEncode (Datatypes.S fuel) w om = Returns ("", Some e, wf, omf)) /\
    (err = None ->
     (forall e fuel,
        indirectIndex wf = [e] ->
        Result jsonEncode (Datatypes.S fuel) w om = Returns (Object e, None, wf, omf) /\
        (plainContentIDs (prefix w) -> ~ isIndirect (Object e))) /\
     (List.length (indirectIndex wf) <> 1%nat ->
      forall doc,
        jsonEncode (indexDocument wf) = inr doc ->
        exists iw0 om0 n errw iw1 om1,
          newWriter None ("LIST(" ++ description w ++ ")")%string (prefix w) omf
            = Returns (iw0, om0) /\
          Write iw0 doc (logged om0 [CallJSONEncode (indexDocument wf)])
            = Returns (n, errw, iw1, om1) /\
          written doc iw1 om1 /\
          (forall fuel r iw2 om2,
             errw = None ->
             Result jsonEncode fuel iw1 om1 = Returns (r, None, iw2, om2) ->
             Result jsonEncode (Datatypes.S fuel) w om
               = Returns (IndirectObjectID r, None, wf, closedManager iw2 om2)) /\
          (forall fuel oid w' om',
             Result jsonEncode (Datatypes.S fuel) w om = Returns (oid, None, w', om') ->
             errw = None /\
             exists r iw2 om2,
               Result jsonEncode fuel iw1 om1 = Returns (r, None, iw2, om2) /\
               oid = IndirectObjectID r /\ w' = wf /\ om' = closedManager iw2 om2) /\
          (forall cid,
             uncut (newSplitter omf) doc = true ->
             snd (WriteContent (contentMgr omf) doc (prefix w)) = inr cid ->
             n = len doc /\ errw = None /\
             exists om', forall fuel,
               Result jsonEncode (Datatypes.S (Datatypes.S fuel)) w om
                 = Returns (IndirectObjectID (DirectObjectID cid), None, wf, om')))).
Proof.
  intros Hw.
  destruct (written_invariants _ _ _ Hw) as (_ & Hdirect & Hzero).
  destruct (finalFlush_total w om)
    as (err & wf & omf & E & (_ & Hpf & _ & Hdesc & _) & _ & _ & Hne).
  assert (Hflush : needsFlush w = true ->
                   flushBuffer w om = Returns (err, wf, omf) /\
                   exists o, indirectIndex wf
                             = indirectIndex w ++ [setObject o (placeholder w)]).
  { intro Hneed. unfold finalFlush in E. rewrite Hneed in E. split; [exact E|].
    destruct (flushBuffer_total w om) as (? & ? & ? & o & E1 & _ & _ & _ & _ & Hi & _).
    rewrite E in E1. injection E1 as <- <- <-. eauto. }
  exists err, wf, omf. split; [exact E|].
  split; [|split; [|split; [|split]]].
  - intro Hneed. apply needsFlush_true_iff in Hneed.
    destruct (Hflush Hneed) as (Ef & o & Hi). split; [exact Ef|].
    rewrite Hi, length_app. simpl. lia.
  - intros [Hb Hi]. unfold finalFlush in E.
    rewrite (needsFlush_false w Hb Hi) in E. injection E as <- <- <-. auto.
  - intro Hnil. destruct (Hzero Hnil) as (Hi & Hb & Hc).
    assert (Hneed : needsFlush w = true).
    { apply needsFlush_true_iff. right. exact Hi. }
    destruct (Hflush Hneed) as (Ef & o & Hix). split; [exact Ef|].
    rewrite Hix, Hi. eexists. split; [reflexivity|]. simpl.
    rewrite Hc, Hb. split; reflexivity.
  - intros e fuel ->. rewrite Result_eq, E. reflexivity.
  - intros ->. split.
    + intros e fuel He. split.
      * exact (Result_single fuel _ _ _ _ _ E He).
      * intros Hplain Hind. apply isIndirectb_spec in Hind.
        assert (Hd : directEntries wf).
        { unfold finalFlush in E. destruct (needsFlush w).
          - eapply flushBuffer_directEntries; [exact Hplain|exact (Hdirect Hplain)|exact E].
          - injection E as <- <-. exact (Hdirect Hplain). }
        unfold directEntries in Hd. rewrite He in Hd.
        inversion Hd; subst. congruence.
    + intros Hlen doc Hdoc. rewrite <- Hpf, <- Hdesc.
      assert (Hri : forall fuel,
                Result jsonEncode (Datatypes.S fuel) w om
                = resultIndirect (Result jsonEncode fuel) wf omf).
      { intro fuel. rewrite Result_eq, E.
        destruct (indirectIndex wf) as [|e [|e' l]]; auto.
        simpl in Hlen. congruence. }
      destruct (newWriter None ("LIST(" ++ description wf ++ ")")%string (prefix wf) omf)
        as [[iw0 om0]| |] eqn:En;
        try (rewrite newWriter_eq in En; discriminate).
      assert (Hs0 : splitter iw0 <> None).
      { rewrite newWriter_eq in En. injection En as <- _. simpl. discriminate. }
      destruct (writeLoop_total doc
                  (withTotalLength iw0 (wrap64 (totalLength iw0 + len doc)))
                  (logged om0 [CallJSONEncode (indexDocument wf)]) Hs0)
        as (errw & iw1 & om1 & El & _).
      assert (EW : Write iw0 doc (logged om0 [CallJSONEncode (indexDocument wf)])
                   = Returns (match errw with Some _ => 0 | None => len doc end,
                              errw, iw1, om1)).
      { rewrite Write_eq, El. destruct errw; reflexivity. }
      assert (Hind : forall fuel,
                Result jsonEncode (Datatypes.S fuel) w om
                = match errw with
                  | Some e =>
                      Returns ("", Some (Wrap e "unable to write indirect object index"),
                               wf, closedManager iw1 om1)
                  | None =>
                      match Result jsonEncode fuel iw1 om1 with
                      | Returns (oid, Some e, iw2, om2) =>
                          Returns ("", Some e, wf, closedManager iw2 om2)
                      | Returns (oid, None, iw2, om2) =>
                          Returns (IndirectObjectID oid, None, wf, closedManager iw2 om2)
                      | Panics => Panics
                      | NoFuel => NoFuel
                      end
                  end).
      { intro fuel. rewrite Hri, resultIndirect_eq, encodedIndexWriter_eq, En, Hdoc, EW.
        destruct errw; reflexivity. }
      eexists iw0, om0, _, errw, iw1, om1.
      split; [reflexivity|]. split; [exact EW|].
      split; [exact (written_Write _ _ _ _ _ _ _ _
                       (written_calls _ _ _ _ (written_new _ _ _ _ _ _ En)) EW)|].
      split; [|split].
      * intros fuel r iw2 om2 -> Hr. rewrite Hind, Hr. reflexivity.
      * intros fuel oid w' om' Hr. rewrite Hind in Hr.
        destruct errw as [e|]; [discriminate|]. split; [reflexivity|].
        destruct (Result jsonEncode fuel iw1 om1) as [[[[r [e|]] iw2] om2]| |];
          try discriminate.
        injection Hr as <- <- <-. eauto 10.
      * intros cid Hu Hwc.
        assert (Hiw : splitter iw0 = Some (newSplitter omf) /\ compressor iw0 = None /\
                      buffer iw0 = [] /\ indirectIndex iw0 = [] /\
                      prefix iw0 = prefix wf /\ contentMgr om0 = contentMgr omf).
        { rewrite newWriter_eq in En. injection En as <- <-. repeat split. }
        destruct Hiw as (H1 & H2 & H3 & H4 & H5 & H6).
        destruct (Write_then_Result_single_chunk iw0 (newSplitter omf) doc
                    (logged om0 [CallJSONEncode (indexDocument wf)]) cid H1 H2 H3 H4 Hu)
          as (iw1' & om1' & iw2 & om2 & EW' & ER).
        { cbn [logged contentMgr]. rewrite H5, H6. exact Hwc. }
        rewrite EW in EW'. injection EW' as Hn He <- <-.
        split; [exact Hn|]. split; [exact He|].
        exists (closedManager iw2 om2). intro fuel.
        rewrite Hind, He, ER. reflexivity.
Qed.

(** ** Two runs over one stream *)







(** ** More of [Write]: counters, chunks and the splitter *)

Lemma wrap64_add_l (a b : Z) : wrap64 (wrap64 a + b) = wrap64 (a + b).
Proof.
  unfold wrap64. f_equal.
  replace ((a + 2 ^ 63) mod 2 ^ 64 - 2 ^ 63 + b + 2 ^ 63)
    with ((a + 2 ^ 63) mod 2 ^ 64 + b) by lia.
  rewrite Zplus_mod_idemp_l. f_equal. lia.
Qed.

Lemma writeAll_totalLength (slices : list (list byte)) :
  forall (w : objectWriter) (om : Manager) w' om',
    splitter w <> None ->
    writeAll w slices om = Returns (None, w', om') ->
    totalLength w' = wrap64 (totalLength w + len (List.concat slices)) \/
    (slices = [] /\ totalLength w' = totalLength w).
Proof.
  induction slices as [|data rest IH]; intros w om w' om' Hs E.
  - injection E as <- <-. right. auto.
  - left. simpl in E. unfold bind in E. rewrite Write_eq in E.
    set (w0 := withTotalLength w (wrap64 (totalLength w + len data))) in *.
    destruct (writeLoop_total data w0 om Hs)
      as (err1 & w1 & om1 & El & (_ & _ & _ & _ & Ht) & Hs1 & _).
    rewrite El in E. destruct err1 as [e|]; [discriminate|].
    simpl List.concat. rewrite len_app.
    destruct (IH w1 om1 w' om' Hs1 E) as [X|[-> X]];
      rewrite X, Ht; subst w0; cbn [totalLength withTotalLength].
    + rewrite wrap64_add_l. apply (f_equal wrap64). lia.
    + apply (f_equal wrap64).
      change (len (List.concat (@nil (list byte)))) with 0. lia.
Qed.

(** X1: after any sequence of successful [Write] calls on a new writer,
    [totalLength] is the number of bytes written, and it is the cursor plus
    the bytes still in the buffer (for streams shorter than 2^63 bytes). *)
Theorem totalLength_counts_the_stream
    (comp : option Compressor) (desc : string) (pfx : contentID)
    (om0 om1 om : Manager) (w0 w : objectWriter) (slices : list (list byte)) :
  newWriter comp desc pfx om0 = Returns (w0, om1) ->
  writeAll w0 slices om1 = Returns (None, w, om) ->
  len (List.concat slices) < 2 ^ 63 ->
  totalLength w = len (List.concat slices) /\
  totalLength w = currentPosition w + len (buffer w).
Proof.
  intros Hnew Hw Hlt.
  rewrite newWriter_eq in Hnew. injection Hnew as <- <-.
  pose proof (len_nonneg (List.concat slices)) as Hge.
  match type of Hw with writeAll ?x _ ?y = _ =>
    assert (Hs0 : splitter x <> None) by (simpl; discriminate);
    assert (Hp0 : positioned 0 x) by (repeat split);
    destruct (writeAll_positioned slices 0 x y w om Hp0 ltac:(simpl; lia)
                ltac:(lia) Hw) as ((_ & Hc & Hn) & _);
    destruct (writeAll_totalLength slices x y w om Hs0 Hw) as [X|[Y X]]
  end.
  - cbn [totalLength] in X. rewrite wrap64_small in X by lia. split; lia.
  - cbn [totalLength] in X. rewrite Y in *.
    change (len (List.concat (@nil (list byte)))) with 0 in *. split; lia.
Qed.

Lemma consulted_app (s : S) (a b : list byte) :
  consulted s (a ++ b) = consulted (consulted s a) b.
Proof. unfold consulted. apply fold_left_app. Qed.

Lemma writeLoop_consulted (data : list byte) :
  forall (w : objectWriter) (om : Manager) (s : S) w' om',
    splitter w = Some s ->
    writeLoop w data om = Returns (None, w', om') ->
    splitter w' = Some (consulted s data).
Proof.
  induction data as [|d rest IH]; intros w om s w' om' Hs E.
  - injection E as <- <-. exact Hs.
  - rewrite writeLoop_cons, Hs in E. cbv zeta in E.
    change (consulted s (d :: rest))
      with (consulted (snd (ShouldSplit s d)) rest).
    destruct (fst (ShouldSplit s d)).
    + destruct (flushBuffer_total (appended w d (snd (ShouldSplit s d))) om)
        as (err & w2 & om2 & o & Ef & _ & Hs2 & _).
      rewrite Ef in E. destruct err as [e|]; [discriminate|].
      eapply IH; [|exact E]. rewrite Hs2. reflexivity.
    + eapply IH; [|exact E]. reflexivity.
Qed.

(** X2: the splitter is asked about every byte exactly once and in order:
    after successful [Write] calls on a new writer, whatever the slices and
    whatever was flushed, its state is the one reached by asking it about the
    bytes of the stream one after the other. *)
Theorem splitter_sees_every_byte
    (comp : option Compressor) (desc : string) (pfx : contentID)
    (om0 om1 om : Manager) (w0 w : objectWriter) (slices : list (list byte)) :
  newWriter comp desc pfx om0 = Returns (w0, om1) ->
  writeAll w0 slices om1 = Returns (None, w, om) ->
  splitter w = Some (consulted (newSplitter om0) (List.concat slices)).
Proof.
  intros Hnew Hw.
  rewrite newWriter_eq in Hnew. injection Hnew as <- <-.
  destruct (writeAll_as_loop _ _ _ _ _ Hw) as (x & Hl & Hx).
  apply writeLoop_consulted with (s := newSplitter om0) in Hl; [|reflexivity].
  apply (f_equal splitter) in Hx. simpl in Hx. rewrite <- Hx. exact Hl.
Qed.

Lemma storedPayloads_app (a b : list call) :
  storedPayloads (a ++ b) = storedPayloads a ++ storedPayloads b.
Proof.
  induction a as [|c a IH]; [reflexivity|].
  destruct c; simpl; rewrite ?IH; reflexivity.
Qed.

Lemma compressedInputs_app (a b : list call) :
  compressedInputs (a ++ b) = compressedInputs a ++ compressedInputs b.
Proof.
  induction a as [|c a IH]; [reflexivity|].
  destruct c; simpl; rewrite ?IH; reflexivity.
Qed.

Lemma chunkInputs_app (comp : option Compressor) (a b : list call) :
  chunkInputs comp (a ++ b) = chunkInputs comp a ++ chunkInputs comp b.
Proof.
  destruct comp; [apply compressedInputs_app|apply storedPayloads_app].
Qed.

(** One flush hands exactly the pending bytes, as one chunk, to the
    compressor or to the content manager. *)
Lemma flushBuffer_chunk (w : objectWriter) (om : Manager) err w' om' :
  flushBuffer w om = Returns (err, w', om') ->
  exists cs,
    calls om' = calls om ++ cs /\
    chunkInputs (compressor w) cs = [buffer w] /\
    map Length (indirectIndex w') = map Length (indirectIndex w) ++ [len (buffer w)].
Proof.
  rewrite flushBuffer_eq. cbv zeta. unfold prepared, compressCalls, chunkInputs.
  destruct (compressor w) as [c|].
  - destruct (c (buffer w)) as [e|out].
    + intros [= <- <- <-]. eexists. split; [reflexivity|]. split; [reflexivity|].
      simpl. now rewrite map_app.
    + destruct (len out <? len (buffer w));
        destruct (snd (WriteContent _ _ _)); intros [= <- <- <-];
        eexists; (split; [reflexivity|]); (split; [reflexivity|]);
        simpl; now rewrite map_app.
  - destruct (snd (WriteContent _ _ _)); intros [= <- <- <-];
      eexists; (split; [reflexivity|]); (split; [reflexivity|]);
      simpl; now rewrite map_app.
Qed.

Lemma writeLoop_chunks (data : list byte) :
  forall (w : objectWriter) (om : Manager) w' om',
    writeLoop w data om = Returns (None, w', om') ->
    exists cs,
      calls om' = calls om ++ cs /\
      List.concat (chunkInputs (compressor w) cs) ++ buffer w' = buffer w ++ data /\
      Forall (fun chunk => chunk <> []) (chunkInputs (compressor w) cs) /\
      map Length (indirectIndex w')
        = map Length (indirectIndex w) ++ map len (chunkInputs (compressor w) cs).
Proof.
  induction data as [|d rest IH]; intros w om w' om' E.
  - injection E as <- <-. exists []. rewrite !app_nil_r.
    destruct (compressor w); simpl; rewrite app_nil_r; repeat split; constructor.
  - rewrite writeLoop_cons in E.
    destruct (splitter w) as [s|]; [|discriminate]. cbv zeta in E.
    set (w1 := appended w d (snd (ShouldSplit s d))) in *.
    assert (Hb1 : buffer w1 = buffer w ++ [d]) by reflexivity.
    assert (Hc1 : compressor w1 = compressor w) by reflexivity.
    assert (Hi1 : indirectIndex w1 = indirectIndex w) by reflexivity.
    destruct (fst (ShouldSplit s d)).
    + destruct (flushBuffer_total w1 om)
        as (err & w2 & om2 & o & Ef & (Hc2 & _) & _ & _ & _ & _ & Hb2).
      rewrite Ef in E. destruct err as [e|]; [discriminate|].
      destruct (flushBuffer_chunk _ _ _ _ _ Ef) as (cs1 & E1 & Hch1 & Hix1).
      destruct (IH _ _ _ _ E) as (cs2 & E2 & Hcat & Hne & Hix2).
      rewrite Hc2, Hc1 in Hcat, Hne, Hix2. rewrite Hc1 in Hch1.
      rewrite (Hb2 eq_refl) in Hcat. simpl in Hcat.
      exists (cs1 ++ cs2). split; [rewrite E2, E1; now rewrite app_assoc|].
      rewrite chunkInputs_app, Hch1, Hb1. split; [|split].
      * simpl. rewrite <- !app_assoc. simpl. rewrite Hcat. reflexivity.
      * constructor; [|exact Hne]. intro X. now apply app_eq_nil in X as [_ X].
      * rewrite Hix2, Hix1, Hi1, Hb1. simpl. now rewrite <- app_assoc.
    + destruct (IH _ _ _ _ E) as (cs2 & E2 & Hcat & Hne & Hix2).
      rewrite Hc1 in Hcat, Hne, Hix2. rewrite Hb1 in Hcat.
      exists cs2. split; [exact E2|]. split; [|split; [exact Hne|exact Hix2]].
      rewrite Hcat, <- app_assoc. reflexivity.
Qed.

(** X3: no byte is lost, repeated or reordered on the way to storage.  After
    successful [Write] calls on a new writer and the last flush of [Result],
    the chunks handed over by the writer (to the compressor when one is
    configured, to the content manager otherwise), put end to end in the
    order of the calls, are exactly the bytes written; the index has one
    entry per chunk, with the length of that chunk; and unless the stream is
    empty no chunk is empty. *)
Theorem chunks_are_the_stream
    (comp : option Compressor) (desc : string) (pfx : contentID)
    (om0 om1 om omf : Manager) (w0 w wf : objectWriter)
    (slices : list (list byte)) (err : option error) :
  newWriter comp desc pfx om0 = Returns (w0, om1) ->
  writeAll w0 slices om1 = Returns (None, w, om) ->
  finalFlush w om = Returns (err, wf, omf) ->
  exists cs,
    calls omf = calls om1 ++ cs /\
    List.concat (chunkInputs comp cs) = List.concat slices /\
    map Length (indirectIndex wf) = map len (chunkInputs comp cs) /\
    (List.concat slices <> [] ->
     Forall (fun chunk => chunk <> []) (chunkInputs comp cs)).
Proof.
  intros Hnew Hw Hf.
  rewrite newWriter_eq in Hnew. injection Hnew as <- <-.
  destruct (writeAll_as_loop _ _ _ _ _ Hw) as (x & Hl & Hx).
  destruct (writeLoop_chunks _ _ _ _ _ Hl) as (cs & Ecs & Hcat & Hne & Hix).
  cbn [compressor buffer indirectIndex] in Hcat, Hne, Hix. simpl in Hcat, Hix.
  assert (Hbx : buffer x = buffer w) by (apply (f_equal buffer) in Hx; exact Hx).
  assert (Hixw : indirectIndex x = indirectIndex w)
    by (apply (f_equal indirectIndex) in Hx; exact Hx).
  assert (Hcx : compressor w = comp).
  { apply (f_equal compressor) in Hx. simpl in Hx. rewrite <- Hx.
    match type of Hl with writeLoop ?a _ ?b = _ =>
      destruct (writeLoop_total (List.concat slices) a b)
        as (? & ? & ? & El & (Hc & _) & _); [simpl; discriminate|]
    end.
    rewrite Hl in El. injection El as _ <- _. exact Hc. }
  rewrite Hbx in Hcat. rewrite Hixw in Hix.
  unfold finalFlush in Hf. destruct (needsFlush w) eqn:Hneed.
  - destruct (flushBuffer_chunk _ _ _ _ _ Hf) as (cs2 & E2 & Hch2 & Hix2).
    rewrite Hcx in Hch2.
    exists (cs ++ cs2). split; [rewrite E2, Ecs; now rewrite app_assoc|].
    rewrite chunkInputs_app, Hch2, concat_app. simpl. rewrite app_nil_r.
    split; [exact Hcat|]. split; [rewrite Hix2, Hix, map_app; reflexivity|].
    intro Hnonempty. apply Forall_app. split; [exact Hne|].
    constructor; [|constructor]. intro Hb. rewrite Hb, app_nil_r in Hcat.
    apply needsFlush_true_iff in Hneed. destruct Hneed as [X|X]; [congruence|].
    rewrite X in Hix. simpl in Hix.
    destruct (chunkInputs comp cs); [|discriminate].
    simpl in Hcat. congruence.
  - injection Hf as <- <- <-.
    exists cs. split; [exact Ecs|].
    unfold needsFlush in Hneed. apply orb_false_iff in Hneed as [Hb _].
    apply Z.ltb_ge in Hb. unfold len in Hb.
    destruct (buffer w) eqn:Eb; [|simpl in Hb; lia].
    rewrite app_nil_r in Hcat. split; [exact Hcat|].
    split; [exact Hix|]. intros _. exact Hne.
Qed.

(** X4: two [Write] calls are one [Write] of the concatenated slices: when
    the first call succeeds, writing [a] and then [b] leaves the writer and
    the manager exactly as writing [a ++ b] at once does (the length counter
    included), and a failure in [b] is the failure of the single call, which
    then reports 0 bytes although the first of the two calls reported all of
    [a]. *)
Theorem Write_of_concatenation (w w1 w2 : objectWriter) (om om1 om2 : Manager)
    (a b : list byte) (na nb : Z) (err : option error) :
  Write w a om = Returns (na, None, w1, om1) ->
  Write w1 b om1 = Returns (nb, err, w2, om2) ->
  na = len a /\
  Write w (a ++ b) om
    = Returns (match err with Some _ => 0 | None => na + nb end, err, w2, om2).
Proof.
  rewrite !Write_eq, !writeLoop_withTotalLength, writeLoop_app.
  destruct (writeLoop w a om) as [[[[e|] x] ox]| |] eqn:Ea; try discriminate.
  simpl relabel. intros [= <- <- <-]. rewrite !writeLoop_withTotalLength.
  cbn [totalLength withTotalLength]. rewrite wrap64_add_l, len_app.
  replace (totalLength w + len a + len b) with (totalLength w + (len a + len b)) by lia.
  destruct (writeLoop x b ox) as [[[[e|] y] oy]| |]; simpl relabel;
    try discriminate; intros [= <- <- <- <-]; (split; [reflexivity|]);
    reflexivity.
Qed.

(** ** Buffers *)

Lemma held_app (n : Z) (a b : list call) : held n (a ++ b) = held n a + held n b.
Proof.
  induction a as [|c a IH]; [reflexivity|].
  destruct c; simpl; rewrite ?IH; lia.
Qed.

Lemma balanced_refl om : balanced om om.
Proof. exists []. split; [now rewrite app_nil_r|reflexivity]. Qed.

Lemma balanced_trans om1 om2 om3 :
  balanced om1 om2 -> balanced om2 om3 -> balanced om1 om3.
Proof.
  intros (a & Ea & Ha) (b & Eb & Hb). exists (a ++ b). split.
  - now rewrite Eb, Ea, app_assoc.
  - intro n. rewrite held_app, Ha, Hb. reflexivity.
Qed.

Lemma flushBuffer_balanced (w : objectWriter) (om : Manager) err w' om' :
  flushBuffer w om = Returns (err, w', om') -> balanced om om'.
Proof.
  rewrite flushBuffer_eq. cbv zeta. unfold compressCalls.
  destruct (prepared _ _) as [[data isC]|e]; [destruct (snd (WriteContent _ _ _))|];
    intros [= <- <- <-]; eexists; (split; [reflexivity|]); intro n;
    destruct (compressor w); simpl; destruct (len (buffer w) =? n); reflexivity.
Qed.

Lemma writeLoop_balanced (data : list byte) :
  forall (w : objectWriter) (om : Manager) err w' om',
    writeLoop w data om = Returns (err, w', om') -> balanced om om'.
Proof.
  induction data as [|d rest IH]; intros w om err w' om' E.
  - injection E as <- <- <-. apply balanced_refl.
  - rewrite writeLoop_cons in E.
    destruct (splitter w) as [s|]; [|discriminate]. cbv zeta in E.
    destruct (fst (ShouldSplit s d)); [|exact (IH _ _ _ _ _ E)].
    destruct (flushBuffer _ om) as [[[[e|] w2] om2]| |] eqn:Ef; try discriminate.
    + injection E as <- <- <-. exact (flushBuffer_balanced _ _ _ _ _ Ef).
    + eapply balanced_trans; [exact (flushBuffer_balanced _ _ _ _ _ Ef)|].
      exact (IH _ _ _ _ _ E).
Qed.

Lemma Result_balanced (fuel : nat) :
  forall (w : objectWriter) (om : Manager) r w' om',
    Result jsonEncode fuel w om = Returns (r, w', om') -> balanced om om'.
Proof.
  induction fuel as [|fuel IH]; intros w om r w' om' E; [discriminate|].
  rewrite Result_eq in E.
  destruct (finalFlush w om) as [[[err wf] omf]| |] eqn:Ef; try discriminate.
  assert (X : balanced om omf).
  { unfold finalFlush in Ef. destruct (needsFlush w).
    - exact (flushBuffer_balanced _ _ _ _ _ Ef).
    - injection Ef as <- <- <-. apply balanced_refl. }
  destruct err as [e|]; [injection E as <- <- <-; exact X|].
  assert (Y : forall r w' om',
             resultIndirect (Result jsonEncode fuel) wf omf = Returns (r, w', om') ->
             balanced omf om').
  { clear E. intros r0 w0' om0' E. rewrite resultIndirect_eq in E.
    unfold encodedIndexWriter, bind, callNewSplitter in E.
    fold (logged omf [CallNewSplitter]) in E. simpl initBuffer in E.
    unfold bind, Allocate, bind, record, ret in E. simpl in E.
    rewrite Encode_eq in E.
    match type of E with context [CallJSONEncode ?d] => set (doc := d) in * end.
    match type of E with context [logged ?o [CallJSONEncode doc]] =>
      set (omi := o) in * end.
    set (mss := MaxSegmentSize (newSplitter omf)) in *.
    (* the nested writer holds its buffer until its close *)
    assert (Hopen : forall om1 om2,
              balanced (logged omi [CallJSONEncode doc]) om1 ->
              balanced om1 om2 ->
              forall iw, buf iw = {| Data := Some mss |} ->
              balanced omf (closedManager iw om2)).
    { intros om1 om2 (a & Ea & Ha) (b & Eb & Hb) iw Hbuf.
      exists ([CallNewSplitter; CallAllocate mss; CallJSONEncode doc] ++ a ++ b
                ++ [CallRelease mss] ++ splitterCloseCalls (splitter iw)).
      split.
      - unfold closedManager, releaseCalls. simpl. rewrite Hbuf, Eb, Ea. simpl.
        subst omi. simpl. now rewrite <- !app_assoc.
      - intro n. simpl. rewrite !held_app, Ha, Hb. simpl.
        unfold splitterCloseCalls. destruct (splitter iw); simpl;
          destruct (mss =? n); reflexivity. }
    destruct (jsonEncode doc) as [e|b].
    - injection E as <- <- <-.
      eapply Hopen; [apply balanced_refl|apply balanced_refl|reflexivity].
    - match type of E with context [writeLoop ?iw b ?o] =>
        destruct (writeLoop_total b iw o) as (err1 & iw1 & om1 & El & (_ & _ & Hb1 & _) & _);
        [simpl; discriminate|];
        pose proof (writeLoop_balanced b iw o _ _ _ El) as X3
      end.
      rewrite El in E. simpl in Hb1.
      destruct err1 as [e|].
      + injection E as <- <- <-.
        eapply Hopen; [exact X3|apply balanced_refl|exact Hb1].
      + destruct (Result jsonEncode fuel iw1 om1) as [[[[oid err2] iw2] om2]| |] eqn:Er;
          try discriminate.
        pose proof (IH _ _ _ _ _ Er) as X5.
        destruct (Result_config _ _ _ _ _ _ Er) as ((_ & _ & Hb2 & _) & _).
        destruct err2; injection E as <- <- <-;
          (eapply Hopen; [exact X3|exact X5|congruence]). }
  destruct (indirectIndex wf) as [|e [|e' l]].
  - eapply balanced_trans; [exact X|]. eapply Y. exact E.
  - injection E as <- <- <-. exact X.
  - eapply balanced_trans; [exact X|]. eapply Y. exact E.
Qed.

(** X5: no buffer leaks.  Whatever [Write] or [Result] returns, error or not,
    the calls it made on the buffer pool pair up: for every size, as many
    buffers were released as were allocated (the compression buffers of the
    flushes, and in [Result] the accumulation buffers of the nested writers
    at every depth). *)
Theorem Write_and_Result_release_their_buffers
    (w : objectWriter) (om : Manager) :
  (forall data n err w' om',
     Write w data om = Returns (n, err, w', om') ->
     exists cs, calls om' = calls om ++ cs /\ forall size, held size cs = 0) /\
  (forall fuel oid err w' om',
     Result jsonEncode fuel w om = Returns (oid, err, w', om') ->
     exists cs, calls om' = calls om ++ cs /\ forall size, held size cs = 0).
Proof.
  split.
  - intros data n err w' om' E. rewrite Write_eq in E.
    destruct (writeLoop _ data om) as [[[[e|] x] ox]| |] eqn:El; try discriminate;
      injection E as _ _ <- <-; exact (writeLoop_balanced _ _ _ _ _ _ El).
  - intros fuel oid err w' om' E. exact (Result_balanced _ _ _ _ _ _ E).
Qed.

(** ** A failing compressor *)

(** X6: when the compressor fails on the pending bytes, the flush returns the
    compression error wrapped twice and never reaches storage: the content
    manager is not called and keeps its state, and the compression buffer is
    released.  The accumulation buffer keeps its bytes, although the index
    already holds an entry for them (with no identifier) and the cursor has
    moved past them; [Result] on such a writer returns the empty identifier
    with that error. *)
Theorem flushBuffer_compression_failure (w : objectWriter) (om : Manager)
    (c : Compressor) (e : error) :
  compressor w = Some c ->
  c (buffer w) = inl e ->
  let err := Wrap (Wrap e "compression error") "unable to prepare content bytes" in
  exists w' om',
    flushBuffer w om = Returns (Some err, w', om') /\
    contentMgr om' = contentMgr om /\
    calls om' = calls om ++ [CallAllocate (len (buffer w)); CallCompress (buffer w);
                             CallRelease (len (buffer w))] /\
    buffer w' = buffer w /\
    indirectIndex w' = indirectIndex w
                         ++ [{| Start := currentPosition w;
                                Length := len (buffer w); Object := "" |}] /\
    currentPosition w' = wrap64 (currentPosition w + len (buffer w)) /\
    (needsFlush w = true ->
     forall fuel,
       Result jsonEncode (Datatypes.S fuel) w om = Returns ("", Some err, w', om')).
Proof.
  intros Hc He err.
  assert (Ef : flushBuffer w om
               = Returns (Some err, opened w,
                          logged om [CallAllocate (len (buffer w));
                                     CallCompress (buffer w);
                                     CallRelease (len (buffer w))])).
  { rewrite flushBuffer_eq. cbv zeta. unfold prepared, compressCalls.
    rewrite Hc, He. reflexivity. }
  eexists _, _. split; [exact Ef|]. repeat split.
  intros Hneed fuel. rewrite Result_eq. unfold finalFlush. rewrite Hneed, Ef.
  reflexivity.
Qed.

(** ** [Result], called again *)

Lemma Result_newSplitter (fuel : nat) :
  forall (w : objectWriter) (om : Manager) r w' om',
    Result jsonEncode fuel w om = Returns (r, w', om') ->
    newSplitter om' = newSplitter om.
Proof.
  induction fuel as [|fuel IH]; intros w om r w' om' E; [discriminate|].
  rewrite Result_eq in E.
  destruct (finalFlush_total w om) as (err & wf & omf & Ef & _ & _ & Hn & _).
  rewrite Ef in E.
  destruct err as [e|]; [injection E as _ _ <-; exact Hn|].
  assert (Y : forall r w' om',
             resultIndirect (Result jsonEncode fuel) wf omf = Returns (r, w', om') ->
             newSplitter om' = newSplitter omf).
  { clear E. intros r0 w0' om0' E. rewrite resultIndirect_eq in E.
    unfold encodedIndexWriter, bind, callNewSplitter in E.
    simpl initBuffer in E. unfold bind, Allocate, bind, record, ret in E.
    simpl in E. rewrite Encode_eq in E.
    match type of E with context [jsonEncode ?d] => destruct (jsonEncode d) as [e|b] end.
    - now injection E as _ _ <-.
    - match type of E with context [writeLoop ?iw b ?o] =>
        destruct (writeLoop_total b iw o) as (err1 & iw1 & om1 & El & _ & _ & Hn1);
        [simpl; discriminate|]
      end.
      rewrite El in E. simpl in Hn1.
      destruct err1 as [e|]; [injection E as _ _ <-; exact Hn1|].
      destruct (Result jsonEncode fuel iw1 om1) as [[[[oid err2] iw2] om2]| |] eqn:Er;
        try discriminate.
      pose proof (IH _ _ _ _ _ Er) as Hn2.
      destruct err2; injection E as _ _ <-; simpl; congruence. }
  destruct (indirectIndex wf) as [|e [|e' l]].
  - rewrite (Y _ _ _ E). exact Hn.
  - injection E as _ _ <-. exact Hn.
  - rewrite (Y _ _ _ E). exact Hn.
Qed.

(** A successful [Result] leaves nothing to flush. *)
Lemma Result_leaves_flushed (fuel : nat) (w : objectWriter) (om : Manager)
    oid w' om' :
  Result jsonEncode fuel w om = Returns (oid, None, w', om') ->
  exists omf,
    finalFlush w om = Returns (None, w', omf) /\ needsFlush w' = false.
Proof.
  intro E. destruct fuel as [|fuel]; [discriminate|].
  destruct (Result_writer _ _ _ _ _ _ E) as (err & omf & Ef).
  rewrite Result_eq, Ef in E.
  destruct err as [e|]; [discriminate|].
  exists omf. split; [exact Ef|].
  unfold finalFlush in Ef. destruct (needsFlush w) eqn:Hneed.
  - destruct (flushBuffer_total w om) as (? & ? & ? & o & E1 & _ & _ & _ & _ & Hi & Hb).
    rewrite Ef in E1. injection E1 as <- <- <-.
    apply needsFlush_false; [exact (Hb eq_refl)|].
    rewrite Hi. intro X. now apply app_eq_nil in X as [_ X].
  - now injection Ef as <- _.
Qed.

(** X7: [Result] can be asked again.  After a successful [Result] nothing is
    left to flush; when the object has a single chunk a second call returns
    the same identifier without touching any collaborator, and in every case
    a second successful call returns the same identifier and leaves the
    writer unchanged, provided the content manager deduplicates (the index
    document is written once more). *)
Theorem Result_again (fuel : nat) (w w' : objectWriter) (om om' : Manager)
    (oid : ID) :
  Result jsonEncode fuel w om = Returns (oid, None, w', om') ->
  needsFlush w' = false /\
  (forall e fuel',
     indirectIndex w' = [e] ->
     Result jsonEncode (Datatypes.S fuel') w' om' = Returns (oid, None, w', om')) /\
  (deduplicating ->
   forall fuel2 oid2 w2 om2,
     Result jsonEncode fuel2 w' om' = Returns (oid2, None, w2, om2) ->
     oid2 = oid /\ w2 = w').
Proof.
  intro E.
  destruct (Result_leaves_flushed _ _ _ _ _ _ E) as (omf & Ef & Hneed).
  assert (Ef' : forall o, finalFlush w' o = Returns (None, w', o)).
  { intro o. unfold finalFlush. rewrite Hneed. reflexivity. }
  destruct fuel as [|fuel]; [discriminate|].
  assert (E1 : Result jsonEncode (Datatypes.S fuel) w' omf = Returns (oid, None, w', om')).
  { rewrite Result_eq, Ef'. rewrite Result_eq, Ef in E. exact E. }
  split; [exact Hneed|]. split.
  - intros e fuel' He. rewrite Result_eq, Ef', He.
    rewrite Result_eq, Ef', He in E1. injection E1 as <- <-.
    reflexivity.
  - intros Hd fuel2 oid2 w2 om2 E2.
    pose proof (Result_newSplitter _ _ _ _ _ _ E1) as Hn.
    destruct (Result_det (Datatypes.S fuel) Hd fuel2 w' omf om' _ _ _ _ _ _
                (eq_sym Hn) E1 E2) as (X & Y).
    auto.
Qed.

(** ** The empty object *)

(** X8: [Result] on a new writer that was given no byte stores one empty
    content and returns the identifier of that content as a direct
    identifier: whatever compressor is configured (as long as it does not
    fail), the compressed wrapper is not applied and no index document is
    written; the index has a single entry of length 0, and the content
    manager is called exactly once, with the empty payload.  The identifier
    is not of the indirect variant when the content identifiers issued under
    the prefix do not begin with the indirect sigil. *)
Theorem Result_of_empty_stream
    (comp : option Compressor) (desc : string) (pfx : contentID)
    (om0 om1 : Manager) (w0 : objectWriter) (cid : contentID) :
  newWriter comp desc pfx om0 = Returns (w0, om1) ->
  reliable comp ->
  snd (WriteContent (contentMgr om0) [] pfx) = inr cid ->
  forall fuel, exists w' om' cs,
    Result jsonEncode (Datatypes.S fuel) w0 om1
      = Returns (DirectObjectID cid, None, w', om') /\
    DirectObjectID cid <> Compressed (DirectObjectID cid) /\
    (plainContentIDs pfx -> ~ isIndirect (DirectObjectID cid)) /\
    indirectIndex w' = [{| Start := 0; Length := 0; Object := DirectObjectID cid |}] /\
    calls om' = calls om1 ++ cs /\
    storedPayloads cs = [[]] /\
    (forall ind, ~ In (CallJSONEncode ind) cs).
Proof.
  intros Hnew Hrel Hwc fuel.
  rewrite newWriter_eq in Hnew. injection Hnew as <- <-.
  assert (Hp : prepared comp (@nil byte) = inl ([], false)).
  { unfold prepared. destruct comp as [c|]; [|reflexivity].
    destruct (Hrel c [] eq_refl) as (out & ->).
    destruct (len out <? len (@nil byte)) eqn:E; [|reflexivity].
    apply Z.ltb_lt in E. pose proof (len_nonneg out).
    change (len (@nil byte)) with 0 in E. lia. }
  rewrite Result_eq. unfold finalFlush, needsFlush. cbn [buffer indirectIndex].
  change (len (@nil indirectObjectEntry) =? 0) with true. rewrite orb_true_r.
  rewrite flushBuffer_eq. cbv zeta. cbn [compressor buffer prefix indirectIndex].
  rewrite Hp. cbn [contentMgr logged]. rewrite Hwc.
  cbn [indirectIndex withIndirectIndex app].
  eexists _, _, _. split; [reflexivity|].
  split; [intro X; symmetry in X; exact (Compressed_neq _ X)|].
  split.
  { intros Hplain Hind. apply isIndirectb_spec in Hind.
    unfold DirectObjectID in Hind.
    rewrite (Hplain (contentMgr om0) [] cid Hwc) in Hind. discriminate. }
  split; [reflexivity|]. split; [reflexivity|].
  split; [destruct comp; reflexivity|].
  intros ind. destruct comp; cbn; intuition discriminate.
Qed.

End Properties.

(** * Properties of the other parts *)

(** ** Maps *)

Section GoMapFacts.

Context {V : Type}.
Implicit Types (m : GoMap.t V) (k : string) (v : V).

Lemma GoMap_lookup_nil k : GoMap.lookup k (@nil (string * V)) = None.
Proof. reflexivity. Qed.

Lemma GoMap_lookup_cons k k' v m :
  GoMap.lookup k ((k', v) :: m) = if String.eqb k' k then Some v else GoMap.lookup k m.
Proof.
  unfold GoMap.lookup. cbn [find fst]. destruct (String.eqb k' k); reflexivity.
Qed.

Lemma GoMap_lookup_delete k k' m :
  GoMap.lookup k (GoMap.delete k' m) = if String.eqb k' k then None else GoMap.lookup k m.
Proof.
  induction m as [|[a v] m IH].
  - destruct (String.eqb k' k); reflexivity.
  - unfold GoMap.delete. cbn [filter fst]. fold (GoMap.delete k' m).
    destruct (String.eqb a k') eqn:Ea; cbn [negb].
    + apply String.eqb_eq in Ea. subst a. rewrite IH, GoMap_lookup_cons.
      destruct (String.eqb k' k); reflexivity.
    + rewrite !GoMap_lookup_cons, IH.
      destruct (String.eqb a k) eqn:Eb; [|reflexivity].
      apply String.eqb_eq in Eb. subst a.
      rewrite String.eqb_sym, Ea. reflexivity.
Qed.

Lemma GoMap_lookup_store k k' v m :
  GoMap.lookup k (GoMap.store k' v m) = if String.eqb k' k then Some v else GoMap.lookup k m.
Proof.
  unfold GoMap.store. rewrite GoMap_lookup_cons, GoMap_lookup_delete.
  destruct (String.eqb k' k); reflexivity.
Qed.

Lemma GoMap_lookup_keys k m : GoMap.lookup k m <> None <-> In k (GoMap.keys m).
Proof.
  induction m as [|[a v] m IH]; [simpl; tauto|].
  rewrite GoMap_lookup_cons. cbn [GoMap.keys map fst In].
  destruct (String.eqb a k) eqn:E.
  - apply String.eqb_eq in E. split; [auto|discriminate].
  - apply String.eqb_neq in E. fold (GoMap.keys m). rewrite IH. tauto.
Qed.

Lemma GoMap_keys_delete k k' m :
  In k (GoMap.keys (GoMap.delete k' m)) <-> In k (GoMap.keys m) /\ k <> k'.
Proof.
  rewrite <- !GoMap_lookup_keys, GoMap_lookup_delete.
  destruct (String.eqb k' k) eqn:E.
  - apply String.eqb_eq in E. split; [congruence|]. intros [_ X]. congruence.
  - apply String.eqb_neq in E. split; [intro; split; congruence|tauto].
Qed.

Lemma GoMap_NoDup_delete k m :
  NoDup (GoMap.keys m) -> NoDup (GoMap.keys (GoMap.delete k m)).
Proof.
  induction m as [|[a v] m IH]; [auto|].
  cbn [GoMap.keys map fst]. fold (GoMap.keys m). intro H.
  apply NoDup_cons_iff in H as [Hn Hd].
  unfold GoMap.delete. cbn [filter fst]. fold (GoMap.delete k m).
  destruct (String.eqb a k); cbn [negb]; [auto|].
  cbn [GoMap.keys map fst]. fold (GoMap.keys (GoMap.delete k m)).
  apply NoDup_cons; [|auto].
  rewrite GoMap_keys_delete. tauto.
Qed.

Lemma GoMap_NoDup_store k v m :
  NoDup (GoMap.keys m) -> NoDup (GoMap.keys (GoMap.store k v m)).
Proof.
  intro H. unfold GoMap.store. cbn [GoMap.keys map fst].
  fold (GoMap.keys (GoMap.delete k m)).
  apply NoDup_cons; [|now apply GoMap_NoDup_delete].
  rewrite GoMap_keys_delete. tauto.
Qed.

Lemma GoMap_keys_store k k' v m :
  In k (GoMap.keys (GoMap.store k' v m)) <-> k = k' \/ In k (GoMap.keys m).
Proof.
  unfold GoMap.store. cbn [GoMap.keys map fst In].
  fold (GoMap.keys (GoMap.delete k' m)). rewrite GoMap_keys_delete.
  destruct (string_dec k k'); intuition congruence.
Qed.

End GoMapFacts.

(** ** The content tracker *)

Lemma Tracker_addAll_contents (ids : list contentID) (t : Tracker.contentIDTracker) :
  ids <> [] ->
  exists m,
    Tracker.contents (Tracker.addAll ids t) = Some m /\
    (NoDup (GoMap.keys (match Tracker.contents t with Some m0 => m0 | None => [] end)) ->
     NoDup (GoMap.keys m)) /\
    (forall id, In id (GoMap.keys m) <->
                In id ids \/
                In id (GoMap.keys (match Tracker.contents t with Some m0 => m0 | None => [] end))).
Proof.
  revert t. induction ids as [|a ids IH]; intros t Hne; [congruence|].
  unfold Tracker.addAll. cbn [fold_left]. fold (Tracker.addAll ids (Tracker.addContentID a t)).
  set (m0 := match Tracker.contents t with Some m0 => m0 | None => [] end).
  destruct ids as [|b ids'].
  - exists (GoMap.store a true m0). split; [reflexivity|]. split.
    + apply GoMap_NoDup_store.
    + intro id. rewrite GoMap_keys_store. simpl. intuition congruence.
  - destruct (IH (Tracker.addContentID a t)) as (m & Hm & Hnd & Hin); [discriminate|].
    cbn [Tracker.addContentID Tracker.contents] in Hnd, Hin. fold m0 in Hnd, Hin.
    exists m. split; [exact Hm|]. split.
    + intro H. apply Hnd. now apply GoMap_NoDup_store.
    + intro id. rewrite Hin, GoMap_keys_store. cbn [In]. intuition congruence.
Qed.

(** X9: the tracker reports every identifier once.  Whatever the order in
    which the runtime ranges over the map, [contentIDs] after any sequence of
    [addContentID] calls on the zero tracker (whose map is nil) has no
    duplicates and holds exactly the identifiers that were added; on the
    zero tracker itself it is empty. *)
Theorem contentIDs_are_the_added_ids
    (range : GoMap.t bool -> GoMap.t bool) (ids : list contentID) :
  Tracker.iteration range ->
  NoDup (Tracker.contentIDs range (Tracker.addAll ids Tracker.zero)) /\
  (forall id, In id (Tracker.contentIDs range (Tracker.addAll ids Tracker.zero))
              <-> In id ids) /\
  Tracker.contentIDs range Tracker.zero = [].
Proof.
  intro Hr. split; [|split]; [| |reflexivity].
  - destruct ids as [|a ids]; [constructor|].
    destruct (Tracker_addAll_contents (a :: ids) Tracker.zero) as (m & Hm & Hnd & _);
      [discriminate|].
    unfold Tracker.contentIDs. rewrite Hm.
    apply (Permutation_NoDup (l := GoMap.keys m)).
    + apply Permutation_sym, Permutation_map, Hr.
    + apply Hnd. constructor.
  - intro id. destruct ids as [|a ids]; [simpl; tauto|].
    destruct (Tracker_addAll_contents (a :: ids) Tracker.zero) as (m & Hm & _ & Hin);
      [discriminate|].
    unfold Tracker.contentIDs. rewrite Hm.
    assert (P : Permutation (map fst (range m)) (GoMap.keys m))
      by apply Permutation_map, Hr.
    split.
    + intro H. apply (Permutation_in _ P) in H. apply Hin in H.
      destruct H as [H|H]; [exact H|destruct H].
    + intro H. apply (Permutation_in _ (Permutation_sym P)). apply Hin. auto.
Qed.

(** ** The metadata cache *)

Lemma B2Cache_Add_ring (id : string) (obj : B2Cache.objectPtr) (now : B2Cache.Time)
    (c c' : B2Cache.b2Cache) :
  B2Cache.Add id obj now c = Returns c' ->
  List.length (B2Cache.ring c') = List.length (B2Cache.ring c).
Proof.
  unfold B2Cache.Add. destruct (B2Cache.ring c) as [|v rest]; [discriminate|].
  intros [= <-]. cbn [B2Cache.ring]. unfold B2Cache.setAndNext.
  rewrite length_app. simpl. lia.
Qed.

Lemma B2Cache_Add_coherent (id : string) (obj : B2Cache.objectPtr) (now : B2Cache.Time)
    (c c' : B2Cache.b2Cache) :
  B2Cache.coherent c ->
  B2Cache.Add id obj now c = Returns c' ->
  B2Cache.coherent c'.
Proof.
  intros [Hnd Hin]. unfold B2Cache.Add.
  destruct (B2Cache.ring c) as [|v rest] eqn:Er; [discriminate|].
  intros [= <-]. unfold B2Cache.coherent. cbn [B2Cache.entries B2Cache.ring].
  split.
  - apply GoMap_NoDup_store. destruct v; [apply GoMap_NoDup_delete|]; exact Hnd.
  - intros k Hk. unfold B2Cache.setAndNext. apply in_or_app.
    apply GoMap_keys_store in Hk as [->|Hk]; [right; left; reflexivity|].
    left. destruct v as [old|].
    + apply GoMap_keys_delete in Hk as [Hk Hne].
      destruct (Hin k Hk) as [X|X]; [congruence|exact X].
    + destruct (Hin k Hk) as [X|X]; [discriminate|exact X].
Qed.

Lemma B2Cache_Get_coherent (id : string) (now : B2Cache.Time) (c : B2Cache.b2Cache) :
  B2Cache.coherent c ->
  B2Cache.coherent (snd (B2Cache.Get id now c)) /\
  B2Cache.ring (snd (B2Cache.Get id now c)) = B2Cache.ring c.
Proof.
  intros [Hnd Hin]. unfold B2Cache.Get.
  destruct (GoMap.lookup id (B2Cache.entries c)) as [entry|]; [|split; [split|]; auto].
  destruct (B2Cache.ts entry <? now - B2Cache.Minute); [|split; [split|]; auto].
  cbn [snd B2Cache.ring]. split; [|reflexivity].
  split; cbn [B2Cache.entries B2Cache.ring].
  - now apply GoMap_NoDup_delete.
  - intros k Hk. apply GoMap_keys_delete in Hk as [Hk _]. auto.
Qed.

Lemma B2Cache_run_coherent (xs : list B2Cache.op) :
  forall c c',
    B2Cache.coherent c ->
    B2Cache.run xs c = Returns c' ->
    B2Cache.coherent c' /\
    List.length (B2Cache.ring c') = List.length (B2Cache.ring c).
Proof.
  induction xs as [|x xs IH]; intros c c' Hc E.
  - injection E as <-. auto.
  - cbn [B2Cache.run] in E. destruct x as [id obj now|id now]; cbn [B2Cache.step] in E.
    + destruct (B2Cache.Add id obj now c) as [c1| |] eqn:Ea; try discriminate.
      destruct (IH c1 c' (B2Cache_Add_coherent _ _ _ _ _ Hc Ea) E) as [H1 H2].
      split; [exact H1|]. rewrite H2. eapply B2Cache_Add_ring; eauto.
    + destruct (B2Cache_Get_coherent id now c Hc) as [H1 H2].
      destruct (IH _ c' H1 E) as [H3 H4].
      split; [exact H3|]. rewrite H4, H2. reflexivity.
Qed.

(** X10: the ring keeps the size of the cache at bay.  After any sequence of
    [Add] and [Get] calls on a new cache of size [size], the map holds at
    most [size] entries (none when [size] is not positive), and every
    identifier in the map is named by a slot of the ring. *)
Theorem cache_never_exceeds_its_size (size : Z) (xs : list B2Cache.op)
    (c : B2Cache.b2Cache) :
  B2Cache.run xs (B2Cache.newB2Cache size) = Returns c ->
  GoMap.size (B2Cache.entries c) <= Z.max 0 size /\
  forall k, GoMap.lookup k (B2Cache.entries c) <> None -> In (Some k) (B2Cache.ring c).
Proof.
  intro E.
  assert (H0 : B2Cache.coherent (B2Cache.newB2Cache size)).
  { split; [constructor|]. intros k []. }
  destruct (B2Cache_run_coherent xs _ _ H0 E) as [[Hnd Hin] Hlen].
  split.
  - assert (Hle : (List.length (map Some (GoMap.keys (B2Cache.entries c)))
                   <= List.length (B2Cache.ring c))%nat).
    { apply NoDup_incl_length.
      - apply Finite.Injective_map_NoDup; [|exact Hnd]. intros a b [=]. auto.
      - intros x Hx. apply in_map_iff in Hx as (k & <- & Hk). auto. }
    rewrite Hlen in Hle. cbn [B2Cache.newB2Cache B2Cache.ring] in Hle.
    unfold B2Cache.ringNew in Hle. rewrite repeat_length in Hle.
    unfold GoMap.keys in Hle. rewrite !length_map in Hle.
    unfold GoMap.size, len. lia.
  - intros k Hk. apply Hin. now apply GoMap_lookup_keys.
Qed.

(** X11: [Get] after [Add].  Up to a minute after an identifier was added,
    [Get] returns the object that was added and leaves the cache as it is;
    later than that it returns nil and forgets the entry, so that every
    further [Get] of the identifier returns nil, whatever the clock says. *)
Theorem Get_after_Add (id : string) (obj : B2Cache.objectPtr) (t : B2Cache.Time)
    (c c1 : B2Cache.b2Cache) :
  B2Cache.Add id obj t c = Returns c1 ->
  (forall now, now - B2Cache.Minute <= t -> B2Cache.Get id now c1 = (obj, c1)) /\
  (forall now, t < now - B2Cache.Minute ->
     exists c2, B2Cache.Get id now c1 = (None, c2) /\
                forall now', B2Cache.Get id now' c2 = (None, c2)).
Proof.
  unfold B2Cache.Add. destruct (B2Cache.ring c) as [|v rest]; [discriminate|].
  intros [= <-]. split.
  - intros now Hnow. unfold B2Cache.Get. cbn [B2Cache.entries].
    rewrite GoMap_lookup_store, String.eqb_refl. cbn [B2Cache.ts B2Cache.o].
    destruct (t <? now - B2Cache.Minute) eqn:E; [|reflexivity].
    apply Z.ltb_lt in E. lia.
  - intros now Hnow. unfold B2Cache.Get at 1. cbn [B2Cache.entries].
    rewrite GoMap_lookup_store, String.eqb_refl. cbn [B2Cache.ts B2Cache.o].
    apply Z.ltb_lt in Hnow. rewrite Hnow.
    eexists. split; [reflexivity|].
    intro now'. unfold B2Cache.Get. cbn [B2Cache.entries].
    rewrite GoMap_lookup_delete, String.eqb_refl. reflexivity.
Qed.

(** X12: a cache whose ring is nil.  [Add] on a new cache panics exactly
    when the cache was made with a size that is not positive; [Get] on such
    a cache returns nil. *)
Theorem Add_needs_a_positive_size (size : Z) (id : string) (obj : B2Cache.objectPtr)
    (now : B2Cache.Time) :
  (B2Cache.Add id obj now (B2Cache.newB2Cache size) = Panics <-> size <= 0) /\
  B2Cache.Get id now (B2Cache.newB2Cache size) = (None, B2Cache.newB2Cache size).
Proof.
  split; [|reflexivity].
  unfold B2Cache.Add, B2Cache.newB2Cache, B2Cache.ringNew. cbn [B2Cache.ring].
  destruct (Z.to_nat size) as [|n] eqn:E; cbn [repeat].
  - split; [lia|reflexivity].
  - split; [discriminate|lia].
Qed.

Lemma pushAll_skipn {A : Type} (n : nat) (l : list A) :
  (0 < n)%nat ->
  forall w, (List.length w <= n)%nat ->
    B2Cache.pushAll n l w = skipn (List.length w + List.length l - n) (w ++ l).
Proof.
  intro Hn. induction l as [|a l IH]; intros w Hw.
  - cbn [B2Cache.pushAll fold_left]. rewrite app_nil_r.
    replace (List.length w + List.length (@nil A) - n)%nat with 0%nat by (simpl; lia).
    reflexivity.
  - cbn [B2Cache.pushAll fold_left]. fold (B2Cache.pushAll n l (B2Cache.push n a w)).
    unfold B2Cache.push. destruct (List.length w <? n)%nat eqn:E.
    + apply Nat.ltb_lt in E. rewrite IH by (rewrite length_app; simpl; lia).
      rewrite <- app_assoc, length_app. cbn [List.length app].
      f_equal. lia.
    + apply Nat.ltb_ge in E. destruct w as [|x w]; [simpl in E; lia|].
      cbn [tl]. rewrite IH by (rewrite length_app; simpl in *; lia).
      rewrite <- app_assoc, length_app. cbn [List.length app] in *.
      replace (Datatypes.S (List.length w) + Datatypes.S (List.length l) - n)%nat
        with (Datatypes.S (List.length w + 1 + List.length l - n)) by lia.
      reflexivity.
Qed.

Lemma B2Cache_Add_window (n : nat) (c : B2Cache.b2Cache)
    (w : list (string * B2Cache.objectPtr * B2Cache.Time))
    (id : string) (obj : B2Cache.objectPtr) (t : B2Cache.Time) :
  (0 < n)%nat ->
  B2Cache.holds n c w ->
  NoDup (map B2Cache.idOf w) ->
  ~ In id (map B2Cache.idOf w) ->
  exists c',
    B2Cache.Add id obj t c = Returns c' /\
    B2Cache.holds n c' (B2Cache.push n (id, obj, t) w).
Proof.
  intros Hn (Hlen & Hring & Hin & Hout) Hnd Hfresh.
  unfold B2Cache.Add, B2Cache.push.
  destruct (List.length w <? n)%nat eqn:E.
  - apply Nat.ltb_lt in E.
    destruct (n - List.length w)%nat as [|k] eqn:Ek; [lia|].
    rewrite Hring. cbn [repeat app].
    eexists. split; [reflexivity|].
    unfold B2Cache.holds. cbn [B2Cache.entries B2Cache.ring].
    rewrite length_app. cbn [List.length].
    split; [lia|]. split; [|split].
    + unfold B2Cache.setAndNext. rewrite map_app, <- app_assoc. cbn [map app].
      replace (n - (List.length w + 1))%nat with k by lia. reflexivity.
    + intros a Ha. rewrite GoMap_lookup_store.
      apply in_app_or in Ha as [Ha|[<-|[]]].
      * destruct (String.eqb id (B2Cache.idOf a)) eqn:Ee; [|auto].
        apply String.eqb_eq in Ee. subst id. exfalso. apply Hfresh.
        now apply in_map.
      * cbn [B2Cache.idOf fst]. rewrite String.eqb_refl. reflexivity.
    + intros k' Hk. rewrite GoMap_lookup_store.
      rewrite map_app, in_app_iff in Hk. cbn [map In B2Cache.idOf fst] in Hk.
      destruct (String.eqb id k') eqn:Ee; [apply String.eqb_eq in Ee; tauto|].
      apply Hout. tauto.
  - apply Nat.ltb_ge in E. destruct w as [|x w]; [simpl in E; lia|].
    cbn [List.length] in *. replace (n - Datatypes.S (List.length w))%nat with 0%nat in Hring by lia.
    rewrite Hring. cbn [repeat app map tl].
    eexists. split; [reflexivity|].
    cbn [map] in Hnd, Hfresh. apply NoDup_cons_iff in Hnd as [Hx Hnd].
    unfold B2Cache.holds. cbn [B2Cache.entries B2Cache.ring].
    rewrite length_app. cbn [List.length].
    split; [lia|]. split; [|split].
    + unfold B2Cache.setAndNext. rewrite map_app.
      replace (n - (List.length w + 1))%nat with 0%nat by lia. reflexivity.
    + intros a Ha. rewrite GoMap_lookup_store, GoMap_lookup_delete.
      apply in_app_or in Ha as [Ha|[<-|[]]].
      * destruct (String.eqb id (B2Cache.idOf a)) eqn:Ee.
        { apply String.eqb_eq in Ee. subst id. exfalso. apply Hfresh.
          right. now apply in_map. }
        destruct (String.eqb (B2Cache.idOf x) (B2Cache.idOf a)) eqn:Ex.
        { apply String.eqb_eq in Ex. exfalso. apply Hx. rewrite Ex. now apply in_map. }
        apply Hin. now right.
      * cbn [B2Cache.idOf fst]. rewrite String.eqb_refl. reflexivity.
    + intros k' Hk. rewrite GoMap_lookup_store, GoMap_lookup_delete.
      rewrite map_app, in_app_iff in Hk. cbn [map In B2Cache.idOf fst] in Hk.
      destruct (String.eqb id k') eqn:Ee; [apply String.eqb_eq in Ee; tauto|].
      destruct (String.eqb (B2Cache.idOf x) k') eqn:Ex; [reflexivity|].
      apply String.eqb_neq in Ex. apply Hout. cbn [map In]. tauto.
Qed.

Lemma push_ids {A B : Type} (f : A -> B) (n : nat) (a : A) (w : list A) :
  NoDup (map f w) -> ~ In (f a) (map f w) ->
  NoDup (map f (B2Cache.push n a w)) /\
  forall b, In b (map f (B2Cache.push n a w)) -> b = f a \/ In b (map f w).
Proof.
  intros Hnd Hfresh. unfold B2Cache.push.
  assert (G : forall w', NoDup (map f w') -> (forall b, In b (map f w') -> In b (map f w)) ->
              NoDup (map f (w' ++ [a])) /\
              forall b, In b (map f (w' ++ [a])) -> b = f a \/ In b (map f w)).
  { intros w' Hnd' Hsub. rewrite map_app. cbn [map]. split.
    - apply NoDup_app; [exact Hnd'|repeat constructor; intros []|].
      intros b Hb [<-|[]]. auto.
    - intros b Hb. apply in_app_or in Hb as [Hb|[<-|[]]]; auto. }
  destruct (List.length w <? n)%nat; [apply G; auto|].
  destruct w as [|x w]; [apply G; auto|].
  cbn [tl map] in *. apply NoDup_cons_iff in Hnd as [_ Hnd].
  apply G; [exact Hnd|]. intros b Hb. now right.
Qed.

Lemma B2Cache_adds_window (n : nat) (l : list (string * B2Cache.objectPtr * B2Cache.Time)) :
  (0 < n)%nat ->
  forall c w,
    B2Cache.holds n c w ->
    NoDup (map B2Cache.idOf w) ->
    NoDup (map B2Cache.idOf l) ->
    (forall k, In k (map B2Cache.idOf w) -> ~ In k (map B2Cache.idOf l)) ->
    exists c',
      B2Cache.run (B2Cache.adds l) c = Returns c' /\
      B2Cache.holds n c' (B2Cache.pushAll n l w).
Proof.
  intro Hn. induction l as [|[[id obj] t] l IH]; intros c w Hh Hw Hl Hdis.
  - exists c. split; [reflexivity|exact Hh].
  - cbn [map B2Cache.idOf fst] in Hl, Hdis. apply NoDup_cons_iff in Hl as [Hid Hl].
    assert (Hfresh : ~ In id (map B2Cache.idOf w)).
    { intro X. apply (Hdis id X). now left. }
    destruct (B2Cache_Add_window n c w id obj t Hn Hh Hw Hfresh) as (c1 & Ea & Hh1).
    destruct (push_ids B2Cache.idOf n (id, obj, t) w Hw Hfresh) as [Hw1 Hsub].
    destruct (IH c1 _ Hh1 Hw1 Hl) as (c' & Er & Hh').
    { intros k Hk Hk'. destruct (Hsub k Hk) as [->|X]; [auto|].
      apply (Hdis k X). now right. }
    exists c'. split; [|exact Hh'].
    cbn [B2Cache.adds map B2Cache.run B2Cache.step]. rewrite Ea. exact Er.
Qed.

(** X13: with identifiers that are all different, the cache holds exactly
    the last [size] of them.  After [Add] calls with pairwise different
    identifiers on a new cache of positive size, [Get] returns the object of
    each of the last [size] calls (up to a minute after that call), and nil
    for every other identifier. *)
Theorem cache_holds_the_last_adds (size : Z)
    (l : list (string * B2Cache.objectPtr * B2Cache.Time)) :
  0 < size ->
  NoDup (map B2Cache.idOf l) ->
  exists c,
    B2Cache.run (B2Cache.adds l) (B2Cache.newB2Cache size) = Returns c /\
    (forall id obj t now,
       In (id, obj, t) (B2Cache.lastn (Z.to_nat size) l) ->
       now - B2Cache.Minute <= t ->
       B2Cache.Get id now c = (obj, c)) /\
    (forall id now,
       ~ In id (map B2Cache.idOf (B2Cache.lastn (Z.to_nat size) l)) ->
       B2Cache.Get id now c = (None, c)).
Proof.
  intros Hsize Hnd.
  assert (Hn : (0 < Z.to_nat size)%nat) by lia.
  assert (H0 : B2Cache.holds (Z.to_nat size) (B2Cache.newB2Cache size) []).
  { unfold B2Cache.holds. cbn [List.length map B2Cache.newB2Cache B2Cache.ring B2Cache.entries].
    split; [lia|]. split; [|split].
    - rewrite Nat.sub_0_r, app_nil_r. reflexivity.
    - intros a [].
    - reflexivity. }
  destruct (B2Cache_adds_window (Z.to_nat size) l Hn _ [] H0) as (c & Er & Hh);
    [constructor|exact Hnd|intros k []|].
  rewrite (pushAll_skipn _ _ Hn) in Hh by (simpl; lia).
  cbn [List.length app Nat.add] in Hh. fold (B2Cache.lastn (Z.to_nat size) l) in Hh.
  destruct Hh as (_ & _ & Hin & Hout).
  exists c. split; [exact Er|]. split.
  - intros id obj t now Ha Hnow. unfold B2Cache.Get.
    pose proof (Hin _ Ha) as X. cbn [B2Cache.idOf fst] in X. rewrite X.
    cbn [B2Cache.entryOf B2Cache.ts B2Cache.o fst snd].
    destruct (t <? now - B2Cache.Minute) eqn:E; [|reflexivity].
    apply Z.ltb_lt in E. lia.
  - intros id now Hid. unfold B2Cache.Get. rewrite (Hout _ Hid). reflexivity.
Qed.

(** X20: adding an identifier again does not renew its place in the ring.
    When the slot after the current one names [y], adding [y] again and then
    any other identifier removes [y] from the cache: the second [Add] finds
    the old slot of [y] and deletes the entry that the first one has just
    stored. *)
Theorem readded_entry_is_not_renewed (c : B2Cache.b2Cache) (x : option string)
    (y z : string) (rest : B2Cache.Ring) (obj obj' : B2Cache.objectPtr)
    (t t' now : B2Cache.Time) :
  B2Cache.ring c = x :: Some y :: rest ->
  z <> y ->
  exists c1 c2,
    B2Cache.Add y obj t c = Returns c1 /\
    B2Cache.Get y t c1 = (obj, c1) /\
    B2Cache.Add z obj' t' c1 = Returns c2 /\
    B2Cache.Get y now c2 = (None, c2).
Proof.
  intros Hring Hz.
  destruct (B2Cache.Add y obj t c) as [c1| |] eqn:E1;
    try (unfold B2Cache.Add in E1; rewrite Hring in E1; discriminate).
  destruct (Get_after_Add _ _ _ _ _ E1) as [Hin _].
  unfold B2Cache.Add in E1. rewrite Hring in E1. injection E1 as <-.
  eexists _, _. split; [reflexivity|]. split; [apply Hin; unfold B2Cache.Minute; lia|].
  unfold B2Cache.Add at 1. cbn [B2Cache.ring B2Cache.setAndNext app].
  split; [reflexivity|].
  unfold B2Cache.Get. cbn [B2Cache.entries].
  rewrite GoMap_lookup_store, GoMap_lookup_delete, String.eqb_refl.
  destruct (String.eqb_spec z y); [contradiction|reflexivity].
Qed.

(** ** Strings *)

Lemma string_length_app (a b : string) :
  String.length (a ++ b)%string = (String.length a + String.length b)%nat.
Proof. induction a as [|c a IH]; simpl; [reflexivity|]. now rewrite IH. Qed.

Lemma string_app_assoc (a b c : string) :
  ((a ++ b) ++ c = a ++ (b ++ c))%string.
Proof. induction a as [|x a IH]; simpl; [reflexivity|]. now rewrite IH. Qed.

Lemma substring_all (s : string) : substring 0 (String.length s) s = s.
Proof. induction s as [|c s IH]; simpl; [reflexivity|]. now rewrite IH. Qed.

Lemma substring_skip (p r : string) (m : nat) :
  substring (String.length p) m (p ++ r)%string = substring 0 m r.
Proof. induction p as [|c p IH]; simpl; [reflexivity|]. exact IH. Qed.

Lemma prefix_app (p q r : string) :
  String.prefix (p ++ q) (p ++ r) = String.prefix q r.
Proof.
  induction p as [|c p IH]; simpl; [reflexivity|].
  destruct (ascii_dec c c); [exact IH|congruence].
Qed.

Lemma prefix_nil_l (r : string) : String.prefix "" r = true.
Proof. destruct r; reflexivity. Qed.

Lemma prefix_app_nil (p r : string) : String.prefix p (p ++ r) = true.
Proof.
  induction p as [|c p IH]; [apply prefix_nil_l|].
  simpl. destruct (ascii_dec c c); [exact IH|congruence].
Qed.

Lemma prefix_split (p s : string) :
  String.prefix p s = true -> exists r, s = (p ++ r)%string.
Proof.
  revert s. induction p as [|c p IH]; intros s H.
  - exists s. reflexivity.
  - destruct s as [|d s]; [discriminate|].
    revert H. cbn [String.prefix append]. destruct (ascii_dec c d) as [->|]; [|discriminate].
    intro H. destruct (IH s H) as (r & ->). exists r. reflexivity.
Qed.


(** The name of a blob, with the prefix of the storage cut off again. *)
Lemma sliceFrom_getObjectNameString (s : B2Storage.Options) (id : string) :
  B2Storage.sliceFrom (String.length (B2Storage.Prefix s))
    (B2Storage.getObjectNameString s id) = Returns id.
Proof.
  unfold B2Storage.sliceFrom, B2Storage.getObjectNameString.
  rewrite string_length_app.
  destruct (Nat.leb_spec (String.length (B2Storage.Prefix s))
              (String.length (B2Storage.Prefix s) + String.length id)) as [_|H]; [|lia].
  rewrite substring_skip.
  replace (String.length (B2Storage.Prefix s) + String.length id
           - String.length (B2Storage.Prefix s))%nat with (String.length id) by lia.
  now rewrite substring_all.
Qed.

(** ** The blob storage *)

Lemma listLoop_listed (Quote : string -> string) (s : B2Storage.Options)
    (callback : B2Storage.Metadata -> option error) (final : option error)
    (pfx : string) (objs : list B2Storage.b2Object) :
  (forall bm, callback bm = None) ->
  Forall (fun obj =>
            String.prefix (B2Storage.getObjectNameString s pfx) (B2Storage.Name obj) = true /\
            exists a, B2Storage.Attrs obj = inr a) objs ->
  exists bms,
    B2Storage.listLoop Quote s callback objs final = Returns (bms, final) /\
    map (fun bm => B2Storage.getObjectNameString s (B2Storage.BlobID bm)) bms
      = map B2Storage.Name objs /\
    map (fun bm => inr (B2Storage.Length bm, B2Storage.Timestamp bm)) bms
      = map B2Storage.Attrs objs /\
    Forall (fun bm => String.prefix pfx (B2Storage.BlobID bm) = true) bms.
Proof.
  intros Hcb H. induction H as [|obj objs [Hp [[size modified] Ha]] _ IH].
  - exists []. repeat split; constructor.
  - destruct IH as (bms & El & Hn & Hat & Hpre).
    apply prefix_split in Hp as (r & Hr).
    unfold B2Storage.getObjectNameString in Hr. rewrite string_app_assoc in Hr.
    fold (B2Storage.getObjectNameString s (pfx ++ r)) in Hr.
    cbn [B2Storage.listLoop]. rewrite Ha, Hr, sliceFrom_getObjectNameString, Hcb, El.
    eexists. split; [reflexivity|]. cbn [map B2Storage.BlobID B2Storage.Length B2Storage.Timestamp].
    split; [now rewrite Hn, Hr|]. split; [now rewrite Hat, Ha|].
    constructor; [|exact Hpre].
    cbn [B2Storage.BlobID]. apply prefix_app_nil.
Qed.

(** X14: [ListBlobs] undoes [getObjectNameString].  When the attributes of
    the listed objects can be read and the callback accepts every blob,
    [ListBlobs] returns the error of the iterator and never slices a name
    out of range; the callback is given one blob per object whose name
    begins with the storage prefix followed by the blob prefix, in the order
    of the listing, and the identifier of each is the name without the
    storage prefix: it begins with the blob prefix asked for, and
    [getObjectNameString] of it is the name of the object. *)
Theorem ListBlobs_strips_the_storage_prefix (Quote : string -> string)
    (s : B2Storage.Options) (bucket : list B2Storage.b2Object) (final : option error)
    (pfx : string) (callback : B2Storage.Metadata -> option error) :
  (forall obj, In obj bucket -> exists a, B2Storage.Attrs obj = inr a) ->
  (forall bm, callback bm = None) ->
  exists bms,
    B2Storage.ListBlobs Quote s bucket final pfx callback = Returns (bms, final) /\
    map (fun bm => B2Storage.getObjectNameString s (B2Storage.BlobID bm)) bms
      = map B2Storage.Name
          (B2Storage.ListPrefix (B2Storage.getObjectNameString s pfx) bucket) /\
    map (fun bm => inr (B2Storage.Length bm, B2Storage.Timestamp bm)) bms
      = map B2Storage.Attrs
          (B2Storage.ListPrefix (B2Storage.getObjectNameString s pfx) bucket) /\
    Forall (fun bm => String.prefix pfx (B2Storage.BlobID bm) = true) bms.
Proof.
  intros Hattrs Hcb. unfold B2Storage.ListBlobs.
  apply listLoop_listed; [exact Hcb|].
  apply Forall_forall. intros obj Hobj.
  apply filter_In in Hobj as [Hin Hp]. split; [exact Hp|auto].
Qed.

(** X15: what [GetBlob] returns.  A successful [GetBlob] with a positive
    length returns exactly that many bytes, the bytes read from the range;
    with length 0 it returns the empty slice, whatever was read; with a
    negative length it returns the whole object, whatever the offset.  When
    the read fails because the object does not exist, the error is
    [ErrBlobNotFound], also for length 0. *)
Theorem GetBlob_returns_what_was_asked (IsNotExist : error -> bool)
    (ErrBlobNotFound : error) (download : string -> option (Z * Z) -> error + list byte)
    (addReader : option error) (s : B2Storage.Options) (id : string)
    (offset length : Z) :
  (forall data,
     B2Storage.GetBlob IsNotExist ErrBlobNotFound download addReader s id offset length
       = inr data ->
     (0 < length ->
      len data = length /\
      download (B2Storage.getObjectNameString s id) (Some (offset, length)) = inr data) /\
     (length = 0 -> data = []) /\
     (length < 0 -> download (B2Storage.getObjectNameString s id) None = inr data)) /\
  (forall err,
     addReader = None ->
     download (B2Storage.getObjectNameString s id)
       (if 0 <? length then Some (offset, length) else None) = inl err ->
     IsNotExist err = true ->
     B2Storage.GetBlob IsNotExist ErrBlobNotFound download addReader s id offset length
       = inl ErrBlobNotFound).
Proof.
  unfold B2Storage.GetBlob. split.
  - intros data E. destruct addReader; [discriminate|].
    destruct (download _ _) as [err|b] eqn:Ed; [discriminate|].
    destruct (0 <? length) eqn:Epos.
    + apply Z.ltb_lt in Epos.
      destruct (len b =? length) eqn:Elen; cbn [negb andb] in E; [|discriminate].
      apply Z.eqb_eq in Elen.
      destruct (length =? 0) eqn:Ez; [apply Z.eqb_eq in Ez; lia|].
      injection E as <-. split; [auto|]. split; lia.
    + apply Z.ltb_ge in Epos. rewrite andb_false_r in E.
      destruct (length =? 0) eqn:Ez; injection E as <-.
      * apply Z.eqb_eq in Ez. split; [lia|]. split; [reflexivity|lia].
      * apply Z.eqb_neq in Ez. split; [lia|]. split; [lia|]. intros _. exact Ed.
  - intros err -> Ed Hne. rewrite Ed. unfold B2Storage.translateError.
    rewrite Hne. reflexivity.
Qed.

(** ** The server command *)

Lemma ConstantTimeCompare_valid (user eu pass ep : string) :
  negb (Server.ConstantTimeCompare user eu * Server.ConstantTimeCompare pass ep =? 1)
  = false <-> user = eu /\ pass = ep.
Proof.
  unfold Server.ConstantTimeCompare.
  destruct (String.eqb_spec user eu), (String.eqb_spec pass ep); cbn;
    split; try discriminate; try tauto; intros [? ?]; congruence.
Qed.

Lemma BasicAuth_dec (a : option (string * string)) (x : string * string) :
  a = Some x \/ a <> Some x.
Proof.
  destruct a as [[u p]|]; [|right; discriminate]. destruct x as [u' p'].
  destruct (string_dec u u') as [->|]; [destruct (string_dec p p') as [->|]|];
    [left; reflexivity|right; congruence..].
Qed.

Lemma requireAuth_refuses {R : Type} (base : Server.Request -> R) (inner : Server.Handler)
    (eu ep : string) (r : Server.Request) :
  Server.BasicAuth r <> Some (eu, ep) ->
  exists msg,
    Server.ServeHTTP base (Server.requireAuth inner eu ep) r
    = Server.Refused Server.challenge msg Server.StatusUnauthorized.
Proof.
  intro H. cbn [Server.ServeHTTP]. destruct (Server.BasicAuth r) as [[user pass]|].
  - destruct (negb _) eqn:E; [eexists; reflexivity|].
    apply ConstantTimeCompare_valid in E as [-> ->]. congruence.
  - eexists; reflexivity.
Qed.

Lemma requireAuth_passes {R : Type} (base : Server.Request -> R) (inner : Server.Handler)
    (eu ep : string) (r : Server.Request) :
  Server.BasicAuth r = Some (eu, ep) ->
  Server.ServeHTTP base (Server.requireAuth inner eu ep) r = Server.ServeHTTP base inner r.
Proof.
  intro H. cbn [Server.ServeHTTP]. rewrite H.
  assert (X : negb (Server.ConstantTimeCompare eu eu
                    * Server.ConstantTimeCompare ep ep =? 1) = false)
    by (apply ConstantTimeCompare_valid; auto).
  rewrite X. reflexivity.
Qed.

(** X16: who gets past the handler of [requireCredentials].  The mux that
    [requireCredentials] returns has one pattern, the root, and the handler
    registered there hands a request to the wrapped handler, unchanged,
    exactly when the request carries the configured user name with the
    configured password, if one is configured, and with the random password,
    if one was asked for; to every other request it answers with status 401
    and the [Basic] challenge.  The random password is the one printed to the
    standard error.  So without either option the handler passes every
    request on, and with both options it passes none, unless the two
    passwords coincide. *)
Theorem requireCredentials_admits {R : Type} (base : Server.Request -> R)
    (f : Server.Flags) (b : list byte) (h : Server.Handler) (r : Server.Request) :
  let authorized := Server.authorized f b r in
  exists chain,
    fst (Server.requireCredentials f b h) = [("/", chain)] /\
    snd (Server.requireCredentials f b h)
      = (if Server.serverStartRandomPassword f
         then [("SERVER PASSWORD: " ++ Server.EncodeToString b)%string]
         else []) /\
    (authorized -> Server.ServeHTTP base chain r = Server.ServeHTTP base h r) /\
    (~ authorized ->
     exists msg,
       Server.ServeHTTP base chain r
       = Server.Refused Server.challenge msg Server.StatusUnauthorized) /\
    (Server.serverPassword f <> "" ->
     Server.serverStartRandomPassword f = true ->
     Server.serverPassword f <> Server.EncodeToString b ->
     ~ authorized).
Proof.
  intros authorized. subst authorized.
  unfold Server.authorized, Server.requireCredentials, Server.Handle, Server.NewServeMux.
  destruct (Server.serverStartRandomPassword f); cbn [fst snd app];
    eexists; (split; [reflexivity|]); (split; [reflexivity|]).
  - split; [|split].
    + intros [Hp [Hr|Hr]]; [discriminate|]. rewrite (requireAuth_passes _ _ _ _ _ Hr).
      destruct (String.eqb_spec (Server.serverPassword f) "") as [E|E]; cbn [negb];
        [reflexivity|].
      destruct Hp as [Hp|Hp]; [congruence|]. now apply requireAuth_passes.
    + intro Hn.
      destruct (BasicAuth_dec (Server.BasicAuth r)
                  (Server.serverUsername f, Server.EncodeToString b)) as [Hr|Hr];
        [|now apply requireAuth_refuses].
      rewrite (requireAuth_passes _ _ _ _ _ Hr).
      destruct (String.eqb_spec (Server.serverPassword f) "") as [E|E]; cbn [negb];
        [tauto|].
      apply requireAuth_refuses. tauto.
    + intros Hp _ Hne [[X|X] [Y|Y]]; congruence.
  - split; [|split].
    + intros [Hp _].
      destruct (String.eqb_spec (Server.serverPassword f) "") as [E|E]; cbn [negb];
        [reflexivity|].
      destruct Hp as [Hp|Hp]; [congruence|]. now apply requireAuth_passes.
    + intro Hn.
      destruct (String.eqb_spec (Server.serverPassword f) "") as [E|E]; cbn [negb];
        [tauto|].
      apply requireAuth_refuses. tauto.
    + intros _ Hr. discriminate Hr.
Qed.

(** X17: [stripProtocol] on an address without protocol, with one and with
    two.  For a host that does not itself begin with [http://], the prefix
    [http://] or [https://] is cut off, and so are both in the order
    [https://http://]; in the order [http://https://] only the first one
    is cut off. *)
Theorem stripProtocol_cuts_the_protocol (host : string) :
  String.prefix "http://" host = false ->
  Server.stripProtocol ("http://" ++ host) = host /\
  Server.stripProtocol ("https://" ++ host) = host /\
  Server.stripProtocol ("https://http://" ++ host) = host /\
  Server.stripProtocol ("http://https://" ++ host) = ("https://" ++ host)%string /\
  (String.prefix "https://" host = false -> Server.stripProtocol host = host).
Proof.
  intro H.
  assert (T : forall p s, Server.TrimPrefix (p ++ s) p = s).
  { intros p s. unfold Server.TrimPrefix.
    rewrite prefix_app_nil, string_length_app, substring_skip.
    replace (String.length p + String.length s - String.length p)%nat
      with (String.length s) by lia.
    apply substring_all. }
  assert (N : forall p s, String.prefix p s = false -> Server.TrimPrefix s p = s).
  { intros p s E. unfold Server.TrimPrefix. now rewrite E. }
  unfold Server.stripProtocol. repeat split.
  - rewrite (N "https://" ("http://" ++ host)%string) by reflexivity. apply T.
  - rewrite T. now apply N.
  - change ("https://http://" ++ host)%string
      with ("https://" ++ ("http://" ++ host))%string.
    rewrite T. apply T.
  - rewrite (N "https://" ("http://https://" ++ host)%string) by reflexivity.
    apply (T "http://" ("https://" ++ host)%string).
  - intro H'. rewrite (N "https://" host H'). now apply N.
Qed.

(** ** The log sweep *)

Lemma sweepLoop_logs (maxCount timeCutoff : Z) (entries : list Logging.FileInfo) :
  forall cnt,
    Logging.sweepLoop maxCount timeCutoff cnt entries
    = Logging.sweepLoop maxCount timeCutoff cnt (filter Logging.isLogFile entries).
Proof.
  induction entries as [|e rest IH]; intro cnt; [reflexivity|].
  cbn [Logging.sweepLoop filter]. unfold Logging.isLogFile at 1.
  destruct (String.prefix Logging.logFileNamePrefix (Logging.Name e)) eqn:Ep;
    cbn [negb andb]; [|apply IH].
  destruct (Logging.HasSuffix (Logging.Name e) Logging.logFileNameSuffix) eqn:Es;
    cbn [negb]; [|apply IH].
  cbn [Logging.sweepLoop]. rewrite Ep, Es. cbn [negb].
  rewrite !IH. reflexivity.
Qed.

Lemma sweepLoop_log (maxCount timeCutoff cnt : Z) (e : Logging.FileInfo)
    (rest : list Logging.FileInfo) :
  Logging.isLogFile e = true ->
  Logging.sweepLoop maxCount timeCutoff cnt (e :: rest)
  = if (maxCount <? cnt + 1) || (Logging.ModTime e <? timeCutoff)
    then e :: Logging.sweepLoop maxCount timeCutoff (cnt + 1) rest
    else Logging.sweepLoop maxCount timeCutoff (cnt + 1) rest.
Proof.
  unfold Logging.isLogFile. intro H. apply andb_true_iff in H as [Hp Hs].
  cbn [Logging.sweepLoop]. rewrite Hp, Hs. reflexivity.
Qed.

Lemma sweepLoop_over_the_count (maxCount timeCutoff : Z) (logs : list Logging.FileInfo) :
  Forall (fun e => Logging.isLogFile e = true) logs ->
  forall cnt, maxCount <= cnt ->
    Logging.sweepLoop maxCount timeCutoff cnt logs = logs.
Proof.
  induction 1 as [|e rest He _ IH]; intros cnt Hc; [reflexivity|].
  rewrite (sweepLoop_log _ _ _ _ _ He).
  destruct (Z.ltb_spec maxCount (cnt + 1)) as [_|X]; [|lia].
  cbn [orb]. rewrite IH by lia. reflexivity.
Qed.

Lemma sweepLoop_too_old (maxCount timeCutoff : Z) (logs : list Logging.FileInfo) :
  Forall (fun e => Logging.isLogFile e = true) logs ->
  Forall (fun e => Logging.ModTime e < timeCutoff) logs ->
  forall cnt, Logging.sweepLoop maxCount timeCutoff cnt logs = logs.
Proof.
  induction 1 as [|e rest He _ IH]; intros Hold cnt; [reflexivity|].
  apply Forall_cons_iff in Hold as [Ho Hold].
  rewrite (sweepLoop_log _ _ _ _ _ He).
  destruct (Z.ltb_spec (Logging.ModTime e) timeCutoff) as [_|X]; [|lia].
  rewrite orb_true_r, IH by assumption. reflexivity.
Qed.

Lemma sweepLoop_sorted (maxCount timeCutoff : Z) (logs : list Logging.FileInfo) :
  Forall (fun e => Logging.isLogFile e = true) logs ->
  Logging.newestFirst logs ->
  forall cnt,
    Logging.sweepLoop maxCount timeCutoff cnt logs
    = skipn (Logging.survivors (maxCount - cnt) timeCutoff logs) logs.
Proof.
  unfold Logging.survivors.
  induction 1 as [|e rest He Hrest IH]; intros Hs cnt; [now rewrite skipn_nil|].
  apply StronglySorted_inv in Hs as [Hs Hle].
  rewrite (sweepLoop_log _ _ _ _ _ He). cbn [filter].
  pose proof (len_nonneg (filter (fun e0 => negb (Logging.ModTime e0 <? timeCutoff)) rest))
    as Hn.
  destruct (Z.ltb_spec maxCount (cnt + 1)) as [Hc|Hc]; cbn [orb].
  - rewrite sweepLoop_over_the_count by (auto; lia).
    replace (Z.to_nat _) with 0%nat; [reflexivity|].
    pose proof (len_nonneg
                  (if negb (Logging.ModTime e <? timeCutoff)
                   then e :: filter (fun e0 => negb (Logging.ModTime e0 <? timeCutoff)) rest
                   else filter (fun e0 => negb (Logging.ModTime e0 <? timeCutoff)) rest)).
    lia.
  - destruct (Z.ltb_spec (Logging.ModTime e) timeCutoff) as [Ho|Ho]; cbn [negb].
    + assert (Hold : Forall (fun x => Logging.ModTime x < timeCutoff) rest).
      { eapply Forall_impl; [|exact Hle]. cbn beta. intros x Hx. lia. }
      rewrite sweepLoop_too_old by auto.
      assert (Hnone : filter (fun e0 => negb (Logging.ModTime e0 <? timeCutoff)) rest = []).
      { clear - Hold. induction Hold as [|x l Hx _ IH]; [reflexivity|].
        cbn [filter]. destruct (Z.ltb_spec (Logging.ModTime x) timeCutoff); [exact IH|lia]. }
      rewrite Hnone. change (len (@nil Logging.FileInfo)) with 0.
      replace (Z.to_nat _) with 0%nat by lia. reflexivity.
    + rewrite (IH Hs (cnt + 1)).
      set (fresh := filter (fun e0 => negb (Logging.ModTime e0 <? timeCutoff)) rest) in *.
      replace (len (e :: fresh)) with (1 + len fresh)
        by (unfold len; cbn [List.length]; lia).
      replace (Z.to_nat (Z.min (maxCount - cnt) (1 + len fresh)))
        with (Datatypes.S (Z.to_nat (Z.min (maxCount - (cnt + 1)) (len fresh)))) by lia.
      reflexivity.
Qed.

Lemma newestFirst_filter (f : Logging.FileInfo -> bool) (l : list Logging.FileInfo) :
  Logging.newestFirst l -> Logging.newestFirst (filter f l).
Proof.
  unfold Logging.newestFirst. induction 1 as [|e l Hs IH Hle]; [constructor|].
  cbn [filter]. destruct (f e); [|exact IH].
  constructor; [exact IH|].
  apply Forall_forall. intros x Hx. apply filter_In in Hx as [Hx _].
  rewrite Forall_forall in Hle. auto.
Qed.

(** X18: the sweep keeps the newest log files.  Of the log files of the
    directory, ordered from the newest to the oldest, [sweepLogDir] removes
    all but the first ones: as many as [maxCount] allows (2^31-1 when it is
    0, none when it is negative) and as are not older than the cut-off.
    Every entry it removes is an entry of the directory whose name begins
    with [kopia-] and ends with [.log]. *)
Theorem sweepLogDir_keeps_the_newest
    (sortSlice : list Logging.FileInfo -> list Logging.FileInfo) (now : Z)
    (entries : list Logging.FileInfo) (maxCount maxAge : Z) :
  Logging.sorts sortSlice ->
  let logs := filter Logging.isLogFile (sortSlice entries) in
  let timeCutoff := if 0 <? maxAge then now - maxAge else 0 in
  let count := if maxCount =? 0 then Logging.MaxInt32 else maxCount in
  Logging.sweepLogDir sortSlice now (inr entries) maxCount maxAge
    = skipn (Logging.survivors count timeCutoff logs) logs /\
  Forall (fun e => In e entries /\ Logging.isLogFile e = true)
    (Logging.sweepLogDir sortSlice now (inr entries) maxCount maxAge).
Proof.
  intros Hsort logs timeCutoff count.
  destruct (Hsort entries) as [Hperm Hnewest].
  assert (Hlogs : Forall (fun e => Logging.isLogFile e = true) logs).
  { apply Forall_forall. intros e He. now apply filter_In in He as [_ He]. }
  assert (E : Logging.sweepLogDir sortSlice now (inr entries) maxCount maxAge
              = skipn (Logging.survivors count timeCutoff logs) logs).
  { unfold Logging.sweepLogDir. fold timeCutoff count.
    rewrite sweepLoop_logs. fold logs.
    rewrite (sweepLoop_sorted count timeCutoff logs Hlogs
               (newestFirst_filter _ _ Hnewest) 0).
    rewrite Z.sub_0_r. reflexivity. }
  split; [exact E|].
  rewrite E. apply Forall_forall. intros e He.
  assert (Hin : In e logs).
  { rewrite <- (firstn_skipn (Logging.survivors count timeCutoff logs) logs).
    apply in_or_app. now right. }
  apply filter_In in Hin as [Hin Hlog]. split; [|exact Hlog].
  exact (Permutation_in _ Hperm Hin).
Qed.

(** ** The log file, opened on demand *)

Lemma Log_once (w : Logging.onDemandBackend) (createFails : bool)
    (backendLog : option error) (depth : Z) (rec : string) :
  Logging.once w = true ->
  exists r,
    Logging.Log w createFails backendLog depth rec
    = (r, w,
       match Logging.backend w with
       | None => []
       | Some file => [Logging.BackendLog file (depth + 1) rec]
       end) /\
    (Logging.backend w = None -> r = Some (New "no backend")).
Proof.
  intro H. unfold Logging.Log. rewrite H.
  destruct (Logging.backend w); eexists; (split; [reflexivity|]); [discriminate|auto].
Qed.

Lemma logAll_once (records : list (bool * option error * Z * string)) :
  forall w, Logging.once w = true ->
    exists results effects,
      Logging.logAll w records = (results, w, effects) /\
      Logging.creations effects = 0%nat /\
      (Logging.backend w = None ->
       Forall (eq (Some (New "no backend"))) results /\ effects = []).
Proof.
  induction records as [|[[[createFails backendLog] depth] rec] rest IH]; intros w Hw.
  - exists [], []. repeat split; constructor.
  - destruct (Log_once w createFails backendLog depth rec Hw) as (r & El & Hr).
    destruct (IH w Hw) as (rs & effs & Er & Hc & Hnone).
    cbn [Logging.logAll]. rewrite El, Er.
    eexists _, _. split; [reflexivity|]. split.
    + unfold Logging.creations in *. rewrite filter_app, length_app, Hc.
      destruct (Logging.backend w); reflexivity.
    + intro Hb. destruct (Hnone Hb) as [Hf ->]. rewrite Hb. split; [|reflexivity].
      constructor; [now rewrite (Hr Hb)|exact Hf].
Qed.

(** X19: the log file is created at most once, and a failure is final.
    Over any sequence of [Log] calls on a backend that has not logged yet,
    [os.Create] is called at most once; when it fails at the first call,
    every call of the sequence returns the error [no backend] and nothing
    else is done to the file system or to a backend, even if creating the
    file would succeed later. *)
Theorem Log_creates_the_file_once (w : Logging.onDemandBackend)
    (records : list (bool * option error * Z * string)) :
  Logging.once w = false ->
  Logging.backend w = None ->
  exists results w' effects,
    Logging.logAll w records = (results, w', effects) /\
    (Logging.creations effects <= 1)%nat /\
    (forall backendLog depth rec rest,
       records = (true, backendLog, depth, rec) :: rest ->
       Forall (eq (Some (New "no backend"))) results /\
       effects = [Logging.Create (Logging.Join (Logging.logDir w) (Logging.logFileBaseName w))] /\
       Logging.backend w' = None).
Proof.
  intros Ho Hb.
  destruct records as [|[[[createFails backendLog] depth] rec] rest].
  - exists [], w, []. split; [reflexivity|].
    split; [unfold Logging.creations; simpl; lia|]. discriminate.
  - cbn [Logging.logAll]. unfold Logging.Log. rewrite Ho.
    destruct createFails.
    + cbn [Logging.backend]. rewrite Hb.
      match goal with |- context [Logging.logAll ?w1 rest] =>
        destruct (logAll_once rest w1 eq_refl) as (rs & effs & Er & Hc & Hnone)
      end.
      rewrite Er. eexists _, _, _. split; [reflexivity|].
      destruct (Hnone eq_refl) as [Hf ->]. split; [unfold Logging.creations; simpl; lia|].
      intros bl d r rest' _. split; [|split]; [|reflexivity|reflexivity].
      constructor; [reflexivity|exact Hf].
    + cbn [Logging.backend].
      match goal with |- context [Logging.logAll ?w1 rest] =>
        destruct (logAll_once rest w1 eq_refl) as (rs & effs & Er & Hc & _)
      end.
      rewrite Er. eexists _, _, _. split; [reflexivity|]. split; [|discriminate].
      unfold Logging.creations in *. rewrite filter_app, length_app, Hc.
      rewrite filter_app, length_app. cbn [filter List.length].
      destruct (String.eqb (Logging.symlinkName w) ""); simpl; lia.
Qed.

(** Insertion by modification time is one way to sort as [sort.Slice] does. *)
Lemma insertNewest_Permutation (e : Logging.FileInfo) (l : list Logging.FileInfo) :
  Permutation (Logging.insertNewest e l) (e :: l).
Proof.
  induction l as [|x l IH]; cbn [Logging.insertNewest]; [reflexivity|].
  destruct (Logging.ModTime x <? Logging.ModTime e); [reflexivity|].
  rewrite IH. apply perm_swap.
Qed.

Lemma insertNewest_newestFirst (e : Logging.FileInfo) (l : list Logging.FileInfo) :
  Logging.newestFirst l -> Logging.newestFirst (Logging.insertNewest e l).
Proof.
  unfold Logging.newestFirst. induction 1 as [|x l Hs IH Hle].
  - repeat constructor.
  - cbn [Logging.insertNewest].
    destruct (Z.ltb_spec (Logging.ModTime x) (Logging.ModTime e)) as [Hlt|Hge].
    + constructor; [constructor; assumption|].
      constructor; [lia|]. eapply Forall_impl; [|exact Hle]. cbn beta. intros; lia.
    + constructor; [exact IH|].
      apply Forall_forall. intros y Hy.
      apply (Permutation_in _ (insertNewest_Permutation e l)) in Hy as [<-|Hy]; [lia|].
      rewrite Forall_forall in Hle. auto.
Qed.

Lemma insertionSort_sorts : Logging.sorts Logging.insertionSort.
Proof.
  intro l. unfold Logging.insertionSort. induction l as [|e l [IHp IHs]].
  - split; [reflexivity|constructor].
  - cbn [fold_right]. split.
    + rewrite insertNewest_Permutation. now constructor.
    + now apply insertNewest_newestFirst.
Qed.

(** * Scenarios

    The writer run on the concrete collaborators, and the other parts on
    concrete inputs. *)

Module Scenarios.

Example fresh_is_new (cm : scriptedCM) (n : nat) comp pfx :
  newWriter comp "doc" pfx (manager0 cm n) = Returns (fresh n comp pfx, constructed cm n).
Proof. reflexivity. Qed.

Example pending_is_written :
  Write (fresh 8 None "") (bytes "abc") (constructed [] 8)
  = Returns (3, None, pending, constructed [] 8).
Proof. reflexivity. Qed.

(** C5, counterexample: with a maximum segment size of 8 and three bytes in
    the buffer, the flush allocates a buffer of size 3, not 8. *)
Lemma flush_allocation_counterexample :
  (exists s, splitter pending = Some s /\ MaxSegmentSize s = 8) /\
  (exists err w' om',
     flushBuffer pending (constructed [] 8) = Returns (err, w', om') /\
     calls om' = calls (constructed [] 8)
                   ++ [CallAllocate 3; CallWriteContent (bytes "abc") "";
                       CallRelease 3]) /\
  ~ @allocatesMaxSegment fixedSplitter scriptedCM _ _.
Proof.
  split; [eexists; split; reflexivity|].
  split; [eexists _, _, _; split; [vm_compute; reflexivity|reflexivity]|].
  intro Hc.
  destruct (flushBuffer pending (constructed [] 8)) as [[[err w'] om']| |] eqn:E;
    [|vm_compute in E; discriminate..].
  pose proof E as E'. vm_compute in E'. injection E' as <- <- <-.
  destruct (Hc pending (constructed [] 8) _ _ _ _ eq_refl E) as (cs & Ecs & Hin).
  simpl in Ecs. injection Ecs as <-.
  destruct Hin as [X|[X|[X|[]]]]; discriminate.
Qed.

(** C8, counterexample: the second [Close] hands the pooled splitter back a
    second time, so the writer is not as the first [Close] left it. *)
Lemma close_twice_counterexample :
  (exists w1 om1 w2 om2,
     Close pooled pooledManager = Returns (None, w1, om1) /\
     Close w1 om1 = Returns (None, w2, om2) /\
     option_map returned (splitter w1) = Some 1%nat /\
     option_map returned (splitter w2) = Some 2%nat /\
     calls om2 = [CallRelease 8; CallSplitterClose; CallSplitterClose]) /\
  ~ @closeIdempotent pooledSplitter scriptedCM _.
Proof.
  split.
  - eexists _, _, _, _.
    split; [vm_compute; reflexivity|]. split; [vm_compute; reflexivity|].
    repeat split.
  - intro Hc.
    destruct (Close pooled pooledManager) as [[[e1 w1] om1]| |] eqn:E1;
      [|vm_compute in E1; discriminate..].
    pose proof E1 as E1'. vm_compute in E1'. injection E1' as <- <- <-.
    match type of E1 with _ = Returns (_, ?w, ?o) =>
      destruct (Close w o) as [[[e2 w2] om2]| |] eqn:E2
    end; [|vm_compute in E2; discriminate..].
    pose proof E2 as E2'. vm_compute in E2'. injection E2' as <- <- <-.
    specialize (Hc pooled pooledManager _ _ _ _ _ _ E1 E2).
    discriminate Hc.
Qed.

(** C1, counterexample: the content manager refuses the first chunk; the
    [Write] that flushed it fails, but the next [Write] returns its full
    length with no error, and [Result] returns the empty identifier with no
    error. *)
Lemma poisoning_counterexample :
  (exists e w1 om1,
     Write (fresh 3 None "") (bytes "abc") (constructed [Some "storage"] 3)
       = Returns (0, Some e, w1, om1) /\
     Cause e = New "storage" /\
     (exists w2 om2, Write w1 (bytes "de") om1 = Returns (2, None, w2, om2)) /\
     Result jsonIndex 1 w1 om1 = Returns ("", None, w1, om1)) /\
  ~ @poisonedAfterError fixedSplitter scriptedCM _ _ jsonIndex.
Proof.
  split.
  - eexists _, _, _. split; [vm_compute; reflexivity|]. split; [reflexivity|].
    split; [eexists _, _; vm_compute; reflexivity|vm_compute; reflexivity].
  - intro Hc.
    destruct (Write (fresh 3 None "") (bytes "abc") (constructed [Some "storage"] 3))
      as [[[[n err] w1] om1]| |] eqn:E1; [|vm_compute in E1; discriminate..].
    pose proof E1 as E1'. vm_compute in E1'. injection E1' as <- <- <- <-.
    destruct (Hc _ _ _ _ _ _ _ E1) as [Hw _].
    match type of E1 with _ = Returns (_, ?w, ?o) =>
      destruct (Write w (bytes "de") o) as [[[[n2 err2] w2] om2]| |] eqn:E2
    end; [|vm_compute in E2; discriminate..].
    pose proof E2 as E2'. vm_compute in E2'. injection E2' as <- <- <- <-.
    destruct (Hw _ _ _ _ _ E2) as (e' & He & _).
    discriminate He.
Qed.

(** The scripted content manager issues decimal identifiers under the empty
    prefix, deduplicates, and accepts everything once its script is used up. *)
Lemma scripted_plain : plainContentIDs (CM := scriptedCM) "".
Proof.
  intros m payload cid E.
  assert (X : cid = scriptedID payload "").
  { destruct m as [|[msg|] m]; simpl in E; congruence. }
  subst cid. unfold scriptedID. simpl.
  destruct (N.to_uint (checksum payload)); reflexivity.
Qed.


Lemma scripted_accepting : accepting (CM := scriptedCM) (fun m => m = []).
Proof. intros m payload pfx ->. split; [reflexivity|eexists; reflexivity]. Qed.

(** C1, witness: the content manager refuses the chunk [abc] that the first
    [Write] flushes at its third byte; that [Write] returns 0 and the wrapped
    error, and the later [Write] succeeds. *)
Lemma flush_error_returned_not_kept_witness :
  exists w1 om1 w2 om2,
    Write (fresh 3 None "") (bytes "abc") (constructed [Some "storage"] 3)
      = Returns (0, Some (Wrap (New "storage") "error when flushing chunk 0 of doc"),
                 w1, om1) /\
    Write w1 (bytes "de") om1 = Returns (2, None, w2, om2).
Proof.
  destruct (writeLoop
              (withTotalLength (fresh 3 None "")
                 (wrap64 (totalLength (fresh 3 None "") + len (bytes "ab" ++ x63 :: []))))
              (bytes "ab") (constructed [Some "storage"] 3))
    as [[[e wp] omp]| |] eqn:Ep; [|vm_compute in Ep; discriminate..].
  pose proof Ep as X. vm_compute in X. injection X as <- <- <-.
  destruct (proj1 (flush_error_returned_not_kept jsonIndex
                     (fresh 3 None "") (constructed [Some "storage"] 3))
              (bytes "ab") x63 [] _ _ {| limit := 3; seen := 2; closed := false |}
              (bytes "abc") false (New "storage")
              Ep eq_refl eq_refl eq_refl eq_refl)
    as (w1 & om1 & EW & Herr & Hlater & _).
  destruct (Hlater (fun m => m = []) (bytes "de") scripted_accepting)
    as (w2 & om2 & E2).
  { pose proof EW as X. vm_compute in X. injection X as _ <-. reflexivity. }
  { intros c input. discriminate. }
  exists w1, om1, w2, om2. split; [|exact E2].
  rewrite Herr in EW. exact EW.
Defined.

(** C2, witness: 130 bytes through a splitter that cuts every 128 bytes make
    two chunks; [Result] flushes the second, writes the index document of
    the two entries through the nested writer, where it makes a single chunk,
    and returns the indirect identifier of that chunk. *)
Lemma Result_finalizes_witness :
  exists (w : objectWriter fixedSplitter) (om : Manager fixedSplitter scriptedCM),
    written (List.repeat x61 130) w om /\
    exists wf omf cid om',
      finalFlush w om = Returns (None, wf, omf) /\
      List.length (indirectIndex wf) = 2%nat /\
      Result jsonIndex 2 w om
        = Returns (IndirectObjectID (DirectObjectID cid), None, wf, om').
Proof.
  destruct (Write (fresh 128 None "") (List.repeat x61 130) (constructed [] 128))
    as [[[[n errw] w] om]| |] eqn:E; [|vm_compute in E; discriminate..].
  pose proof E as E'. vm_compute in E'. injection E' as <- <- <- <-.
  pose proof (written_Write _ _ _ _ _ _ _ _
                (written_new _ _ _ _ _ _ (fresh_is_new [] 128 None "")) E) as Hw.
  match type of E with _ = Returns (_, ?w, ?o) => exists w, o end.
  split; [exact Hw|].
  destruct (Result_finalizes jsonIndex _ _ _ Hw)
    as (err & wf & omf & Ef & _ & _ & _ & _ & Hok).
  pose proof Ef as Ef'. vm_compute in Ef'. injection Ef' as <- <- <-.
  destruct (Hok eq_refl) as (_ & Hmany).
  match type of Ef with _ = Returns (_, ?x, ?o) =>
    destruct (jsonIndex (indexDocument x)) as [e|doc] eqn:Ed;
      [vm_compute in Ed; discriminate|];
    pose proof Ed as Ed'; vm_compute in Ed'; injection Ed' as <-;
    destruct (Hmany ltac:(vm_compute; discriminate) _ Ed)
      as (iw0 & om0 & n & errw & iw1 & om1 & _ & _ & _ & _ & _ & Hreturns);
    match type of Ed with _ = inr ?d =>
      destruct (snd (WriteContent (contentMgr o) d (prefix x))) as [e|cid] eqn:Ec;
        [vm_compute in Ec; discriminate|]
    end
  end.
  destruct (Hreturns cid ltac:(vm_compute; reflexivity) Ec) as (_ & _ & om' & HR).
  eexists _, _, cid, om'. split; [exact Ef|]. split; [reflexivity|]. exact (HR 0%nat).
Defined.

(** C3, witness: eight bytes in two slices over a splitter that cuts every
    three bytes. *)
Lemma index_entries_tile_the_stream_witness :
  exists w om,
    newWriter None "doc" "" (manager0 [] 3) = Returns (fresh 3 None "", constructed [] 3) /\
    writeAll (fresh 3 None "") [bytes "abcd"; bytes "efgh"] (constructed [] 3)
      = Returns (None, w, om) /\
    len (List.concat [bytes "abcd"; bytes "efgh"]) < 2 ^ 63 /\
    exists err wf omf,
      finalFlush w om = Returns (err, wf, omf) /\
      (forall fuel r w' om',
         Result jsonIndex fuel w om = Returns (r, w', om') ->
         indirectIndex w' = indirectIndex wf) /\
      (exists e0, nth_error (indirectIndex wf) 0 = Some e0 /\ Start e0 = 0) /\
      (forall i e1 e2,
         nth_error (indirectIndex wf) i = Some e1 ->
         nth_error (indirectIndex wf) (Datatypes.S i) = Some e2 ->
         Start e2 = Start e1 + Length e1) /\
      sumLengths (indirectIndex wf) = 8.
Proof.
  destruct (writeAll (fresh 3 None "") [bytes "abcd"; bytes "efgh"] (constructed [] 3))
    as [[[errw w] om]| |] eqn:E; [|vm_compute in E; discriminate..].
  pose proof E as E'. vm_compute in E'. injection E' as <- <- <-.
  match type of E with _ = Returns (_, ?w, ?o) => exists w, o end.
  split; [reflexivity|]. split; [reflexivity|].
  split; [vm_compute; reflexivity|].
  exact (index_entries_tile_the_stream jsonIndex None "doc" "" _ _ _ _ _ _
           (fresh_is_new [] 3 None "") E eq_refl).
Defined.

(** C4, witness: a compressor that writes one byte for the four pending ones
    (kept, and the identifier wrapped), and the identity compressor, whose
    output is exactly as long as its input (dropped, no wrapper). *)
Lemma flushBuffer_shrink_or_skip_witness :
  (compressor (pendingWith (constCompressor (bytes "z")))
     = Some (constCompressor (bytes "z")) /\
   constCompressor (bytes "z") (bytes "aaaa") = inr (bytes "z") /\
   WriteContent (contentMgr (constructed [] 8)) (bytes "z") ""
     = ([], inr (scriptedID (bytes "z") "")) /\
   exists w' om',
     flushBuffer (pendingWith (constCompressor (bytes "z"))) (constructed [] 8)
       = Returns (None, w', om') /\
     calls om' = calls (constructed [] 8)
                   ++ [CallAllocate 4; CallCompress (bytes "aaaa");
                       CallWriteContent (bytes "z") ""; CallRelease 4] /\
     indirectIndex w'
       = [{| Start := 0; Length := 4;
             Object := Compressed (DirectObjectID (scriptedID (bytes "z") "")) |}]) /\
  (compressor (pendingWith idCompressor) = Some idCompressor /\
   idCompressor (bytes "aaaa") = inr (bytes "aaaa") /\
   WriteContent (contentMgr (constructed [] 8)) (bytes "aaaa") ""
     = ([], inr (scriptedID (bytes "aaaa") "")) /\
   exists w' om',
     flushBuffer (pendingWith idCompressor) (constructed [] 8)
       = Returns (None, w', om') /\
     calls om' = calls (constructed [] 8)
                   ++ [CallAllocate 4; CallCompress (bytes "aaaa");
                       CallWriteContent (bytes "aaaa") ""; CallRelease 4] /\
     indirectIndex w'
       = [{| Start := 0; Length := 4;
             Object := DirectObjectID (scriptedID (bytes "aaaa") "") |}]).
Proof.
  split.
  - split; [reflexivity|]. split; [reflexivity|]. split; [reflexivity|].
    destruct (flushBuffer_shrink_or_skip
                (contentOps := scriptedCM_ContentManager)
                (pendingWith (constCompressor (bytes "z"))) (constructed [] 8)
                (constCompressor (bytes "z")) (bytes "z") []
                (scriptedID (bytes "z") "") eq_refl eq_refl
                ltac:(vm_compute; reflexivity))
      as (_ & w' & om' & oid & Ef & Hcalls & _ & Hidx & Hlt & _).
    exists w', om'. split; [exact Ef|]. split; [exact Hcalls|].
    destruct Hlt as (_ & ->); [vm_compute; reflexivity|]. exact Hidx.
  - split; [reflexivity|]. split; [reflexivity|]. split; [reflexivity|].
    destruct (flushBuffer_shrink_or_skip
                (contentOps := scriptedCM_ContentManager)
                (pendingWith idCompressor) (constructed [] 8)
                idCompressor (bytes "aaaa") []
                (scriptedID (bytes "aaaa") "") eq_refl eq_refl
                ltac:(vm_compute; reflexivity))
      as (_ & w' & om' & oid & Ef & Hcalls & _ & Hidx & _ & Hge & _).
    exists w', om'. split; [exact Ef|]. split; [exact Hcalls|].
    destruct Hge as (_ & ->); [vm_compute; discriminate|]. exact Hidx.
Defined.

(** C6, witness: the index of two entries is written through a nested writer
    under the prefix [k]; the last two calls are its [Close]. *)
Lemma Result_index_writer_witness :
  exists r w' om',
    finalFlush twoChunks (manager0 [] 128) = Returns (None, twoChunks, manager0 [] 128) /\
    List.length (indirectIndex twoChunks) <> 1%nat /\
    Result jsonIndex 2 twoChunks (manager0 [] 128) = Returns (r, w', om') /\
    exists mid,
      calls om' = [CallNewSplitter; CallAllocate 128]
                    ++ [CallJSONEncode {| StreamID := "kopia:indirect";
                                          Entries := indirectIndex twoChunks |}]
                    ++ mid ++ [CallRelease 128; CallSplitterClose] /\
      Forall (nestedCall "k") mid.
Proof.
  destruct (Result jsonIndex 2 twoChunks (manager0 [] 128))
    as [[[r w'] om']| |] eqn:E; [|vm_compute in E; discriminate..].
  pose proof E as E'. vm_compute in E'. injection E' as <- <- <-.
  eexists _, _, _. split; [reflexivity|]. split; [discriminate|].
  split; [reflexivity|].
  destruct (Result_index_writer jsonIndex 1 twoChunks twoChunks
              (manager0 [] 128) (manager0 [] 128) _ _ _
              eq_refl ltac:(discriminate) E)
    as (iw & omi & mid & _ & _ & _ & Hi & Hc & Hmid).
  exists mid. split; [|exact Hmid].
  rewrite Hc, Hi. reflexivity.
Defined.


(** C9, witness: the content manager refuses the chunk [abc] of the slice
    [abcd]: [Write] returns 0 and the error of that flush, the byte [d] is
    never appended, and [totalLength] is 4. *)
Lemma Write_counts_whole_slice_witness :
  splitter (fresh 3 None "") = Some (splitAt 3) /\
  exists wp omp e w' om',
    writeLoop (withTotalLength (fresh 3 None "") 4) (bytes "ab")
      (constructed [Some "storage"] 3) = Returns (None, wp, omp) /\
    flushBuffer
      (appended wp x63
         (snd (ShouldSplit {| limit := 3; seen := 2; closed := false |} x63))) omp
      = Returns (Some e, w', om') /\
    Write (fresh 3 None "") (bytes "abcd") (constructed [Some "storage"] 3)
      = Returns (0, Some e, w', om') /\
    totalLength wp = 4 /\ totalLength w' = 4 /\ buffer w' = [].
Proof.
  split; [reflexivity|].
  destruct (Write_counts_whole_slice
              (fresh 3 None "") (bytes "abcd") (constructed [Some "storage"] 3)
              (splitAt 3) eq_refl)
    as (n & err & w' & om' & EW & _ & Ht & _ & Hfwd & _).
  destruct (writeLoop
              (withTotalLength (fresh 3 None "")
                 (wrap64 (totalLength (fresh 3 None "") + len (bytes "abcd"))))
              (bytes "ab") (constructed [Some "storage"] 3))
    as [[[e0 wp] omp]| |] eqn:Ep; [|vm_compute in Ep; discriminate..].
  pose proof Ep as X. vm_compute in X. injection X as <- <- <-.
  match type of Ep with _ = Returns (_, ?x, ?o) =>
    destruct (flushBuffer
                (appended x x63
                   (snd (ShouldSplit {| limit := 3; seen := 2; closed := false |} x63))) o)
      as [[[ef wf] omf]| |] eqn:Ef; [|vm_compute in Ef; discriminate..]
  end.
  pose proof Ef as X. vm_compute in X. injection X as <- <- <-.
  destruct (Hfwd (bytes "ab") x63 (bytes "d") _ _
              {| limit := 3; seen := 2; closed := false |} _ _ _
              eq_refl Ep eq_refl eq_refl Ef)
    as (-> & -> & -> & -> & _ & Htp).
  eexists _, _, _, _, _. split; [exact Ep|]. split; [exact Ef|].
  split; [exact EW|]. split; [exact Htp|]. split; [exact Ht|reflexivity].
Defined.

(** C10, witness: the content manager refuses the only chunk; [Result] then
    returns the empty identifier and no error. *)
Lemma flushBuffer_failed_then_Result_witness :
  prepared (compressor pending) (buffer pending) = inl (bytes "abc", false) /\
  WriteContent (contentMgr (constructed [Some "storage"] 8)) (bytes "abc") (prefix pending)
    = ([], inl (New "storage")) /\
  exists w' om',
    flushBuffer pending (constructed [Some "storage"] 8)
      = Returns (Some (flushError pending (New "storage")), w', om') /\
    buffer w' = [] /\
    indirectIndex w' = [{| Start := 0; Length := 3; Object := "" |}] /\
    Result jsonIndex 1 w' om' = Returns ("", None, w', om').
Proof.
  split; [reflexivity|]. split; [reflexivity|].
  destruct (flushBuffer_failed_then_Result
              (contentOps := scriptedCM_ContentManager) jsonIndex
              pending (constructed [Some "storage"] 8) (bytes "abc") false []
              (New "storage") eq_refl eq_refl)
    as (w' & om' & Ef & Hb & Hi & Hr).
  exists w', om'. split; [exact Ef|]. split; [exact Hb|]. split; [exact Hi|].
  destruct (Hr eq_refl) as (_ & HR). exact (HR 0%nat).
Defined.

(** X1, witness: eight bytes written in two slices through a splitter that
    cuts every three bytes. *)
Lemma totalLength_counts_the_stream_witness :
  newWriter None "doc" "" (manager0 [] 3)
    = Returns (fresh 3 None "", constructed [] 3) /\
  len (List.concat [bytes "abcd"; bytes "efgh"]) < 2 ^ 63 /\
  exists (w : objectWriter fixedSplitter) (om : Manager fixedSplitter scriptedCM),
    writeAll (fresh 3 None "") [bytes "abcd"; bytes "efgh"] (constructed [] 3)
      = Returns (None, w, om) /\
    totalLength w = 8 /\
    currentPosition w = 6 /\ buffer w = bytes "gh".
Proof.
  split; [reflexivity|]. split; [vm_compute; reflexivity|].
  destruct (writeAll (fresh 3 None "") [bytes "abcd"; bytes "efgh"] (constructed [] 3))
    as [[[e w] om]| |] eqn:E; [|vm_compute in E; discriminate..].
  pose proof E as X. vm_compute in X. injection X as <- <- <-.
  destruct (totalLength_counts_the_stream None "doc" "" (manager0 [] 3) _ _ _ _
              [bytes "abcd"; bytes "efgh"] (fresh_is_new [] 3 None "") E
              ltac:(vm_compute; reflexivity)) as (Ht & _).
  eexists _, _. split; [reflexivity|]. split; [exact Ht|].
  split; reflexivity.
Defined.

(** X2, witness: the splitter of the writer after the same two slices is the
    new splitter consulted on the eight bytes. *)
Lemma splitter_sees_every_byte_witness :
  newWriter None "doc" "" (manager0 [] 3)
    = Returns (fresh 3 None "", constructed [] 3) /\
  exists (w : objectWriter fixedSplitter) (om : Manager fixedSplitter scriptedCM),
    writeAll (fresh 3 None "") [bytes "abcd"; bytes "efgh"] (constructed [] 3)
      = Returns (None, w, om) /\
    splitter w = Some (consulted (splitAt 3) (bytes "abcdefgh")).
Proof.
  split; [reflexivity|].
  destruct (writeAll (fresh 3 None "") [bytes "abcd"; bytes "efgh"] (constructed [] 3))
    as [[[e w] om]| |] eqn:E; [|vm_compute in E; discriminate..].
  pose proof E as X. vm_compute in X. injection X as <- <- <-.
  pose proof (splitter_sees_every_byte None "doc" "" (manager0 [] 3) _ _ _ _
                [bytes "abcd"; bytes "efgh"] (fresh_is_new [] 3 None "") E) as Hs.
  eexists _, _. split; [reflexivity|]. exact Hs.
Defined.

(** X3, witness: the same eight bytes are stored as the chunks [abc], [def]
    and [gh]. *)
Lemma chunks_are_the_stream_witness :
  newWriter None "doc" "" (manager0 [] 3)
    = Returns (fresh 3 None "", constructed [] 3) /\
  exists (w wf : objectWriter fixedSplitter) (om omf : Manager fixedSplitter scriptedCM) cs,
    writeAll (fresh 3 None "") [bytes "abcd"; bytes "efgh"] (constructed [] 3)
      = Returns (None, w, om) /\
    finalFlush w om = Returns (None, wf, omf) /\
    calls omf = calls (constructed [] 3) ++ cs /\
    List.concat (chunkInputs None cs) = bytes "abcdefgh" /\
    map Length (indirectIndex wf) = map len (chunkInputs None cs) /\
    Forall (fun chunk => chunk <> []) (chunkInputs None cs).
Proof.
  split; [reflexivity|].
  destruct (writeAll (fresh 3 None "") [bytes "abcd"; bytes "efgh"] (constructed [] 3))
    as [[[e w] om]| |] eqn:E; [|vm_compute in E; discriminate..].
  pose proof E as X. vm_compute in X. injection X as <- <- <-.
  match type of E with _ = Returns (_, ?w, ?o) =>
    destruct (finalFlush w o) as [[[ef wf] omf]| |] eqn:F
  end; [|vm_compute in F; discriminate..].
  pose proof F as X. vm_compute in X. injection X as <- <- <-.
  destruct (chunks_are_the_stream None "doc" "" (manager0 [] 3) _ _ _ _ _ _
              [bytes "abcd"; bytes "efgh"] _ (fresh_is_new [] 3 None "") E F)
    as (cs & Hc & Hcat & Hlen & Hne).
  eexists _, _, _, _, cs. split; [reflexivity|]. split; [exact F|].
  split; [exact Hc|]. split; [exact Hcat|]. split; [exact Hlen|].
  apply Hne. discriminate.
Defined.

(** X4, witness: [abcd] then [efgh], against the slice [abcdefgh]. *)
Lemma Write_of_concatenation_witness :
  exists (w1 w2 : objectWriter fixedSplitter) (om1 om2 : Manager fixedSplitter scriptedCM),
    Write (fresh 3 None "") (bytes "abcd") (constructed [] 3)
      = Returns (4, None, w1, om1) /\
    Write w1 (bytes "efgh") om1 = Returns (4, None, w2, om2) /\
    Write (fresh 3 None "") (bytes "abcd" ++ bytes "efgh") (constructed [] 3)
      = Returns (8, None, w2, om2).
Proof.
  destruct (Write (fresh 3 None "") (bytes "abcd") (constructed [] 3))
    as [[[[na ea] w1] om1]| |] eqn:A; [|vm_compute in A; discriminate..].
  pose proof A as X. vm_compute in X. injection X as <- <- <- <-.
  match type of A with _ = Returns (_, _, ?w, ?o) =>
    destruct (Write w (bytes "efgh") o) as [[[[nb eb] w2] om2]| |] eqn:B
  end; [|vm_compute in B; discriminate..].
  pose proof B as X. vm_compute in X. injection X as <- <- <- <-.
  destruct (Write_of_concatenation _ _ _ _ _ _ _ _ _ _ _ A B) as (_ & AB).
  eexists _, _, _, _. split; [reflexivity|]. split; [exact B|]. exact AB.
Defined.

(** X6, witness: a compressor that always fails, on four pending bytes. *)
Lemma flushBuffer_compression_failure_witness :
  compressor (pendingWith (fun _ => inl (New "codec"))) = Some (fun _ => inl (New "codec")) /\
  exists (w' : objectWriter fixedSplitter) (om' : Manager fixedSplitter scriptedCM),
    flushBuffer (pendingWith (fun _ => inl (New "codec"))) (constructed [] 8)
      = Returns (Some (Wrap (Wrap (New "codec") "compression error")
                            "unable to prepare content bytes"), w', om') /\
    contentMgr om' = [] /\
    buffer w' = bytes "aaaa" /\
    indirectIndex w' = [{| Start := 0; Length := 4; Object := "" |}] /\
    Result jsonIndex 1 (pendingWith (fun _ => inl (New "codec"))) (constructed [] 8)
      = Returns ("", Some (Wrap (Wrap (New "codec") "compression error")
                                "unable to prepare content bytes"), w', om').
Proof.
  split; [reflexivity|].
  destruct (flushBuffer_compression_failure (contentOps := scriptedCM_ContentManager)
              jsonIndex (pendingWith (fun _ => inl (New "codec"))) (constructed [] 8)
              (fun _ => inl (New "codec")) (New "codec") eq_refl eq_refl)
    as (w' & om' & Ef & Hcm & _ & Hb & Hi & _ & Hr).
  exists w', om'. split; [exact Ef|]. split; [exact Hcm|]. split; [exact Hb|].
  split; [exact Hi|]. exact (Hr eq_refl 0%nat).
Defined.

(** X7, witness: [Result] twice on a writer holding the single chunk [abc]. *)
Lemma Result_again_witness :
  exists (oid : ID) (w' : objectWriter fixedSplitter) (om' : Manager fixedSplitter scriptedCM),
    Result jsonIndex 1 pending (constructed [] 8) = Returns (oid, None, w', om') /\
    needsFlush w' = false /\
    Result jsonIndex 1 w' om' = Returns (oid, None, w', om').
Proof.
  destruct (Result jsonIndex 1 pending (constructed [] 8))
    as [[[[oid e] w'] om']| |] eqn:R; [|vm_compute in R; discriminate..].
  pose proof R as X. vm_compute in X. injection X as <- <- <- <-.
  destruct (Result_again jsonIndex _ _ _ _ _ _ R) as (Hn & Hone & _).
  eexists _, _, _. split; [reflexivity|]. split; [exact Hn|].
  exact (Hone _ 0%nat eq_refl).
Defined.

(** X8, witness: [Result] on a new writer with the compressor [idCompressor]
    and no byte written. *)
Lemma Result_of_empty_stream_witness :
  newWriter (Some idCompressor) "doc" "" (manager0 [] 3)
    = Returns (fresh 3 (Some idCompressor) "", constructed [] 3) /\
  reliable (Some idCompressor) /\
  exists (cid : contentID) (w' : objectWriter fixedSplitter)
         (om' : Manager fixedSplitter scriptedCM),
    snd (WriteContent (contentMgr (manager0 [] 3)) [] "") = inr cid /\
    Result jsonIndex 1 (fresh 3 (Some idCompressor) "") (constructed [] 3)
      = Returns (DirectObjectID cid, None, w', om') /\
    indirectIndex w' = [{| Start := 0; Length := 0; Object := DirectObjectID cid |}].
Proof.
  split; [reflexivity|].
  assert (Hrel : reliable (Some idCompressor)).
  { intros c input [= <-]. exists input. reflexivity. }
  split; [exact Hrel|].
  destruct (snd (WriteContent (contentMgr (manager0 [] 3)) [] "")) as [e|cid] eqn:W;
    [vm_compute in W; discriminate|].
  destruct (Result_of_empty_stream (contentOps := scriptedCM_ContentManager) jsonIndex
              (Some idCompressor) "doc" "" (manager0 [] 3) _ _ cid
              (fresh_is_new [] 3 (Some idCompressor) "") Hrel W 0%nat)
    as (w' & om' & cs & R & _ & _ & Hi & _).
  exists cid, w', om'. split; [reflexivity|]. split; [exact R|]. exact Hi.
Defined.

(** X9, witness: [a], [b] and [a] again, ranged over in reverse. *)
Lemma contentIDs_are_the_added_ids_witness :
  Tracker.iteration (@rev (string * bool)) /\
  Tracker.contentIDs (@rev (string * bool))
    (Tracker.addAll ["a"; "b"; "a"] Tracker.zero) = ["b"; "a"] /\
  NoDup (Tracker.contentIDs (@rev (string * bool))
           (Tracker.addAll ["a"; "b"; "a"] Tracker.zero)).
Proof.
  assert (Hr : Tracker.iteration (@rev (string * bool))).
  { intro m. apply Permutation_sym, Permutation_rev. }
  split; [exact Hr|]. split; [reflexivity|].
  exact (proj1 (contentIDs_are_the_added_ids _ ["a"; "b"; "a"] Hr)).
Defined.

(** X10, witness: three additions and a late [Get] on a cache of size 2. *)
Lemma cache_never_exceeds_its_size_witness :
  exists c,
    B2Cache.run [B2Cache.OpAdd "a" (Some 1%nat) 0; B2Cache.OpAdd "b" (Some 2%nat) 1;
                 B2Cache.OpGet "a" (2 + B2Cache.Minute);
                 B2Cache.OpAdd "c" (Some 3%nat) 3]
      (B2Cache.newB2Cache 2) = Returns c /\
    GoMap.size (B2Cache.entries c) <= 2.
Proof.
  destruct (B2Cache.run [B2Cache.OpAdd "a" (Some 1%nat) 0; B2Cache.OpAdd "b" (Some 2%nat) 1;
                         B2Cache.OpGet "a" (2 + B2Cache.Minute);
                         B2Cache.OpAdd "c" (Some 3%nat) 3]
              (B2Cache.newB2Cache 2)) as [c| |] eqn:E; [|vm_compute in E; discriminate..].
  exists c. split; [reflexivity|].
  exact (proj1 (cache_never_exceeds_its_size 2 _ c E)).
Defined.

(** X11, witness: an object added at time 100, asked for a minute later and
    a nanosecond after that. *)
Lemma Get_after_Add_witness :
  exists c1 c2,
    B2Cache.Add "a" (Some 1%nat) 100 (B2Cache.newB2Cache 2) = Returns c1 /\
    B2Cache.Get "a" (100 + B2Cache.Minute) c1 = (Some 1%nat, c1) /\
    B2Cache.Get "a" (101 + B2Cache.Minute) c1 = (None, c2) /\
    B2Cache.Get "a" 100 c2 = (None, c2).
Proof.
  destruct (B2Cache.Add "a" (Some 1%nat) 100 (B2Cache.newB2Cache 2)) as [c1| |] eqn:E;
    [|vm_compute in E; discriminate..].
  destruct (Get_after_Add _ _ _ _ _ E) as [Hin Hout].
  destruct (Hout (101 + B2Cache.Minute) ltac:(lia)) as (c2 & E2 & Hgone).
  exists c1, c2. split; [reflexivity|]. split; [apply Hin; lia|].
  split; [exact E2|apply Hgone].
Defined.

(** X13, witness: three identifiers into a cache of size 2. *)
Lemma cache_holds_the_last_adds_witness :
  0 < 2 /\
  NoDup (map B2Cache.idOf [("a", Some 1%nat, 0); ("b", Some 2%nat, 1); ("c", Some 3%nat, 2)]) /\
  exists c,
    B2Cache.run (B2Cache.adds [("a", Some 1%nat, 0); ("b", Some 2%nat, 1);
                               ("c", Some 3%nat, 2)])
      (B2Cache.newB2Cache 2) = Returns c /\
    B2Cache.Get "b" 5 c = (Some 2%nat, c) /\
    B2Cache.Get "a" 5 c = (None, c).
Proof.
  assert (Hnd : NoDup (map B2Cache.idOf [("a", Some 1%nat, 0); ("b", Some 2%nat, 1);
                                         ("c", Some 3%nat, 2)])).
  { cbn [map B2Cache.idOf fst]. repeat constructor; simpl; intuition discriminate. }
  split; [lia|]. split; [exact Hnd|].
  destruct (cache_holds_the_last_adds 2 _ ltac:(lia) Hnd) as (c & E & Hin & Hout).
  exists c. split; [exact E|]. split.
  - apply (Hin "b" (Some 2%nat) 1 5); [left; reflexivity|unfold B2Cache.Minute; lia].
  - apply Hout. simpl. intros [H|[H|[]]]; discriminate.
Defined.

(** X14, witness: a bucket with two blobs of the storage [p/] and a foreign
    object, listed for the blob prefix [a]. *)
Lemma ListBlobs_strips_the_storage_prefix_witness :
  exists bms,
    B2Storage.ListBlobs (fun s => s)
      {| B2Storage.BucketName := "bucket"; B2Storage.Prefix := "p/" |}
      [ {| B2Storage.Name := "p/a1"; B2Storage.Attrs := inr (10, 100) |};
        {| B2Storage.Name := "p/b2"; B2Storage.Attrs := inr (20, 200) |};
        {| B2Storage.Name := "q/a3"; B2Storage.Attrs := inr (30, 300) |} ]
      None "a" (fun _ => None) = Returns (bms, None) /\
    bms = [ {| B2Storage.BlobID := "a1"; B2Storage.Length := 10;
               B2Storage.Timestamp := 100 |} ].
Proof.
  destruct (ListBlobs_strips_the_storage_prefix (fun s => s)
              {| B2Storage.BucketName := "bucket"; B2Storage.Prefix := "p/" |}
              [ {| B2Storage.Name := "p/a1"; B2Storage.Attrs := inr (10, 100) |};
                {| B2Storage.Name := "p/b2"; B2Storage.Attrs := inr (20, 200) |};
                {| B2Storage.Name := "q/a3"; B2Storage.Attrs := inr (30, 300) |} ]
              None "a" (fun _ => None))
    as (bms & E & _).
  - intros obj [<-|[<-|[<-|[]]]]; eexists; reflexivity.
  - reflexivity.
  - exists bms. split; [exact E|].
    pose proof E as X. vm_compute in X. injection X as <-. reflexivity.
Defined.

(** X15, witness: three bytes asked for and read. *)
Lemma GetBlob_returns_what_was_asked_witness :
  B2Storage.GetBlob (fun _ => false) (New "BLOB not found")
    (fun _ _ => inr (bytes "abc")) None
    {| B2Storage.BucketName := "bucket"; B2Storage.Prefix := "p/" |} "a1" 0 3
    = inr (bytes "abc") /\
  len (bytes "abc") = 3.
Proof.
  assert (E : B2Storage.GetBlob (fun _ => false) (New "BLOB not found")
                (fun _ _ => inr (bytes "abc")) None
                {| B2Storage.BucketName := "bucket"; B2Storage.Prefix := "p/" |} "a1" 0 3
              = inr (bytes "abc")) by reflexivity.
  split; [exact E|].
  destruct (GetBlob_returns_what_was_asked (fun _ => false) (New "BLOB not found")
              (fun _ _ => inr (bytes "abc")) None
              {| B2Storage.BucketName := "bucket"; B2Storage.Prefix := "p/" |} "a1" 0 3)
    as [H _].
  destruct (H _ E) as [Hpos _]. apply Hpos. lia.
Defined.

(** X16, witness: a configured password together with a random one; the
    request with the configured password is refused. *)
Lemma requireCredentials_admits_witness :
  exists chain msg,
    Server.requireCredentials
      {| Server.serverUsername := "kopia"; Server.serverPassword := "secret";
         Server.serverStartRandomPassword := true |}
      [x00; xff] Server.inner_handler
    = ([("/", chain)], ["SERVER PASSWORD: 00ff"]) /\
    Server.ServeHTTP (fun r => Server.Path r) chain
      {| Server.Path := "/api/v1/status"; Server.BasicAuth := Some ("kopia", "secret") |}
    = Server.Refused Server.challenge msg Server.StatusUnauthorized.
Proof.
  destruct (requireCredentials_admits (fun r => Server.Path r)
              {| Server.serverUsername := "kopia"; Server.serverPassword := "secret";
                 Server.serverStartRandomPassword := true |}
              [x00; xff] Server.inner_handler
              {| Server.Path := "/api/v1/status";
                 Server.BasicAuth := Some ("kopia", "secret") |})
    as (chain & Hmux & Hprinted & _ & Hrefused & Hboth).
  destruct (Hrefused (Hboth ltac:(discriminate) eq_refl ltac:(discriminate)))
    as (msg & Hr).
  exists chain, msg. split; [|exact Hr].
  rewrite (surjective_pairing (Server.requireCredentials _ _ _)), Hmux, Hprinted.
  reflexivity.
Defined.

(** X17, witness: a host with a port. *)
Lemma stripProtocol_cuts_the_protocol_witness :
  String.prefix "http://" "localhost:51515" = false /\
  Server.stripProtocol "https://localhost:51515" = "localhost:51515" /\
  Server.stripProtocol "http://https://localhost:51515" = "https://localhost:51515".
Proof.
  split; [reflexivity|].
  destruct (stripProtocol_cuts_the_protocol "localhost:51515" eq_refl)
    as (_ & H1 & _ & H2 & _).
  split; [exact H1|exact H2].
Defined.

(** X18, witness: three log files and a foreign file, with room for two
    log files. *)
Lemma sweepLogDir_keeps_the_newest_witness :
  Logging.sorts Logging.insertionSort /\
  Logging.sweepLogDir Logging.insertionSort 100
    (inr [ {| Logging.Name := "kopia-1.log"; Logging.ModTime := 10 |};
           {| Logging.Name := "notes.txt"; Logging.ModTime := 5 |};
           {| Logging.Name := "kopia-2.log"; Logging.ModTime := 30 |};
           {| Logging.Name := "kopia-3.log"; Logging.ModTime := 20 |} ]) 2 0
  = [ {| Logging.Name := "kopia-1.log"; Logging.ModTime := 10 |} ].
Proof.
  split; [exact insertionSort_sorts|].
  destruct (sweepLogDir_keeps_the_newest Logging.insertionSort 100
              [ {| Logging.Name := "kopia-1.log"; Logging.ModTime := 10 |};
                {| Logging.Name := "notes.txt"; Logging.ModTime := 5 |};
                {| Logging.Name := "kopia-2.log"; Logging.ModTime := 30 |};
                {| Logging.Name := "kopia-3.log"; Logging.ModTime := 20 |} ] 2 0
              insertionSort_sorts) as [E _].
  rewrite E. vm_compute. reflexivity.
Defined.

(** X19, witness: the file cannot be created at the first record and could
    be at the second. *)
Lemma Log_creates_the_file_once_witness :
  exists w',
    Logging.logAll
      {| Logging.logDir := "/logs"; Logging.logFileBaseName := "kopia-1.log";
         Logging.symlinkName := "kopia.latest.log";
         Logging.backend := None; Logging.once := false |}
      [(true, None, 0, "first"); (false, None, 0, "second")]
    = ([Some (New "no backend"); Some (New "no backend")], w',
       [Logging.Create "/logs/kopia-1.log"]).
Proof.
  destruct (Log_creates_the_file_once
              {| Logging.logDir := "/logs"; Logging.logFileBaseName := "kopia-1.log";
                 Logging.symlinkName := "kopia.latest.log";
                 Logging.backend := None; Logging.once := false |}
              [(true, None, 0, "first"); (false, None, 0, "second")]
              eq_refl eq_refl) as (results & w' & effects & E & _ & _).
  pose proof E as X. vm_compute in X. injection X as <- <- <-.
  eexists. exact E.
Defined.

(** X20, witness: [a] and [b] in a cache of size 2, then [b] again and [c]. *)
Lemma readded_entry_is_not_renewed_witness :
  exists c c1 c2,
    B2Cache.run (B2Cache.adds [("a", Some 1%nat, 0); ("b", Some 2%nat, 1)])
      (B2Cache.newB2Cache 2) = Returns c /\
    B2Cache.ring c = [Some "a"; Some "b"] /\
    B2Cache.Add "b" (Some 2%nat) 2 c = Returns c1 /\
    B2Cache.Add "c" (Some 3%nat) 3 c1 = Returns c2 /\
    B2Cache.Get "b" 4 c2 = (None, c2).
Proof.
  destruct (B2Cache.run (B2Cache.adds [("a", Some 1%nat, 0); ("b", Some 2%nat, 1)])
              (B2Cache.newB2Cache 2)) as [c| |] eqn:E; [|vm_compute in E; discriminate..].
  pose proof E as X. vm_compute in X. injection X as <-.
  match type of E with _ = Returns ?c0 =>
    destruct (readded_entry_is_not_renewed c0 (Some "a") "b" "c" [] (Some 2%nat)
                (Some 3%nat) 2 3 4 eq_refl ltac:(discriminate))
      as (c1 & c2 & E1 & _ & E2 & G)
  end.
  eexists _, c1, c2. split; [reflexivity|]. split; [reflexivity|].
  split; [exact E1|]. split; [exact E2|exact G].
Defined.

End Scenarios.
